(** * validate-build: the build validator of scripts/validate-build.ts

    A shallow embedding of [validateBuild], [validateTypeScriptFile],
    [validatePackageJson] and [validatePath], and the properties of the
    validation run that follow from them.

    The script is effectful: it reads the disk, loads modules, type-checks
    declaration files, prints to the console and ends the process.  The disk
    is a tree, the console and the sequence of operations are part of the
    state, and what belongs to the runtime (module loading, the TypeScript
    compiler, [JSON.parse]) is data of a [World]. *)

From Stdlib Require Import List String Ascii ZArith NArith Bool Arith Lia.
Import ListNotations.
Open Scope string_scope.

(** ** Node's [path] module (posix) *)

Module Path.

(** The pieces of a path between its separators. *)
Fixpoint split (s : string) : list string :=
  match s with
  | EmptyString => [EmptyString]
  | String c r =>
      if Ascii.eqb c "/" then EmptyString :: split r
      else match split r with
           | seg :: segs => String c seg :: segs
           | [] => [String c EmptyString]
           end
  end.

(** [normalizeString]: empty and [.] segments vanish, [..] removes the
    segment before it; above the start it is kept only when allowed.  The
    accumulator holds the result so far, last segment first. *)
Fixpoint normalizeString (allowAboveRoot : bool) (segs acc : list string)
  : list string :=
  match segs with
  | [] => rev acc
  | seg :: rest =>
      if (seg =? EmptyString) || (seg =? ".") then normalizeString allowAboveRoot rest acc
      else if seg =? ".." then
        match acc with
        | top :: acc' =>
            if top =? ".." then
              normalizeString allowAboveRoot rest
                (if allowAboveRoot then ".." :: acc else acc)
            else normalizeString allowAboveRoot rest acc'
        | [] =>
            normalizeString allowAboveRoot rest
              (if allowAboveRoot then [".."] else [])
        end
      else normalizeString allowAboveRoot rest (seg :: acc)
  end.

Definition isAbsolute (p : string) : bool :=
  match p with String c _ => Ascii.eqb c "/" | EmptyString => false end.

Fixpoint trailingSeparator (p : string) : bool :=
  match p with
  | EmptyString => false
  | String c EmptyString => Ascii.eqb c "/"
  | String _ r => trailingSeparator r
  end.

(** The segments a path denotes, from the root for an absolute path. *)
Definition segments (p : string) : list string :=
  normalizeString (negb (isAbsolute p)) (split p) [].

Definition normalize (p : string) : string :=
  if p =? EmptyString then "."
  else
    let body := String.concat "/" (segments p) in
    if body =? EmptyString then
      if isAbsolute p then "/" else if trailingSeparator p then "./" else "."
    else
      let body := if trailingSeparator p then body ++ "/" else body in
      if isAbsolute p then "/" ++ body else body.

(** [path.join] of two arguments: empty arguments are skipped. *)
Definition join (a b : string) : string :=
  if a =? EmptyString then (if b =? EmptyString then "." else normalize b)
  else if b =? EmptyString then normalize a
  else normalize (a ++ "/" ++ b).

(** The suffix of [s] that starts at its last dot. *)
Fixpoint lastDot (s : string) : option string :=
  match s with
  | EmptyString => None
  | String c r =>
      match lastDot r with
      | Some e => Some e
      | None => if Ascii.eqb c "." then Some s else None
      end
  end.

(** The last non-empty piece of a path (trailing separators are ignored). *)
Definition basename (p : string) : string :=
  last (filter (fun seg => negb (seg =? EmptyString)) (split p)) EmptyString.

(** [path.extname]: from the last dot of the last portion of the path; empty
    when there is no dot, when the only dot is its first character, and for
    [..]. *)
Definition extname (p : string) : string :=
  let base := basename p in
  match lastDot base with
  | None => EmptyString
  | Some e => if (e =? base) || (base =? "..") then EmptyString else e
  end.

End Path.

(** ** Text *)

(** A JavaScript string read from a file: its UTF-16 code units. *)
Definition text := list N.

Definition utf16 (s : string) : text :=
  map (fun c => N_of_ascii c) (list_ascii_of_string s).

(** White space and line terminators, the characters [String.prototype.trim]
    removes. *)
Definition isWhiteSpace (c : N) : bool :=
  ((9 <=? c) && (c <=? 13) || (c =? 32) || (c =? 160) || (c =? 5760)
   || (8192 <=? c) && (c <=? 8202) || (c =? 8232) || (c =? 8233)
   || (c =? 8239) || (c =? 8287) || (c =? 12288) || (c =? 65279))%N.

Fixpoint trimStart (t : text) : text :=
  match t with
  | c :: r => if isWhiteSpace c then trimStart r else t
  | [] => []
  end.

Definition trimEnd (t : text) : text := rev (trimStart (rev t)).

Definition trim (t : text) : text := trimEnd (trimStart t).

(** ** The disk *)

(** A directory tree.  [Special] stands for whatever [statSync] reports as
    neither a file nor a directory (socket, FIFO, device). *)
#[warnings="-register-all"]
Inductive node :=
| File (content : text)
| Dir (entries : list (string * node))
| Special.

Fixpoint child (name : string) (entries : list (string * node)) : option node :=
  match entries with
  | [] => None
  | (n, c) :: rest => if n =? name then Some c else child name rest
  end.

Fixpoint walk (n : node) (segs : list string) : option node :=
  match segs with
  | [] => Some n
  | s :: rest =>
      match n with
      | Dir es => match child s es with Some c => walk c rest | None => None end
      | _ => None
      end
  end.

(** What a path names on the disk.  A path that ends in a separator names
    directories only. *)
Definition lookup (root : node) (p : string) : option node :=
  match walk root (Path.segments p) with
  | Some (Dir es) => Some (Dir es)
  | Some n => if Path.trailingSeparator p then None else Some n
  | None => None
  end.

(** ** Errors, console, operations *)

Inductive error :=
| ENOENT (path : string)
| EISDIR (path : string)
| ENOTDIR (path : string)
| ENXIO (path : string)
| SyntaxError
| TypeError (message : string)
| Error (message : string).

Inductive line :=
| StdErr (s : string)
| StdErrValue (e : error)
| StdOut (s : string).

(** What the run does to its environment, in the order it does it. *)
Inductive op :=
| ReadFile (p : string)
| Require (p : string)
| Import (p : string)
| TypeCheck (p : string)
| ReadFileSync (p : string)
| Access (p : string)
| ReadDirSync (p : string)
| StatSync (p : string).

Record state := mkState {
  disk : node;
  console : list line;
  ops : list op }.

(** ** Sequential code: state, exceptions and [process.exit] *)

Inductive res (A : Type) :=
| Val (a : A)
| Throw (e : error)
| Exit (code : Z).
Arguments Val {A} a.
Arguments Throw {A} e.
Arguments Exit {A} code.

Definition D (A : Type) := state -> res A * state.

Definition ret {A} (a : A) : D A := fun st => (Val a, st).

Definition bind {A B} (m : D A) (k : A -> D B) : D B := fun st =>
  match m st with
  | (Val a, st') => k a st'
  | (Throw e, st') => (Throw e, st')
  | (Exit c, st') => (Exit c, st')
  end.

Declare Scope run_scope.
Delimit Scope run_scope with run.
Notation "x <- m ;; k" := (bind m (fun x => k))
  (at level 100, m at next level, right associativity) : run_scope.
Notation "m ;; k" := (bind m (fun _ => k))
  (at level 100, right associativity) : run_scope.
Open Scope run_scope.

Definition throw {A} (e : error) : D A := fun st => (Throw e, st).

(** [process.exit(code)]: nothing after it runs, no handler sees it. *)
Definition process_exit {A} (code : Z) : D A := fun st => (Exit code, st).

(** [try { m } catch (e) { h e }] *)
Definition tryCatch {A} (m : D A) (h : error -> D A) : D A := fun st =>
  match m st with
  | (Throw e, st') => h e st'
  | r => r
  end.

Definition getDisk : D node := fun st => (Val (disk st), st).

Definition perform (o : op) : D unit := fun st =>
  (Val tt, mkState (disk st) (console st) (ops st ++ [o])%list).

Definition print (l : line) : D unit := fun st =>
  (Val tt, mkState (disk st) (console st ++ [l])%list (ops st)).

Definition console_error (s : string) : D unit := print (StdErr s).
Definition console_error_value (e : error) : D unit := print (StdErrValue e).
Definition console_log (s : string) : D unit := print (StdOut s).

(** ** The file system calls *)

Definition readAt (p : string) : D text :=
  d <- getDisk ;;
  match lookup d p with
  | Some (File c) => ret c
  | Some (Dir _) => throw (EISDIR p)
  | Some Special => throw (ENXIO p)
  | None => throw (ENOENT p)
  end.

(** [fs.readFileSync(p, 'utf-8')] *)
Definition readFileSync (p : string) : D text :=
  perform (ReadFileSync p) ;; readAt p.

(** Modelled from the spec: [readFile] of ./util, which is not among the
    sources; the manifest is read with it, and a missing file fails the
    read. *)
Definition readFile (p : string) : D text :=
  perform (ReadFile p) ;; readAt p.

(** ** The runtime *)

Record BuildConfig := {
  pkgDir : string;
  rootDir : string;
  esmNode : bool }.

Inductive ExportValue :=
| ExportPath (target : string)
| ExportConditions (import require : string).

(** The properties the script reads off the parsed manifest; [None] is
    JavaScript's [undefined]. *)
Record PackageJSON := {
  files : option (list string);
  main : option string;
  module : option string;
  types : option string;
  exports : option (list (string * ExportValue)) }.

(** What loading a module does.  Its top-level code runs: it may print, it
    may change the disk, and it returns, throws, or ends the process with
    [process.exit]. *)
Record Loaded := {
  outcome : res unit;
  output : list line;
  diskAfter : node }.

(** What the validator cannot decide by itself.  Loading a module runs its
    top-level code; the compiler answers with the rendered diagnostics of the
    program made of one root file, under the configuration of a root
    directory; [JSON.parse] either throws or yields a value, seen here at the
    type the script gives it. *)
Record World := {
  node_require : string -> node -> Loaded;
  node_import : string -> node -> Loaded;
  getSemanticDiagnostics : string -> string -> node -> list string;
  getSyntacticDiagnostics : string -> string -> node -> list string;
  JSON_parse : text -> option PackageJSON;
  dirname : string }.

(** The module runs inside the process of the validator: what it prints
    goes to the same console, and when it calls [process.exit] nothing of the
    validator runs after it. *)
Definition load (loader : string -> node -> Loaded) (p : string)
  : D unit := fun st =>
  let m := loader p (disk st) in
  (outcome m,
   mkState (diskAfter m) (console st ++ output m)%list (ops st)).

(** [require(filePath)] *)
Definition require_ (w : World) (filePath : string) : D unit :=
  perform (Require filePath) ;; load (node_require w) filePath.

(** [await import(pathToFileURL(filePath).href)]: the URL names the file. *)
Definition import_ (w : World) (filePath : string) : D unit :=
  perform (Import filePath) ;; load (node_import w) filePath.

(** [JSON.parse(s)] *)
Definition JSON_parse_ (w : World) (s : text) : D PackageJSON :=
  match JSON_parse w s with
  | Some v => ret v
  | None => throw SyntaxError
  end.

(** ** The validator *)

Definition quote : string := String (ascii_of_nat 34) EmptyString.
Definition newline : string := String (ascii_of_nat 10) EmptyString.
Definition string_of_bytes (l : list nat) : string :=
  string_of_list_ascii (map ascii_of_nat l).
(** The firecracker and the medal of the messages, in UTF-8. *)
Definition firecracker : string := string_of_bytes [240; 159; 167; 168]%nat.
Definition medal : string := string_of_bytes [240; 159; 143; 133]%nat.

(** [ts.formatDiagnostics]: the diagnostics one after the other. *)
Definition formatDiagnostics (ds : list string) : string :=
  String.concat EmptyString ds.

(** [validateTypeScriptFile]: a program of the one file under the project's
    tsconfig.json; its semantic and syntactic diagnostics, if any, are
    thrown as one error. *)
Definition validateTypeScriptFile (w : World) (config : BuildConfig)
  (tsFilePath : string) : D unit :=
  perform (TypeCheck tsFilePath) ;;
  d <- getDisk ;;
  let tsDiagnostics :=
    (getSemanticDiagnostics w (rootDir config) tsFilePath d
     ++ getSyntacticDiagnostics w (rootDir config) tsFilePath d)%list in
  if (0 <? List.length tsDiagnostics)%nat then
    throw (Error (firecracker ++ "  " ++ formatDiagnostics tsDiagnostics))
  else ret tt.

(** The body of the [try] of [validateBuild]'s loop: the [switch] on the
    extension.  The [.mjs] case has no [break] when [esmNode] is off and falls
    into the [.ts] case. *)
Definition checkFile (w : World) (config : BuildConfig) (filePath : string)
  : D unit :=
  let ext := Path.extname filePath in
  if ext =? ".cjs" then require_ w filePath
  else if ext =? ".mjs" then
    if esmNode config then import_ w filePath
    else validateTypeScriptFile w config filePath
  else if ext =? ".ts" then validateTypeScriptFile w config filePath
  else if ext =? ".json" then
    content <- readFileSync filePath ;; JSON_parse_ w content ;; ret tt
  else if ext =? ".map" then
    content <- readFileSync filePath ;; JSON_parse_ w content ;; ret tt
  else
    content <- readFileSync filePath ;;
    match trim content with
    | [] => throw (Error "empty file")
    | _ => ret tt
    end.

(** The module a check loads, if it loads one, and what that module
    prints. *)
Definition loadedBy (w : World) (config : BuildConfig) (filePath : string)
  (d : node) : option Loaded :=
  let ext := Path.extname filePath in
  if ext =? ".cjs" then Some (node_require w filePath d)
  else if ext =? ".mjs" then
    if esmNode config then Some (node_import w filePath d) else None
  else None.

Definition moduleOutput (w : World) (config : BuildConfig) (filePath : string)
  (d : node) : list line :=
  match loadedBy w config filePath d with
  | Some m => output m
  | None => []
  end.

(** A module that prints nothing and does not end the process. *)
Definition silent (m : Loaded) : Prop :=
  output m = [] /\ forall c, outcome m <> Exit c.

(** The [catch] of the loop. *)
Definition fileError {A} (filePath : string) (e : error) : D A :=
  console_error "Validate Build File Error!" ;;
  console_error filePath ;;
  console_error_value e ;;
  process_exit 1.

(** [for (const filePath of expectedFiles) { try { ... } catch (e) { ... } }] *)
Fixpoint validateFiles (w : World) (config : BuildConfig)
  (expectedFiles : list string) : D unit :=
  match expectedFiles with
  | [] => ret tt
  | filePath :: rest =>
      tryCatch (checkFile w config filePath) (fileError filePath) ;;
      validateFiles w config rest
  end.

(** *** The entry points *)

Definition pathMessage (config : BuildConfig) (shown : string) : string :=
  "Error validating path " ++ quote ++ shown ++ quote ++ " inside of "
  ++ quote ++ Path.join (pkgDir config) "package.json" ++ quote.

(** The [catch] of [validatePath]; [shown] is the path as the template
    literal renders it. *)
Definition pathError {A} (config : BuildConfig) (shown : string) (e : error)
  : D A :=
  console_error (pathMessage config shown) ;;
  console_error_value e ;;
  process_exit 1.

(** What [join] throws at [undefined]. *)
Definition undefinedPath : error :=
  TypeError ("The " ++ quote ++ "path" ++ quote
             ++ " argument must be of type string. Received undefined").

(** [validatePath] up to its [await]: [join] is evaluated, inside the [try],
    and rejects an argument that is not a string; the access is issued. *)
Definition validatePath_call (config : BuildConfig) (path : option string)
  : D string :=
  match path with
  | Some p => perform (Access (Path.join (pkgDir config) p)) ;; ret p
  | None =>
      pathError config "undefined" undefinedPath
  end.

(** Modelled from the spec: [access] of ./util, which is not among the
    sources; it succeeds when the path exists on the disk.  The access is
    issued when [validatePath] calls it; this is its settling. *)
Definition access (p : string) : D unit :=
  d <- getDisk ;;
  match lookup d p with
  | Some _ => ret tt
  | None => throw (ENOENT p)
  end.

(** [validatePath] from its [await] on: the access settles inside the [try],
    and the [catch] reports its failure. *)
Definition validatePath_settle (config : BuildConfig) (p : string) : D unit :=
  tryCatch (access (Path.join (pkgDir config) p)) (pathError config p).

(** [await validatePath(config, path)] with nothing else in flight. *)
Definition validatePath (config : BuildConfig) (path : option string)
  : D unit :=
  p <- validatePath_call config path ;; validatePath_settle config p.

(** **** Concurrency

    The members of a [Promise.all] are async functions that await
    [validatePath] calls one after the other: a task is the list of the paths
    it has still to validate.  A running task waits for the access of one
    path.  Calls run to their first [await] in order; then the accesses
    settle in any order, each settling resuming its task. *)

Definition task := list (option string).
Definition running := (string * task)%type.

(** Nondeterministic runs: every schedule's outcome. *)
Definition ND (A : Type) := state -> list (res A * state).

Definition lift {A} (m : D A) : ND A := fun st => [m st].

Definition bindN {A B} (m : ND A) (k : A -> ND B) : ND B := fun st =>
  flat_map (fun r =>
    match r with
    | (Val a, st') => k a st'
    | (Throw e, st') => [(Throw e, st')]
    | (Exit c, st') => [(Exit c, st')]
    end) (m st).

Notation "x <~ m ;; k" := (bindN m (fun x => k))
  (at level 100, m at next level, right associativity) : run_scope.
Notation "m ;;; k" := (bindN m (fun _ => k))
  (at level 100, right associativity) : run_scope.

(** A task runs up to its first [await], or ends at once. *)
Definition start (config : BuildConfig) (t : task) : D (list running) :=
  match t with
  | [] => ret []
  | path :: rest => p <- validatePath_call config path ;; ret [(p, rest)]
  end.

Fixpoint startAll (config : BuildConfig) (ts : list task) : D (list running) :=
  match ts with
  | [] => ret []
  | t :: ts' =>
      r <- start config t ;;
      rs <- startAll config ts' ;;
      ret (r ++ rs)%list
  end.

(** All ways to single out one element of a list. *)
Fixpoint picks {A} (l : list A) : list (list A * A * list A) :=
  match l with
  | [] => []
  | x :: r =>
      ([], x, r) :: map (fun '(pre, y, post) => (x :: pre, y, post)) (picks r)
  end.

(** The access of one running task settles and the task goes on. *)
Definition settle (config : BuildConfig) (pre : list running) (r : running)
  (post : list running) : D (list running) :=
  validatePath_settle config (fst r) ;;
  next <- start config (snd r) ;;
  ret (pre ++ next ++ post)%list.

(** The accesses still to come: the fuel of the event loop. *)
Definition pending (rs : list running) : nat :=
  list_sum (map (fun r : running => S (List.length (snd r))) rs).

Fixpoint eventLoop (config : BuildConfig) (fuel : nat) (rs : list running)
  : ND unit :=
  match rs with
  | [] => lift (ret tt)
  | _ :: _ =>
      match fuel with
      | O => fun _ => []
      | S fuel' => fun st =>
          flat_map (fun '(pre, r, post) =>
            (rs' <~ lift (settle config pre r post) ;;
             eventLoop config fuel' rs') st) (picks rs)
      end
  end.

(** [await Promise.all(tasks)] *)
Definition promiseAll (config : BuildConfig) (ts : list task) : ND unit :=
  rs <~ lift (startAll config ts) ;; eventLoop config (pending rs) rs.

(** The body of the async arrow function mapped over the export keys. *)
Definition exportTask (val : ExportValue) : task :=
  match val with
  | ExportPath target => [Some target]
  | ExportConditions import require => [Some import; Some require]
  end.

(** [Object.keys(pkg.exports)] throws on [undefined]. *)
Definition Object_keys (o : option (list (string * ExportValue)))
  : D (list string) :=
  match o with
  | Some entries => ret (map fst entries)
  | None => throw (TypeError "Cannot convert undefined or null to object")
  end.

(** [pkg.exports[exportKey]] *)
Definition property (o : option (list (string * ExportValue)))
  (exportKey : string) : option ExportValue :=
  match o with
  | Some entries =>
      option_map snd (find (fun kv => fst kv =? exportKey) entries)
  | None => None
  end.

(** The three calls of the first [Promise.all]. *)
Definition entryTasks (pkg : PackageJSON) : list task :=
  [[main pkg]; [module pkg]; [types pkg]].

(** The async arrow function mapped over the export keys. *)
Definition keyTasks (pkg : PackageJSON) (exportKeys : list string)
  : list task :=
  map (fun exportKey =>
         match property (exports pkg) exportKey with
         | Some val => exportTask val
         | None => []
         end) exportKeys.

Definition validatePackageJson (config : BuildConfig) (pkg : PackageJSON)
  : ND unit :=
  promiseAll config (entryTasks pkg) ;;;
  exportKeys <~ lift (Object_keys (exports pkg)) ;;
  promiseAll config (keyTasks pkg exportKeys).

(** *** The tree scan *)

(** [getFiles(dir)], at the directory [n] that [dir] names: [readdirSync]
    lists its entries, [statSync] tells what each entry is, and the files
    are pushed onto [allFiles]. *)
Fixpoint getFiles (dir : string) (n : node) (allFiles : list string)
  : D (list string) :=
  perform (ReadDirSync dir) ;;
  match n with
  | Dir entries =>
      (fix forEach (es : list (string * node)) (allFiles : list string)
         : D (list string) :=
         match es with
         | [] => ret allFiles
         | (f, s) :: es' =>
             let filePath := Path.join dir f in
             perform (StatSync filePath) ;;
             match s with
             | Dir _ =>
                 allFiles' <- getFiles filePath s allFiles ;;
                 forEach es' allFiles'
             | File _ => forEach es' (allFiles ++ [filePath])%list
             | Special => throw (Error ("unexpected " ++ filePath))
             end
         end) entries allFiles
  | _ => throw (ENOTDIR dir)
  end.

(** [getFiles(config.pkgDir)] with [allFiles] empty. *)
Definition scan (config : BuildConfig) : D (list string) :=
  d <- getDisk ;;
  match lookup d (pkgDir config) with
  | Some n => getFiles (pkgDir config) n []
  | None => perform (ReadDirSync (pkgDir config)) ;; throw (ENOENT (pkgDir config))
  end.

(** [expectedFiles.includes(f)] *)
Definition includes (l : list string) (f : string) : bool :=
  existsb (fun g => g =? f) l.

Definition unexpectedMessage (w : World) (unexpectedFiles : list string)
  : string :=
  "Unexpected files found in the package build:" ++ newline
  ++ String.concat newline unexpectedFiles ++ newline ++ newline
  ++ "If this is on purpose, add the file(s) to the " ++ quote
  ++ "PACKAGE_FILES" ++ quote ++ " array in " ++ quote
  ++ Path.join (dirname w) "package-json.ts" ++ quote.

(** The end of [validateBuild], from [const allFiles] on. *)
Definition scanTree (w : World) (config : BuildConfig)
  (expectedFiles : list string) : D unit :=
  allFiles <- scan config ;;
  let unexpectedFiles :=
    filter (fun f => negb (includes expectedFiles f)) allFiles in
  if (0 <? List.length unexpectedFiles)%nat then
    console_error (unexpectedMessage w unexpectedFiles) ;;
    process_exit 1
  else console_log (medal ++ " validated build").

(** *** The run *)

(** The start of [validateBuild]: the manifest and the expected files.
    [pkg.files.map] throws when [files] is [undefined]. *)
Definition loadManifest (w : World) (config : BuildConfig)
  : D (PackageJSON * list string) :=
  let pkgPath := Path.join (pkgDir config) "package.json" in
  raw <- readFile pkgPath ;;
  pkg <- JSON_parse_ w raw ;;
  match files pkg with
  | Some fs => ret (pkg, map (fun f => Path.join (pkgDir config) f) fs)
  | None => throw (TypeError "Cannot read properties of undefined (reading 'map')")
  end.

Definition validateBuild (w : World) (config : BuildConfig) : ND unit :=
  loaded <~ lift (loadManifest w config) ;;
  let '(pkg, expectedFiles) := loaded in
  lift (validateFiles w config expectedFiles) ;;;
  validatePackageJson config pkg ;;;
  lift (scanTree w config expectedFiles).

(** How the process ends: 0 when [validateBuild] returns, the code given to
    [process.exit], 1 when the promise is rejected and nothing handles it. *)
Definition exitCode {A} (r : res A) : Z :=
  match r with
  | Val _ => 0
  | Exit c => c
  | Throw _ => 1
  end.

Definition initial (d : node) : state := mkState d [] [].

(** The phase an operation belongs to. *)
Definition phase (o : op) : nat :=
  match o with
  | ReadFile _ => 0
  | Require _ | Import _ | TypeCheck _ | ReadFileSync _ => 1
  | Access _ => 2
  | ReadDirSync _ | StatSync _ => 3
  end.

(** The path an operation is about. *)
Definition target (o : op) : string :=
  match o with
  | ReadFile p | Require p | Import p | TypeCheck p | ReadFileSync p
  | Access p | ReadDirSync p | StatSync p => p
  end.

(** What the [catch] of the loop leaves on the console. *)
Definition fileReport (filePath : string) (e : error) : list line :=
  [StdErr "Validate Build File Error!"; StdErr filePath; StdErrValue e].

(** What the [catch] of [validatePath] leaves on the console. *)
Definition pathReport (config : BuildConfig) (shown : string) (e : error)
  : list line :=
  [StdErr (pathMessage config shown); StdErrValue e].

Definition say (st : state) (ls : list line) : state :=
  mkState (disk st) (console st ++ ls)%list (ops st).

Definition exists_on (d : node) (p : string) : bool :=
  match lookup d p with Some _ => true | None => false end.

(** [s] occurs in [t]. *)
Definition occurs (s t : string) : Prop := exists a b, t = a ++ s ++ b.

Definition did (st : state) (o : op) : state :=
  mkState (disk st) (console st) (ops st ++ [o])%list.

(** The extensions whose check is left to a loader or to the compiler. *)
Definition delegated (ext : string) : bool :=
  (ext =? ".cjs") || (ext =? ".mjs") || (ext =? ".ts").

(** The extensions with a case of their own in the [switch]. *)
Definition recognised (ext : string) : bool :=
  delegated ext || (ext =? ".json") || (ext =? ".map").

(** What [validatePath] reports for a path, if it fails on it. *)
Definition failure (config : BuildConfig) (d : node) (path : option string)
  : option (list line) :=
  match path with
  | None => Some (pathReport config "undefined" undefinedPath)
  | Some p =>
      if exists_on d (Path.join (pkgDir config) p) then None
      else Some (pathReport config p (ENOENT (Path.join (pkgDir config) p)))
  end.

Definition passes (config : BuildConfig) (d : node) (path : option string)
  : Prop :=
  failure config d path = None.

(** A task stops at its first failing path, reporting it. *)
Definition stopsWith (config : BuildConfig) (d : node) (t : task)
  (report : list line) : Prop :=
  exists pre path post,
    t = (pre ++ path :: post)%list /\ Forall (passes config d) pre
    /\ failure config d path = Some report.

(** The paths a running task has still to validate, the awaited one first. *)
Definition task_of (r : running) : task := Some (fst r) :: snd r.

Definition exportTasks (entries : list (string * ExportValue)) : list task :=
  map (fun kv => exportTask (snd kv)) entries.

(** Every path of every task passes. *)
Definition allPass (config : BuildConfig) (d : node) (ts : list task) : Prop :=
  forall t, In t ts -> Forall (passes config d) t.

(** The process exits on the report of a path of one of the tasks. *)
Definition exitsOn (config : BuildConfig) (ts : list task) (st : state)
  (o : res unit * state) : Prop :=
  fst o = Exit 1 /\
  exists t report,
    In t ts /\ stopsWith config (disk st) t report
    /\ console (snd o) = (console st ++ report)%list.

(** ** Records of a run *)

(** The operations a piece of code adds to the record, all satisfying [P]. *)
Definition adds (P : op -> Prop) (st st' : state) : Prop :=
  exists l, ops st' = (ops st ++ l)%list /\ Forall P l.

(** A step that changes neither the disk nor the console and performs
    operations of one phase only. *)
Definition quiet (k : nat) (st st' : state) : Prop :=
  disk st' = disk st /\ console st' = console st
  /\ adds (fun o => phase o = k) st st'.

(** What follows the resolver: the tree scan, unless the process has ended. *)
Definition afterResolver (w : World) (config : BuildConfig)
  (expectedFiles : list string) (r : res unit * state)
  : list (res unit * state) :=
  match r with
  | (Val _, st) => [scanTree w config expectedFiles st]
  | (Throw e, st) => [(Throw e, st)]
  | (Exit c, st) => [(Exit c, st)]
  end.

(** ** Where a run stands *)

(** The manifest is loaded and the declared files before [filePath] have
    passed: the loop is at [filePath], in state [st2]. *)
Definition reachesFile (w : World) (config : BuildConfig) (st : state)
  (pkg : PackageJSON) (pre : list string) (filePath : string)
  (rest : list string) (st2 : state) : Prop :=
  exists st1,
    loadManifest w config st = (Val (pkg, pre ++ filePath :: rest)%list, st1)
    /\ validateFiles w config pre st1 = (Val tt, st2).

(** All declared files have passed: the resolver starts, in state [st2]. *)
Definition reachesResolver (w : World) (config : BuildConfig) (st : state)
  (pkg : PackageJSON) (expectedFiles : list string) (st2 : state) : Prop :=
  exists st1,
    loadManifest w config st = (Val (pkg, expectedFiles), st1)
    /\ validateFiles w config expectedFiles st1 = (Val tt, st2).

(** Under some schedule the resolver has passed too: the scan starts, in
    state [st3]. *)
Definition reachesScanner (w : World) (config : BuildConfig) (st : state)
  (pkg : PackageJSON) (expectedFiles : list string) (st3 : state) : Prop :=
  exists st2,
    reachesResolver w config st pkg expectedFiles st2
    /\ In (Val tt, st3) (validatePackageJson config pkg st2).

(** The paths a manifest gives for its entry points and exports. *)
Definition givenPaths (pkg : PackageJSON) : list string :=
  let given (o : option string) := match o with Some p => [p] | None => [] end in
  (given (main pkg) ++ given (module pkg) ++ given (types pkg)
   ++ match exports pkg with
      | Some entries =>
          flat_map (fun kv =>
            match snd kv with
            | ExportPath target => [target]
            | ExportConditions import require => [import; require]
            end) entries
      | None => []
      end)%list.

(** ** The specification's wording, where the code differs *)

(** "Absent means skip": when every path the manifest gives exists, the
    resolver succeeds, whatever fields are absent. *)
Definition spec_absent_is_skipped (config : BuildConfig) (pkg : PackageJSON)
  (st : state) : Prop :=
  forallb (fun p => exists_on (disk st) (Path.join (pkgDir config) p))
    (givenPaths pkg) = true ->
  forall o, In o (validatePackageJson config pkg st) -> fst o = Val tt.



(** "A declared directory is never silently accepted": a run over a manifest
    that declares a path which is a directory exits with a non-zero code. *)
Definition spec_declared_directory_rejected (w : World) (config : BuildConfig)
  (d : node) : Prop :=
  forall pkg expectedFiles st1 filePath es,
    loadManifest w config (initial d) = (Val (pkg, expectedFiles), st1) ->
    In filePath expectedFiles ->
    lookup d filePath = Some (Dir es) ->
    forall o, In o (validateBuild w config (initial d)) ->
              exists c, fst o = Exit c /\ c <> 0%Z.

(** ** Builds to run the validator on *)

Module Fixture.

Fixpoint text_eqb (a b : text) : bool :=
  match a, b with
  | [], [] => true
  | x :: a', y :: b' => N.eqb x y && text_eqb a' b'
  | _, _ => false
  end.

(** The JSON text of a manifest. *)
Definition quoted (s : string) : string := quote ++ s ++ quote.

Definition array (l : list string) : string :=
  "[" ++ String.concat "," (map quoted l) ++ "]".

Definition member (k : string) (v : option string) : list string :=
  match v with
  | Some s => [quoted k ++ ":" ++ s]
  | None => []
  end.

Definition exportText (kv : string * ExportValue) : string :=
  quoted (fst kv) ++ ":" ++
  match snd kv with
  | ExportPath target => quoted target
  | ExportConditions import require =>
      "{" ++ quoted "import" ++ ":" ++ quoted import ++ ","
      ++ quoted "require" ++ ":" ++ quoted require ++ "}"
  end.

Definition object (l : list string) : string :=
  "{" ++ String.concat "," l ++ "}".

Definition manifestText (pkg : PackageJSON) : text :=
  utf16 (object
    (member "files" (option_map array (files pkg))
     ++ member "main" (option_map quoted (main pkg))
     ++ member "module" (option_map quoted (module pkg))
     ++ member "types" (option_map quoted (types pkg))
     ++ member "exports"
          (option_map (fun es => object (map exportText es)) (exports pkg)))%list).

Definition noProperties : PackageJSON :=
  {| files := None; main := None; module := None; types := None;
     exports := None |}.

(** A world in which the text of [pkg] parses to [pkg] and an empty object
    to an object without properties, and nothing else parses; loading one of
    [throwing] throws, and no module prints, ends the process or touches the
    disk; the compiler has no semantic or syntactic diagnostic to report. *)
Definition world (pkg : PackageJSON) (throwing : list string) : World :=
  let loader (p : string) (d : node) :=
    {| outcome := if includes throwing p
                  then Throw (Error "thrown at load time") else Val tt;
       output := [];
       diskAfter := d |} in
  {| node_require := loader;
     node_import := loader;
     getSemanticDiagnostics := fun _ _ _ => [];
     getSyntacticDiagnostics := fun _ _ _ => [];
     JSON_parse := fun t =>
       if text_eqb t (manifestText pkg) then Some pkg
       else if text_eqb t (utf16 "{}") then Some noProperties
       else None;
     dirname := "/repo/scripts" |}.

Definition config (esm : bool) : BuildConfig :=
  {| pkgDir := "/repo/dist"; rootDir := "/repo"; esmNode := esm |}.

(** The disk: /repo/dist holds the manifest of [pkg] and [entries]. *)
Definition build (pkg : PackageJSON) (entries : list (string * node)) : node :=
  Dir [("repo",
        Dir [("dist",
              Dir (("package.json", File (manifestText pkg)) :: entries))])].

Definition code : node := File (utf16 "exports.ok = true").

(** A complete build. *)
Definition pkg : PackageJSON :=
  {| files := Some ["core.cjs"; "core.mjs"; "core.d.ts"; "core.mjs.map";
                    "README.md"; "package.json"];
     main := Some "./core.cjs";
     module := Some "./core.mjs";
     types := Some "./core.d.ts";
     exports := Some [(".", ExportConditions "./core.mjs" "./core.cjs");
                      ("./package.json", ExportPath "./package.json")] |}.

Definition dist : list (string * node) :=
  [("core.cjs", code); ("core.mjs", code); ("core.d.ts", code);
   ("core.mjs.map", File (utf16 "{}")); ("README.md", File (utf16 "# core"))].

(** The complete build, whose manifest declares one more declaration file,
    which was not built. *)
Definition pkgJsx : PackageJSON :=
  {| files := Some ["core.cjs"; "core.mjs"; "core.d.ts"; "jsx-runtime.d.ts";
                    "core.mjs.map"; "README.md"; "package.json"];
     main := main pkg; module := module pkg; types := types pkg;
     exports := exports pkg |}.

(** The complete build with a stray file in a subdirectory. *)
Definition distWithStray : list (string * node) :=
  (dist ++ [("tmp", Dir [("chunk.js", code)]); ("core.js", code)])%list.

(** A manifest without [main]; one without [exports]. *)
Definition pkgWithoutMain : PackageJSON :=
  {| files := files pkg; main := None; module := module pkg;
     types := types pkg; exports := exports pkg |}.

Definition pkgWithoutExports : PackageJSON :=
  {| files := files pkg; main := main pkg; module := module pkg;
     types := types pkg; exports := None |}.

(** A manifest whose [main] and [module] were both not built. *)
Definition pkgTwoMissing : PackageJSON :=
  {| files := files pkg; main := Some "./a.cjs"; module := Some "./b.mjs";
     types := types pkg; exports := exports pkg |}.

(** Conditional exports of which only the [require] target was built. *)
Definition pkgSub : PackageJSON :=
  {| files := Some ["core.cjs"; "core.d.ts"; "sub.cjs"; "package.json"];
     main := Some "./core.cjs";
     module := Some "./core.cjs";
     types := Some "./core.d.ts";
     exports := Some [("./sub", ExportConditions "./sub.mjs" "./sub.cjs")] |}.

Definition distSub : list (string * node) :=
  [("core.cjs", code); ("core.d.ts", code); ("sub.cjs", code)].

(** A file of no recognised extension. *)
Definition pkgNotes : PackageJSON :=
  {| files := Some ["core.cjs"; "notes.xyz"; "package.json"];
     main := Some "./core.cjs";
     module := Some "./core.cjs";
     types := Some "./core.cjs";
     exports := Some [] |}.

Definition distNotes (content : string) : list (string * node) :=
  [("core.cjs", code); ("notes.xyz", File (utf16 content))].

(** A declared directory that can be required: it holds an index.js. *)
Definition pkgFolder : PackageJSON :=
  {| files := Some ["lib.cjs"; "lib.cjs/index.js"; "package.json"];
     main := Some "./lib.cjs";
     module := Some "./lib.cjs";
     types := Some "./lib.cjs";
     exports := Some [] |}.

Definition distFolder : list (string * node) :=
  [("lib.cjs", Dir [("index.js", code)])].

(** A declared directory without extension. *)
Definition pkgAssets : PackageJSON :=
  {| files := Some ["core.cjs"; "assets"; "package.json"];
     main := Some "./core.cjs";
     module := Some "./core.cjs";
     types := Some "./core.cjs";
     exports := Some [] |}.

Definition distAssets : list (string * node) :=
  [("core.cjs", code); ("assets", Dir [("logo.svg", code)])].

(** The complete build with a socket left in a subdirectory. *)
Definition distWithSocket : list (string * node) :=
  (dist ++ [("run", Dir [("agent.sock", Special)])])%list.

(** The world of the complete build in which the compiler has two
    diagnostics for core.d.ts. *)
Definition worldWithDiagnostics : World :=
  {| node_require := node_require (world pkg []);
     node_import := node_import (world pkg []);
     getSemanticDiagnostics := fun _ p _ =>
       if p =? "/repo/dist/core.d.ts"
       then ["core.d.ts(3,10): error TS2304: Cannot find name 'Props'."]
       else [];
     getSyntacticDiagnostics := fun _ p _ =>
       if p =? "/repo/dist/core.d.ts"
       then ["core.d.ts(7,1): error TS1005: '}' expected."]
       else [];
     JSON_parse := JSON_parse (world pkg []);
     dirname := dirname (world pkg []) |}.

(** The world of the complete build in which core.cjs, when it is loaded,
    prints a line and calls [process.exit(0)]. *)
Definition worldWithExit : World :=
  {| node_require := fun p d =>
       if p =? "/repo/dist/core.cjs"
       then {| outcome := Exit 0; output := [StdOut "done"]; diskAfter := d |}
       else node_require (world pkg []) p d;
     node_import := node_import (world pkg []);
     getSemanticDiagnostics := getSemanticDiagnostics (world pkg []);
     getSyntacticDiagnostics := getSyntacticDiagnostics (world pkg []);
     JSON_parse := JSON_parse (world pkg []);
     dirname := dirname (world pkg []) |}.

End Fixture.

(** An outcome of a successful run: [validateBuild] returned after the tree
    scan, having printed its one line. *)
Definition validated (config : BuildConfig) (o : res unit * state) : bool :=
  match fst o, console (snd o) with
  | Val _, [StdOut s] =>
      (s =? medal ++ " validated build")
      && existsb (fun x => match x with
                           | ReadDirSync p => p =? pkgDir config
                           | _ => false
                           end) (ops (snd o))
  | _, _ => false
  end.


(** Induction on directory trees. *)
Fixpoint node_induction (P : node -> Prop)
  (HFile : forall c, P (File c)) (HSpecial : P Special)
  (HDir : forall es, Forall (fun e => P (snd e)) es -> P (Dir es))
  (n : node) : P n :=
  match n with
  | File c => HFile c
  | Special => HSpecial
  | Dir es =>
      HDir es
        ((fix all (es : list (string * node)) : Forall (fun e => P (snd e)) es :=
            match es with
            | [] => Forall_nil _
            | e :: r =>
                Forall_cons e
                  (node_induction P HFile HSpecial HDir (snd e)) (all r)
            end) es)
  end.

(** ** The files of a tree *)

(** The regular files below a directory, as the scan meets them. *)
Fixpoint filesOf (dir : string) (n : node) : list string :=
  match n with
  | Dir entries =>
      (fix each (es : list (string * node)) : list string :=
         match es with
         | [] => []
         | (f, s) :: es' =>
             (match s with
              | File _ => [Path.join dir f]
              | Dir _ => filesOf (Path.join dir f) s
              | Special => []
              end ++ each es')%list
         end) entries
  | _ => []
  end.

(** A tree of directories and regular files only. *)
Fixpoint regular (n : node) : bool :=
  match n with
  | File _ => true
  | Dir entries =>
      (fix each (es : list (string * node)) : bool :=
         match es with
         | [] => true
         | (_, s) :: es' => regular s && each es'
         end) entries
  | Special => false
  end.

(** [p] is the path of a regular file below the directory [n] named [dir]:
    an entry of [n], or a file below a subdirectory of [n]. *)
Inductive fileUnder : string -> node -> string -> Prop :=
| fileHere dir es f c :
    In (f, File c) es -> fileUnder dir (Dir es) (Path.join dir f)
| fileBelow dir es f sub p :
    In (f, Dir sub) es -> fileUnder (Path.join dir f) (Dir sub) p ->
    fileUnder dir (Dir es) p.

(** [p] is the path of an entry below [dir] that is neither a file nor a
    directory. *)
Inductive specialUnder : string -> node -> string -> Prop :=
| specialHere dir es f :
    In (f, Special) es -> specialUnder dir (Dir es) (Path.join dir f)
| specialBelow dir es f sub p :
    In (f, Dir sub) es -> specialUnder (Path.join dir f) (Dir sub) p ->
    specialUnder dir (Dir es) p.

(** The checks of the files of a list pass, one after the other: each check
    starts in the state the check before it has left, and returns. *)
Inductive checked (w : World) (config : BuildConfig)
  : list string -> state -> state -> Prop :=
| checked_nil st : checked w config [] st st
| checked_cons filePath rest st st1 st' :
    checkFile w config filePath st = (Val tt, st1) ->
    checked w config rest st1 st' ->
    checked w config (filePath :: rest) st st'.

(** A line of the error stream. *)
Definition isError (l : line) : Prop :=
  match l with
  | StdOut _ => False
  | _ => True
  end.

(** The loops of [getFiles], [filesOf] and [regular] over the entries of one
    directory, by name. *)
Definition forEach (dir : string)
  : list (string * node) -> list string -> D (list string) :=
  fix forEach (es : list (string * node)) (allFiles : list string)
    : D (list string) :=
    match es with
    | [] => ret allFiles
    | (f, s) :: es' =>
        let filePath := Path.join dir f in
        perform (StatSync filePath) ;;
        match s with
        | Dir _ =>
            allFiles' <- getFiles filePath s allFiles ;;
            forEach es' allFiles'
        | File _ => forEach es' (allFiles ++ [filePath])%list
        | Special => throw (Error ("unexpected " ++ filePath))
        end
    end.

Definition filesEach (dir : string) : list (string * node) -> list string :=
  fix each (es : list (string * node)) : list string :=
    match es with
    | [] => []
    | (f, s) :: es' =>
        (match s with
         | File _ => [Path.join dir f]
         | Dir _ => filesOf (Path.join dir f) s
         | Special => []
         end ++ each es')%list
    end.

Definition regularEach : list (string * node) -> bool :=
  fix each (es : list (string * node)) : bool :=
    match es with
    | [] => true
    | (_, s) :: es' => regular s && each es'
    end.

(** ** Normal forms of paths *)

(** [normalizeString] before its last step: the accumulator it ends with. *)
Fixpoint normalized (allowAboveRoot : bool) (segs acc : list string)
  : list string :=
  match segs with
  | [] => acc
  | seg :: rest =>
      if (seg =? EmptyString) || (seg =? ".") then
        normalized allowAboveRoot rest acc
      else if seg =? ".." then
        match acc with
        | top :: acc' =>
            if top =? ".." then
              normalized allowAboveRoot rest
                (if allowAboveRoot then ".." :: acc else acc)
            else normalized allowAboveRoot rest acc'
        | [] =>
            normalized allowAboveRoot rest
              (if allowAboveRoot then [".."] else [])
        end
      else normalized allowAboveRoot rest (seg :: acc)
  end.

(** A segment that names an entry. *)
Definition plain (seg : string) : bool :=
  negb ((seg =? EmptyString) || (seg =? ".") || (seg =? "..")).

Fixpoint dots (acc : list string) : bool :=
  match acc with
  | [] => true
  | x :: r => (x =? "..") && dots r
  end.

(** An accumulator in normal form, read from its top: plain segments, and
    below them, when going above the start is allowed, [..] only. *)
Fixpoint normalAcc (allowAboveRoot : bool) (acc : list string) : bool :=
  match acc with
  | [] => true
  | x :: r =>
      if x =? ".." then allowAboveRoot && dots r
      else plain x && normalAcc allowAboveRoot r
  end.

Fixpoint slashFree (s : string) : bool :=
  match s with
  | EmptyString => true
  | String c r => negb (Ascii.eqb c "/") && slashFree r
  end.

(** * Properties *)

(** ** Paths and text on examples *)

Example join_relative : Path.join "/pkg" "./sub.mjs" = "/pkg/sub.mjs".
Proof. reflexivity. Qed.

Example join_nested : Path.join "/pkg/lib" "core.d.ts" = "/pkg/lib/core.d.ts".
Proof. reflexivity. Qed.

Example join_parent : Path.join "/pkg/lib" "../a//b/" = "/pkg/a/b/".
Proof. reflexivity. Qed.

Example extname_declaration : Path.extname "/pkg/core.d.ts" = ".ts".
Proof. reflexivity. Qed.

Example extname_hidden : Path.extname "/pkg/.npmignore" = EmptyString.
Proof. reflexivity. Qed.

Example extname_none : Path.extname "/pkg.d/LICENSE" = EmptyString.
Proof. reflexivity. Qed.

Example trim_spaces : trim (utf16 "  ok  ") = utf16 "ok".
Proof. reflexivity. Qed.

(** Two accesses in flight fail: either may be the one that is reported. *)
Example either_failure_may_be_reported :
  map (fun o => console (snd o))
    (validatePackageJson (Fixture.config false) Fixture.pkgTwoMissing
       (initial (Fixture.build Fixture.pkgTwoMissing Fixture.dist)))
  = [pathReport (Fixture.config false) "./a.cjs" (ENOENT "/repo/dist/a.cjs");
     pathReport (Fixture.config false) "./b.mjs" (ENOENT "/repo/dist/b.mjs");
     pathReport (Fixture.config false) "./a.cjs" (ENOENT "/repo/dist/a.cjs");
     pathReport (Fixture.config false) "./b.mjs" (ENOENT "/repo/dist/b.mjs")].
Proof. vm_compute. reflexivity. Qed.

Example lookup_nested :
  lookup (Fixture.build Fixture.pkg Fixture.distWithStray)
    "/repo/dist/tmp/../tmp/chunk.js" = Some Fixture.code.
Proof. reflexivity. Qed.

(** ** Outcomes of sequential code *)

Lemma bind_Val {A B} (m : D A) (k : A -> D B) st a st' :
  m st = (Val a, st') -> bind m k st = k a st'.
Proof. intros H. unfold bind. now rewrite H. Qed.

Lemma bind_Throw {A B} (m : D A) (k : A -> D B) st e st' :
  m st = (Throw e, st') -> bind m k st = (Throw e, st').
Proof. intros H. unfold bind. now rewrite H. Qed.

Lemma bind_inv {A B} (m : D A) (k : A -> D B) st r st' :
  bind m k st = (r, st') ->
  (exists a st1, m st = (Val a, st1) /\ k a st1 = (r, st'))
  \/ (exists e, m st = (Throw e, st') /\ r = Throw e)
  \/ (exists c, m st = (Exit c, st') /\ r = Exit c).
Proof.
  unfold bind. destruct (m st) as [[a | e | c] st1]; intros H.
  - left. eauto.
  - right; left. inversion H; subst. eauto.
  - right; right. inversion H; subst. eauto.
Qed.

Lemma adds_refl P st : adds P st st.
Proof. exists []. split; [now rewrite app_nil_r | constructor]. Qed.

Lemma adds_trans P st1 st2 st3 :
  adds P st1 st2 -> adds P st2 st3 -> adds P st1 st3.
Proof.
  intros [l1 [E1 F1]] [l2 [E2 F2]]. exists (l1 ++ l2)%list. split.
  - now rewrite E2, E1, app_assoc.
  - now apply Forall_app.
Qed.

(** ** The tree scan *)

Lemma quiet_trans k st1 st2 st3 :
  quiet k st1 st2 -> quiet k st2 st3 -> quiet k st1 st3.
Proof.
  intros (D1 & C1 & A1) (D2 & C2 & A2). repeat split; try congruence.
  eapply adds_trans; eauto.
Qed.

Lemma quiet_perform k o st :
  phase o = k -> quiet k st (snd (perform o st)).
Proof.
  intros H. repeat split. exists [o]. split; [reflexivity | auto].
Qed.

Lemma getFiles_quiet n : forall dir allFiles st,
  quiet 3 st (snd (getFiles dir n allFiles st)).
Proof.
  induction n as [c | | es IH] using node_induction; intros dir allFiles st.
  - simpl. unfold bind; simpl. apply quiet_perform. reflexivity.
  - simpl. unfold bind; simpl. apply quiet_perform. reflexivity.
  - cbn [getFiles]. unfold bind at 1. cbn [perform].
    set (st0 := mkState (disk st) (console st) (ops st ++ [ReadDirSync dir])).
    assert (Q0 : quiet 3 st st0) by (apply (quiet_perform 3 (ReadDirSync dir)); reflexivity).
    clearbody st0. revert allFiles st0 Q0.
    induction IH as [| [f s] es' Hs _ IHes]; intros allFiles st0 Q0.
    + exact Q0.
    + unfold bind at 1. cbn [perform].
      set (st1 := mkState (disk st0) (console st0)
                    (ops st0 ++ [StatSync (Path.join dir f)])).
      assert (Q1 : quiet 3 st st1).
      { eapply quiet_trans; [exact Q0 |].
        apply (quiet_perform 3 (StatSync (Path.join dir f))). reflexivity. }
      clearbody st1. simpl in Hs.
      destruct s as [c | sub |].
      * apply IHes. exact Q1.
      * unfold bind at 1.
        specialize (Hs (Path.join dir f) allFiles st1).
        destruct (getFiles (Path.join dir f) (Dir sub) allFiles st1)
          as [[a | e | c] st2] eqn:E; simpl in Hs.
        -- apply IHes. eapply quiet_trans; eauto.
        -- simpl. eapply quiet_trans; eauto.
        -- simpl. eapply quiet_trans; eauto.
      * simpl. exact Q1.
Qed.

Lemma scan_quiet config st : quiet 3 st (snd (scan config st)).
Proof.
  unfold scan, bind; simpl.
  destruct (lookup (disk st) (pkgDir config)).
  - apply getFiles_quiet.
  - apply (quiet_perform 3 (ReadDirSync (pkgDir config))). reflexivity.
Qed.

Lemma includes_In l f : includes l f = true <-> In f l.
Proof.
  unfold includes. rewrite existsb_exists. split.
  - intros [g [Hg E]]. apply String.eqb_eq in E. now subst.
  - intros H. exists f. split; [exact H | apply String.eqb_refl].
Qed.

Lemma unexpected_difference expectedFiles allFiles f :
  In f (filter (fun f => negb (includes expectedFiles f)) allFiles)
  <-> In f allFiles /\ ~ In f expectedFiles.
Proof.
  rewrite filter_In, negb_true_iff.
  pose proof (includes_In expectedFiles f) as H.
  destruct (includes expectedFiles f); intuition congruence.
Qed.

Lemma string_app_assoc (a b c : string) : (a ++ b) ++ c = a ++ b ++ c.
Proof. induction a; simpl; congruence. Qed.

Lemma occurs_concat sep f l : In f l -> occurs f (String.concat sep l).
Proof.
  induction l as [| x [| y r] IH]; intros H.
  - destruct H.
  - destruct H as [-> | []]. exists EmptyString, EmptyString.
    simpl. clear. induction f; simpl; congruence.
  - destruct H as [-> | H].
    + exists EmptyString, (sep ++ String.concat sep (y :: r)). reflexivity.
    + destruct (IH H) as [a [b E]].
      exists (x ++ sep ++ a), b.
      change (String.concat sep (x :: y :: r))
        with (x ++ sep ++ String.concat sep (y :: r)).
      rewrite E. now rewrite !string_app_assoc.
Qed.

Lemma occurs_in_context s t a b : occurs s t -> occurs s (a ++ t ++ b).
Proof.
  intros [u [v E]]. exists (a ++ u), (v ++ b). subst t.
  now rewrite !string_app_assoc.
Qed.

Lemma unexpectedMessage_lists w unexpectedFiles f :
  In f unexpectedFiles -> occurs f (unexpectedMessage w unexpectedFiles).
Proof.
  intros H. unfold unexpectedMessage.
  rewrite <- string_app_assoc.
  apply occurs_in_context, occurs_concat, H.
Qed.

Lemma scanTree_outcome w config expectedFiles st allFiles st1 :
  scan config st = (Val allFiles, st1) ->
  let unexpectedFiles :=
    filter (fun f => negb (includes expectedFiles f)) allFiles in
  scanTree w config expectedFiles st =
    match unexpectedFiles with
    | [] => (Val tt, say st1 [StdOut (medal ++ " validated build")])
    | _ :: _ => (Exit 1, say st1 [StdErr (unexpectedMessage w unexpectedFiles)])
    end.
Proof.
  intros H. unfold scanTree. rewrite (bind_Val _ _ _ _ _ H).
  destruct (filter _ allFiles); reflexivity.
Qed.

(** ** The checks of one file *)

Lemma trimStart_nil t :
  trimStart t = [] <-> Forall (fun c => isWhiteSpace c = true) t.
Proof.
  induction t as [| c r IH]; simpl.
  - split; auto.
  - destruct (isWhiteSpace c) eqn:E.
    + rewrite IH. split; intros H.
      * constructor; auto.
      * now inversion H.
    + split; intros H; [discriminate | inversion H; congruence].
Qed.

Lemma trimStart_head t c r : trimStart t = c :: r -> isWhiteSpace c = false.
Proof.
  induction t as [| x t' IH]; simpl; [discriminate |].
  destruct (isWhiteSpace x) eqn:E; auto.
  intros H. inversion H; subst. exact E.
Qed.

Lemma trim_nil t : trim t = [] <-> Forall (fun c => isWhiteSpace c = true) t.
Proof.
  rewrite <- trimStart_nil. unfold trim, trimEnd. split; intros H.
  - destruct (trimStart t) as [| c r] eqn:E; [reflexivity |].
    assert (H' : trimStart (rev (c :: r)) = []).
    { destruct (trimStart (rev (c :: r))); [reflexivity |].
      simpl in H. apply app_eq_nil in H. destruct H; discriminate. }
    clear H. rename H' into H.
    apply trimStart_nil in H. apply Forall_rev in H.
    rewrite rev_involutive in H. inversion H; subst.
    apply trimStart_head in E. congruence.
  - rewrite H. reflexivity.
Qed.

Lemma trim_not_nil t :
  Exists (fun c => isWhiteSpace c = false) t -> trim t <> [].
Proof.
  intros H E. apply trim_nil in E. apply Exists_exists in H.
  destruct H as [c [Hin Hc]]. rewrite Forall_forall in E.
  specialize (E c Hin). congruence.
Qed.

Lemma readFileSync_eq p st :
  readFileSync p st =
    (match lookup (disk st) p with
     | Some (File c) => Val c
     | Some (Dir _) => Throw (EISDIR p)
     | Some Special => Throw (ENXIO p)
     | None => Throw (ENOENT p)
     end, did st (ReadFileSync p)).
Proof.
  unfold readFileSync, readAt, bind; simpl.
  destruct (lookup (disk st) p) as [[c | es |] |]; reflexivity.
Qed.

(** The [default] case of the [switch]. *)
Lemma checkFile_default w config filePath :
  recognised (Path.extname filePath) = false ->
  checkFile w config filePath =
    (content <- readFileSync filePath ;;
     match trim content with
     | [] => throw (Error "empty file")
     | _ => ret tt
     end).
Proof.
  unfold recognised, delegated, checkFile. intros H.
  repeat (apply orb_false_iff in H; destruct H as [H ?]).
  now repeat match goal with E : _ = false |- _ => rewrite E; clear E end.
Qed.

(** A path the validator reads itself. *)
Lemma checkFile_reads w config filePath st :
  delegated (Path.extname filePath) = false ->
  exists k : text -> D unit,
    checkFile w config filePath st = bind (readFileSync filePath) k st.
Proof.
  unfold delegated, checkFile. intros H.
  repeat (apply orb_false_iff in H; destruct H as [H ?]).
  repeat match goal with E : _ = false |- _ => rewrite E; clear E end.
  destruct (Path.extname filePath =? ".json");
    [| destruct (Path.extname filePath =? ".map")]; eauto.
Qed.

Lemma fileError_eq {A} filePath e st :
  @fileError A filePath e st = (Exit 1, say st (fileReport filePath e)).
Proof.
  unfold fileError, console_error, console_error_value, bind, say, fileReport.
  simpl. now rewrite <- !app_assoc.
Qed.

Lemma pathError_eq {A} config shown e st :
  @pathError A config shown e st = (Exit 1, say st (pathReport config shown e)).
Proof.
  unfold pathError, console_error, console_error_value, bind, say, pathReport.
  simpl. now rewrite <- !app_assoc.
Qed.

Lemma validateFiles_cons w config filePath rest st :
  validateFiles w config (filePath :: rest) st =
    match checkFile w config filePath st with
    | (Val _, st') => validateFiles w config rest st'
    | (Throw e, st') => (Exit 1, say st' (fileReport filePath e))
    | (Exit c, st') => (Exit c, st')
    end.
Proof.
  cbn [validateFiles]. unfold bind at 1, tryCatch.
  destruct (checkFile w config filePath st) as [[a | e | c] st'];
    try reflexivity.
  now rewrite fileError_eq.
Qed.

Lemma validateFiles_app w config pre post st st' :
  validateFiles w config pre st = (Val tt, st') ->
  validateFiles w config (pre ++ post) st = validateFiles w config post st'.
Proof.
  revert st. induction pre as [| p pre IH]; intros st H.
  - simpl in H. inversion H. reflexivity.
  - change ((p :: pre) ++ post)%list with (p :: (pre ++ post))%list.
    rewrite validateFiles_cons in *.
    destruct (checkFile w config p st) as [[a | e | c] st1]; try discriminate.
    now apply IH.
Qed.

(** ** The run, phase by phase *)

Lemma validateBuild_unfold w config st :
  validateBuild w config st =
    match loadManifest w config st with
    | (Val (pkg, expectedFiles), st1) =>
        match validateFiles w config expectedFiles st1 with
        | (Val _, st2) =>
            flat_map (afterResolver w config expectedFiles)
              (validatePackageJson config pkg st2)
        | (Throw e, st2) => [(Throw e, st2)]
        | (Exit c, st2) => [(Exit c, st2)]
        end
    | (Throw e, st1) => [(Throw e, st1)]
    | (Exit c, st1) => [(Exit c, st1)]
    end.
Proof.
  unfold validateBuild, bindN, lift. cbn [flat_map].
  destruct (loadManifest w config st) as [[[pkg expectedFiles] | e | c] st1];
    try reflexivity.
  rewrite !app_nil_r.
  destruct (validateFiles w config expectedFiles st1) as [[a | e | c] st2];
    try reflexivity.
Qed.

(** ** The entry points *)

Lemma picks_split {A} (l : list A) pre x post :
  In (pre, x, post) (picks l) -> l = (pre ++ x :: post)%list.
Proof.
  revert pre x post. induction l as [| a l IH]; intros pre x post H.
  - destruct H.
  - simpl in H. destruct H as [H | H].
    + inversion H; subst. reflexivity.
    + apply in_map_iff in H. destruct H as [[[pre' y] post'] [E Hin]].
      inversion E; subst. simpl. f_equal. now apply IH.
Qed.

Lemma validatePath_settle_eq config p st :
  validatePath_settle config p st =
    if exists_on (disk st) (Path.join (pkgDir config) p) then (Val tt, st)
    else (Exit 1, say st (pathReport config p
                            (ENOENT (Path.join (pkgDir config) p)))).
Proof.
  unfold validatePath_settle, tryCatch, access, exists_on, bind, getDisk.
  destruct (lookup (disk st) (Path.join (pkgDir config) p));
    [reflexivity | apply pathError_eq].
Qed.

Lemma settle_eq config pre r post st :
  settle config pre r post st =
    if exists_on (disk st) (Path.join (pkgDir config) (fst r)) then
      match snd r with
      | [] => (Val (pre ++ post)%list, st)
      | None :: _ => (Exit 1, say st (pathReport config "undefined" undefinedPath))
      | Some q :: rest =>
          (Val (pre ++ (q, rest) :: post)%list,
           did st (Access (Path.join (pkgDir config) q)))
      end
    else
      (Exit 1, say st (pathReport config (fst r)
                         (ENOENT (Path.join (pkgDir config) (fst r))))).
Proof.
  unfold settle, bind at 1. rewrite validatePath_settle_eq.
  destruct (exists_on (disk st) (Path.join (pkgDir config) (fst r)));
    [| reflexivity].
  destruct (snd r) as [| [q |] rest].
  - reflexivity.
  - reflexivity.
  - unfold start, validatePath_call, bind. now rewrite pathError_eq.
Qed.

(** The first phase of a [Promise.all]: every task that is not empty is
    started, unless one of them is called with [undefined]. *)
Lemma startAll_outcome config ts : forall st r st',
  startAll config ts st = (r, st') ->
  disk st' = disk st /\ adds (fun o => phase o = 2) st st'
  /\ ((exists rs, r = Val rs /\ console st' = console st
        /\ (forall x, In x rs -> In (task_of x) ts)
        /\ (forall t, In t ts -> t = [] \/ exists x, In x rs /\ task_of x = t))
      \/ (r = Exit 1 /\ exists t report,
            In t ts /\ stopsWith config (disk st) t report
            /\ console st' = (console st ++ report)%list)).
Proof.
  induction ts as [| t ts IH]; intros st r st' H.
  - inversion H; subst. repeat split; [apply adds_refl |].
    left. exists []. repeat split; [intros x [] | intros t []].
  - cbn [startAll] in H. destruct t as [| [p |] rest].
    + unfold start, bind at 1 in H. cbn in H.
      apply bind_inv in H.
      destruct H as [(rs & st1 & H1 & H2) | [(e & H1 & ->) | (c & H1 & ->)]].
      * inversion H2; subst. destruct (IH _ _ _ H1) as (Dk & Ad & [C | C]).
        -- repeat split; auto. left.
           destruct C as (rs' & E & Ck & In' & All'). inversion E; subst.
           exists rs'. repeat split; auto.
           ++ intros x Hx. right. auto.
           ++ intros t [<- | Ht]; auto.
        -- destruct C as [C _]. discriminate.
      * destruct (IH _ _ _ H1) as (Dk & Ad & [C | C]).
        -- destruct C as (rs' & E & _). discriminate.
        -- destruct C as [C _]. discriminate.
      * destruct (IH _ _ _ H1) as (Dk & Ad & [C | C]).
        -- destruct C as (rs' & E & _). discriminate.
        -- repeat split; auto. right. destruct C as (E & t & report & Hin & Hs & Ck).
           split; auto. exists t, report. repeat split; auto. now right.
    + unfold start, validatePath_call, bind at 1 2 3 in H. cbn in H.
      fold (did st (Access (Path.join (pkgDir config) p))) in H.
      set (st0 := did st (Access (Path.join (pkgDir config) p))) in *.
      assert (A0 : adds (fun o => phase o = 2) st st0).
      { exists [Access (Path.join (pkgDir config) p)]. split; [reflexivity | auto]. }
      apply bind_inv in H.
      destruct H as [(rs & st1 & H1 & H2) | [(e & H1 & ->) | (c & H1 & ->)]];
        destruct (IH _ _ _ H1) as (Dk & Ad & [C | C]).
      * inversion H2; subst. repeat split; auto.
        -- eapply adds_trans; eauto.
        -- left. destruct C as (rs' & E & Ck & In' & All'). inversion E; subst.
           exists ((p, rest) :: rs'). repeat split; auto.
           ++ intros x [<- | Hx]; [now left | right; auto].
           ++ intros t [<- | Ht].
              ** right. exists (p, rest). split; [now left | reflexivity].
              ** destruct (All' t Ht) as [-> | (x & Hx & <-)]; auto.
                 right. exists x. split; [now right | reflexivity].
      * destruct C as [C _]. discriminate.
      * destruct C as (rs' & E & _). discriminate.
      * destruct C as [C _]. discriminate.
      * destruct C as (rs' & E & _). discriminate.
      * repeat split; auto.
        -- eapply adds_trans; eauto.
        -- right. destruct C as (E & t & report & Hin & Hs & Ck).
           split; auto. exists t, report. repeat split; auto. now right.
    + unfold start, validatePath_call, bind at 1 2 in H.
      rewrite pathError_eq in H. inversion H; subst.
      repeat split;
        [exists []; split; [simpl; now rewrite app_nil_r | constructor] |].
      right. split; auto.
      exists (None :: rest), (pathReport config "undefined" undefinedPath).
      repeat split; [now left |].
      exists [], None, rest. repeat split. constructor.
Qed.

Lemma adds_say P st ls : adds P st (say st ls).
Proof. exists []. split; [simpl; now rewrite app_nil_r | constructor]. Qed.

Lemma adds_did (P : op -> Prop) st o : P o -> adds P st (did st o).
Proof. intros H. exists [o]. split; [reflexivity | auto]. Qed.

Lemma passes_Some config d p :
  passes config d (Some p) <-> exists_on d (Path.join (pkgDir config) p) = true.
Proof.
  unfold passes, failure.
  destruct (exists_on d (Path.join (pkgDir config) p)); split; congruence.
Qed.

Lemma failure_missing config d p :
  exists_on d (Path.join (pkgDir config) p) = false ->
  failure config d (Some p)
  = Some (pathReport config p (ENOENT (Path.join (pkgDir config) p))).
Proof. intros H. unfold failure. now rewrite H. Qed.

Lemma stopsWith_later config d path t report :
  passes config d path -> stopsWith config d t report ->
  stopsWith config d (path :: t) report.
Proof.
  intros Hp (pre & q & post & -> & Hpre & Hq).
  exists (path :: pre), q, post. repeat split; auto.
Qed.

Lemma stopsWith_here config d path t report :
  failure config d path = Some report -> stopsWith config d (path :: t) report.
Proof. intros H. exists [], path, t. repeat split; auto. Qed.

(** The second phase of a [Promise.all]: whatever the order in which the
    accesses settle, either every path of every task passes, or the process
    exits on the report of a path that fails, the paths before it in its task
    having passed. *)
Lemma eventLoop_outcome config fuel : forall rs st o,
  In o (eventLoop config fuel rs st) ->
  disk (snd o) = disk st /\ adds (fun o => phase o = 2) st (snd o)
  /\ ((fst o = Val tt /\ console (snd o) = console st
        /\ forall x, In x rs -> Forall (passes config (disk st)) (task_of x))
      \/ (fst o = Exit 1 /\ exists x report,
            In x rs /\ stopsWith config (disk st) (task_of x) report
            /\ console (snd o) = (console st ++ report)%list)).
Proof.
  induction fuel as [| fuel IH]; intros rs st o H.
  - destruct rs; [| destruct H].
    destruct H as [<- | []]. repeat split; [apply adds_refl |].
    left. repeat split. intros x [].
  - destruct rs as [| x0 rs0].
    { destruct H as [<- | []]. repeat split; [apply adds_refl |].
      left. repeat split. intros x []. }
    cbn [eventLoop] in H. apply in_flat_map in H.
    destruct H as [[[pre r] post] [Hpick H]].
    apply picks_split in Hpick. rewrite Hpick. clear Hpick x0 rs0.
    unfold bindN, lift in H. cbn [flat_map] in H. rewrite app_nil_r in H.
    rewrite settle_eq in H.
    destruct (exists_on (disk st) (Path.join (pkgDir config) (fst r))) eqn:Ex.
    + destruct r as [p [| [q |] rest]]; cbn [fst snd] in *.
      * apply IH in H. destruct H as (Dk & Ad & C). repeat split; auto.
        destruct C as [(E & Ck & All) | (E & x & report & Hin & Hs & Ck)].
        -- left. repeat split; auto. intros x Hx.
           apply in_app_iff in Hx. destruct Hx as [Hx | [<- | Hx]].
           ++ apply All, in_app_iff; auto.
           ++ constructor; [now apply passes_Some | constructor].
           ++ apply All, in_app_iff; auto.
        -- right. split; auto. exists x, report. repeat split; auto.
           apply in_app_iff in Hin. apply in_app_iff.
           destruct Hin; [left | right; right]; auto.
      * apply IH in H. destruct H as (Dk & Ad & C).
        change (disk (did st (Access (Path.join (pkgDir config) q))))
          with (disk st) in *.
        change (console (did st (Access (Path.join (pkgDir config) q))))
          with (console st) in *.
        repeat split; auto.
        { eapply adds_trans; [| exact Ad]. now apply adds_did. }
        destruct C as [(E & Ck & All) | (E & x & report & Hin & Hs & Ck)].
        -- left. repeat split; auto. intros x Hx.
           apply in_app_iff in Hx. destruct Hx as [Hx | [<- | Hx]].
           ++ apply All, in_app_iff; auto.
           ++ constructor; [now apply passes_Some |].
              apply (All (q, rest)), in_app_iff. right. now left.
           ++ apply All, in_app_iff. right. now right.
        -- right. split; auto.
           apply in_app_iff in Hin. destruct Hin as [Hin | [<- | Hin]].
           ++ exists x, report. repeat split; auto. apply in_app_iff; auto.
           ++ exists (p, Some q :: rest), report. repeat split; auto.
              ** apply in_app_iff. right. now left.
              ** apply stopsWith_later; [now apply passes_Some | exact Hs].
           ++ exists x, report. repeat split; auto.
              apply in_app_iff. right. now right.
      * destruct H as [<- | []]. repeat split; [apply adds_say |].
        right. split; auto.
        exists (p, None :: rest), (pathReport config "undefined" undefinedPath).
        repeat split.
        -- apply in_app_iff. right. now left.
        -- apply stopsWith_later; [now apply passes_Some |].
           now apply stopsWith_here.
    + destruct H as [<- | []]. repeat split; [apply adds_say |].
      right. split; auto.
      exists r, (pathReport config (fst r)
                   (ENOENT (Path.join (pkgDir config) (fst r)))).
      repeat split.
      * apply in_app_iff. right. now left.
      * apply stopsWith_here. now apply failure_missing.
Qed.

(** The event loop has fuel enough: some schedule runs to an outcome. *)
Lemma eventLoop_runs config fuel : forall rs st,
  (pending rs <= fuel)%nat -> eventLoop config fuel rs st <> [].
Proof.
  induction fuel as [| fuel IH]; intros rs st Hf.
  - destruct rs as [| [p t] rs]; [discriminate |].
    unfold pending in Hf. simpl in Hf. lia.
  - destruct rs as [| r rs]; [discriminate |].
    cbn [eventLoop picks flat_map]. intros E.
    apply app_eq_nil in E. destruct E as [E _].
    unfold bindN, lift in E. cbn [flat_map] in E. rewrite app_nil_r in E.
    rewrite settle_eq in E.
    destruct (exists_on (disk st) (Path.join (pkgDir config) (fst r)));
      [| discriminate].
    destruct r as [p [| [q |] rest]]; cbn [fst snd] in *.
    + revert E. apply IH. unfold pending in *. simpl in *. lia.
    + revert E. apply IH. unfold pending in *. simpl in *. lia.
    + discriminate.
Qed.

Lemma promiseAll_outcome config ts st o :
  In o (promiseAll config ts st) ->
  disk (snd o) = disk st /\ adds (fun o => phase o = 2) st (snd o)
  /\ ((fst o = Val tt /\ console (snd o) = console st
        /\ allPass config (disk st) ts)
      \/ exitsOn config ts st o).
Proof.
  unfold promiseAll, bindN, lift. cbn [flat_map]. rewrite app_nil_r.
  destruct (startAll config ts st) as [r st1] eqn:S1.
  destruct (startAll_outcome _ _ _ _ _ S1) as (Dk & Ad & C).
  destruct C as [(rs & -> & Ck & In1 & All1) | (-> & t & report & Hin & Hs & Ck)].
  - intros H. apply eventLoop_outcome in H. destruct H as (Dk' & Ad' & C).
    rewrite Dk in *. rewrite Ck in *.
    repeat split; auto; [eapply adds_trans; eauto |].
    destruct C as [(E & Ck' & All) | (E & x & report & Hin & Hs & Ck')].
    + left. repeat split; auto. intros t Ht.
      destruct (All1 t Ht) as [-> | (x & Hx & <-)]; [constructor | auto].
    + right. split; auto. exists (task_of x), report. repeat split; auto.
  - intros [<- | []]. repeat split; auto. right. split; auto.
    exists t, report. repeat split; auto.
Qed.

Lemma promiseAll_runs config ts st : promiseAll config ts st <> [].
Proof.
  unfold promiseAll, bindN, lift. cbn [flat_map]. rewrite app_nil_r.
  destruct (startAll config ts st) as [[rs | e | c] st1]; try discriminate.
  now apply eventLoop_runs.
Qed.

(** A [Promise.all] of one call is the call awaited. *)
Lemma promiseAll_single config path st :
  promiseAll config [[path]] st = [validatePath config path st].
Proof.
  unfold promiseAll, validatePath, bindN, lift. cbn [flat_map].
  rewrite app_nil_r. destruct path as [p |].
  - unfold startAll, start, validatePath_call, bind. cbn.
    unfold bindN, lift. cbn [flat_map]. rewrite !app_nil_r.
    rewrite settle_eq. unfold bind. rewrite validatePath_settle_eq. cbn.
    destruct (exists_on (disk st) (Path.join (pkgDir config) p)); reflexivity.
  - unfold startAll, start, validatePath_call, bind.
    rewrite pathError_eq. reflexivity.
Qed.

Lemma bindN_In {A B} (m : ND A) (k : A -> ND B) st o :
  In o (bindN m k st) <->
  (exists a st1, In (Val a, st1) (m st) /\ In o (k a st1))
  \/ (exists e, In (Throw e, snd o) (m st) /\ fst o = Throw e)
  \/ (exists c, In (Exit c, snd o) (m st) /\ fst o = Exit c).
Proof.
  unfold bindN. rewrite in_flat_map. split.
  - intros [[[a | e | c] st1] [Hin H]].
    + left. eauto.
    + right; left. destruct H as [<- | []]. eauto.
    + right; right. destruct H as [<- | []]. eauto.
  - intros [(a & st1 & Hin & H) | [(e & Hin & E) | (c & Hin & E)]].
    + exists (Val a, st1). auto.
    + exists (Throw e, snd o). split; auto. left. destruct o; simpl in *. congruence.
    + exists (Exit c, snd o). split; auto. left. destruct o; simpl in *. congruence.
Qed.

Lemma find_NoDup (entries : list (string * ExportValue)) k v :
  NoDup (map fst entries) -> In (k, v) entries ->
  find (fun kv => fst kv =? k) entries = Some (k, v).
Proof.
  induction entries as [| [k' v'] entries IH]; intros ND Hin; [destruct Hin |].
  simpl. inversion ND as [| ? ? Hnot ND']; subst.
  destruct Hin as [E | Hin].
  - inversion E; subst. now rewrite String.eqb_refl.
  - destruct (k' =? k) eqn:Ek.
    + apply String.eqb_eq in Ek. subst. exfalso. apply Hnot.
      apply in_map_iff. exists (k, v). auto.
    + auto.
Qed.

(** With distinct keys, the export tasks are those of the entries. *)
Lemma keyTasks_entries pkg entries :
  exports pkg = Some entries -> NoDup (map fst entries) ->
  keyTasks pkg (map fst entries) = exportTasks entries.
Proof.
  intros E ND. unfold keyTasks, exportTasks. rewrite map_map.
  apply map_ext_in. intros [k v] Hin. unfold property. rewrite E.
  cbn [fst snd]. now rewrite (find_NoDup entries k v ND Hin).
Qed.

(** The resolver, whatever the schedule. *)
Lemma validatePackageJson_outcome config pkg st o :
  In o (validatePackageJson config pkg st) ->
  disk (snd o) = disk st /\ adds (fun o => phase o = 2) st (snd o)
  /\ (exitsOn config (entryTasks pkg) st o
      \/ (allPass config (disk st) (entryTasks pkg)
          /\ ((exports pkg = None /\ console (snd o) = console st
               /\ fst o = Throw (TypeError "Cannot convert undefined or null to object"))
              \/ exists entries, exports pkg = Some entries
                 /\ (exitsOn config (keyTasks pkg (map fst entries)) st o
                     \/ (fst o = Val tt /\ console (snd o) = console st
                         /\ allPass config (disk st)
                              (keyTasks pkg (map fst entries))))))).
Proof.
  unfold validatePackageJson. intros H. apply bindN_In in H.
  destruct H as [(a & st1 & H1 & H) | [(e & H1 & E) | (c & H1 & E)]].
  - apply promiseAll_outcome in H1. unfold exitsOn in H1. cbn [fst snd] in H1.
    destruct H1 as (Dk1 & Ad1 & [(_ & Ck1 & All1) | (Ex & _)]);
      [| discriminate].
    apply bindN_In in H. unfold lift, Object_keys in H.
    destruct (exports pkg) as [entries |] eqn:Ee.
    + destruct H as [(keys & st2 & H2 & H) | [(e & [H2 | []] & E) | (c & [H2 | []] & E)]];
        try discriminate.
      destruct H2 as [H2 | []]. inversion H2; subst keys st2. clear H2.
      apply promiseAll_outcome in H. destruct H as (Dk & Ad & C).
      unfold exitsOn, allPass in *. rewrite Dk1 in *. rewrite Ck1 in *.
      repeat split; auto; [eapply adds_trans; eauto |].
      right. split; auto. right. exists entries. split; auto.
      destruct C as [(E & Ck & All) | (E & t & report & Hin & Hs & Ck)].
      * right. auto.
      * left. split; auto. exists t, report. repeat split; auto.
    + destruct H as [(keys & st2 & [H2 | []] & H) | [(e & [H2 | []] & E) | (c & [H2 | []] & E)]];
        try discriminate.
      injection H2 as He Hst. subst e. rewrite <- Hst in *.
      repeat split; auto. right. split; [assumption |]. left.
      repeat split; auto.
  - apply promiseAll_outcome in H1. unfold exitsOn in H1. cbn [fst snd] in H1.
    destruct H1 as (_ & _ & [(Ev & _) | (Ex & _)]); discriminate.
  - apply promiseAll_outcome in H1. unfold exitsOn in H1. cbn [fst snd] in H1.
    destruct H1 as (Dk1 & Ad1 & [(Ev & _) | (Ex & t & report & Hin & Hs & Ck)]);
      [discriminate |].
    repeat split; auto. left. split; [congruence |].
    exists t, report. repeat split; auto.
Qed.

Lemma bindN_runs {A B} (m : ND A) (k : A -> ND B) st :
  m st <> [] -> (forall a st1, k a st1 <> []) -> bindN m k st <> [].
Proof.
  intros Hm Hk. unfold bindN. destruct (m st) as [| [[a | e | c] st1] l];
    [congruence | | discriminate | discriminate].
  cbn [flat_map]. intros E. apply app_eq_nil in E. destruct E as [E _].
  now apply Hk in E.
Qed.

Lemma validatePackageJson_runs config pkg st :
  validatePackageJson config pkg st <> [].
Proof.
  unfold validatePackageJson. apply bindN_runs; [apply promiseAll_runs |].
  intros _ st1. apply bindN_runs; [discriminate |].
  intros keys st2. apply promiseAll_runs.
Qed.

(** ** What each phase does *)

Lemma loadManifest_footprint w config st r st1 :
  loadManifest w config st = (r, st1) ->
  st1 = did st (ReadFile (Path.join (pkgDir config) "package.json")).
Proof.
  unfold loadManifest, readFile, readAt, JSON_parse_, bind, did. simpl.
  destruct (lookup (disk st) _) as [[c | es |] |]; simpl;
    try (intros H; inversion H; reflexivity).
  destruct (JSON_parse w c) as [pkg |]; simpl;
    try (intros H; inversion H; reflexivity).
  destruct (files pkg); simpl; intros H; inversion H; reflexivity.
Qed.

Lemma loadManifest_expected w config st pkg expectedFiles st1 :
  loadManifest w config st = (Val (pkg, expectedFiles), st1) ->
  exists fs, files pkg = Some fs
    /\ expectedFiles = map (fun f => Path.join (pkgDir config) f) fs.
Proof.
  unfold loadManifest, readFile, readAt, JSON_parse_, bind. simpl.
  destruct (lookup (disk st) _) as [[c | es |] |]; simpl; try discriminate.
  destruct (JSON_parse w c) as [pkg' |]; simpl; try discriminate.
  destruct (files pkg') as [fs |] eqn:E; simpl; try discriminate.
  intros H. inversion H; subst. eauto.
Qed.

Lemma require_eq w p st :
  require_ w p st =
    (outcome (node_require w p (disk st)),
     mkState (diskAfter (node_require w p (disk st)))
       (console st ++ output (node_require w p (disk st)))%list
       (ops st ++ [Require p])%list).
Proof. reflexivity. Qed.

Lemma import_eq w p st :
  import_ w p st =
    (outcome (node_import w p (disk st)),
     mkState (diskAfter (node_import w p (disk st)))
       (console st ++ output (node_import w p (disk st)))%list
       (ops st ++ [Import p])%list).
Proof. reflexivity. Qed.

Lemma validateTypeScriptFile_eq w config p st :
  validateTypeScriptFile w config p st =
    (match (getSemanticDiagnostics w (rootDir config) p (disk st)
            ++ getSyntacticDiagnostics w (rootDir config) p (disk st))%list with
     | [] => Val tt
     | ds => Throw (Error (firecracker ++ "  " ++ formatDiagnostics ds))
     end, did st (TypeCheck p)).
Proof.
  unfold validateTypeScriptFile, bind. simpl.
  destruct (_ ++ _)%list; reflexivity.
Qed.

Lemma parsed_eq w p st :
  (content <- readFileSync p ;; JSON_parse_ w content ;; ret tt) st =
    (match lookup (disk st) p with
     | Some (File c) =>
         match JSON_parse w c with Some _ => Val tt | None => Throw SyntaxError end
     | Some (Dir _) => Throw (EISDIR p)
     | Some Special => Throw (ENXIO p)
     | None => Throw (ENOENT p)
     end, did st (ReadFileSync p)).
Proof.
  unfold bind at 1. rewrite readFileSync_eq.
  destruct (lookup (disk st) p) as [[c | es |] |]; try reflexivity.
  unfold bind, JSON_parse_. destruct (JSON_parse w c); reflexivity.
Qed.

Lemma nonblank_eq p st :
  (content <- readFileSync p ;;
   match trim content with
   | [] => throw (Error "empty file")
   | _ => ret tt
   end) st =
    (match lookup (disk st) p with
     | Some (File c) =>
         match trim c with [] => Throw (Error "empty file") | _ => Val tt end
     | Some (Dir _) => Throw (EISDIR p)
     | Some Special => Throw (ENXIO p)
     | None => Throw (ENOENT p)
     end, did st (ReadFileSync p)).
Proof.
  unfold bind at 1. rewrite readFileSync_eq.
  destruct (lookup (disk st) p) as [[c | es |] |]; try reflexivity.
  destruct (trim c); reflexivity.
Qed.

(** One check, one operation: on the file, of the validator's phase.  The
    validator itself prints nothing and does not end the process: what is
    printed is what the loaded module prints, and the process ends only when
    the loaded module ends it. *)
Lemma checkFile_footprint w config filePath st r st' :
  checkFile w config filePath st = (r, st') ->
  (exists o, ops st' = (ops st ++ [o])%list /\ phase o = 1%nat
             /\ target o = filePath)
  /\ console st'
     = (console st ++ moduleOutput w config filePath (disk st))%list
  /\ (forall c, r = Exit c ->
        exists m, loadedBy w config filePath (disk st) = Some m
                  /\ outcome m = Exit c).
Proof.
  unfold checkFile, moduleOutput, loadedBy.
  destruct (Path.extname filePath =? ".cjs");
    [| destruct (Path.extname filePath =? ".mjs");
       [destruct (esmNode config) |
        destruct (Path.extname filePath =? ".ts");
        [| destruct (Path.extname filePath =? ".json");
           [| destruct (Path.extname filePath =? ".map")]]]];
    rewrite ?require_eq, ?import_eq, ?validateTypeScriptFile_eq, ?parsed_eq,
      ?nonblank_eq;
    intros H; inversion H; subst; cbn [ops console disk did];
    (split; [eexists; repeat split; reflexivity |
             split; [rewrite ?app_nil_r; reflexivity |]]);
    intros c; eauto;
    repeat match goal with
           | |- context [match ?x with _ => _ end] => destruct x
           end; discriminate.
Qed.

(** With silent modules a check prints nothing and does not end the
    process. *)
Lemma checkFile_silent w config filePath st r st' :
  (forall p d, silent (node_require w p d)) ->
  (forall p d, silent (node_import w p d)) ->
  checkFile w config filePath st = (r, st') ->
  console st' = console st /\ forall c, r <> Exit c.
Proof.
  intros Sr Si C. apply checkFile_footprint in C.
  destruct C as (_ & Ck & Nx).
  assert (S : forall m, loadedBy w config filePath (disk st) = Some m ->
                        silent m).
  { unfold loadedBy. intros m.
    destruct (Path.extname filePath =? ".cjs");
      [| destruct (Path.extname filePath =? ".mjs");
         [destruct (esmNode config) |]];
      intros E; inversion E; subst; auto. }
  split.
  - rewrite Ck. unfold moduleOutput.
    destruct (loadedBy w config filePath (disk st)) as [m |];
      [| apply app_nil_r].
    destruct (S m eq_refl) as (-> & _). apply app_nil_r.
  - intros c E. destruct (Nx c E) as (m & L & X).
    destruct (S m L) as (_ & N). exact (N c X).
Qed.

(** A check whose loader leaves the disk alone leaves the disk alone. *)
Lemma checkFile_disk w config filePath st :
  (forall p d, diskAfter (node_require w p d) = d) ->
  (forall p d, diskAfter (node_import w p d) = d) ->
  disk (snd (checkFile w config filePath st)) = disk st.
Proof.
  intros Hr Hi. unfold checkFile.
  destruct (Path.extname filePath =? ".cjs");
    [| destruct (Path.extname filePath =? ".mjs");
       [destruct (esmNode config) |
        destruct (Path.extname filePath =? ".ts");
        [| destruct (Path.extname filePath =? ".json");
           [| destruct (Path.extname filePath =? ".map")]]]];
    rewrite ?require_eq, ?import_eq, ?validateTypeScriptFile_eq, ?parsed_eq,
      ?nonblank_eq; simpl; auto.
Qed.


Lemma scanTree_footprint w config expectedFiles st :
  disk (snd (scanTree w config expectedFiles st)) = disk st
  /\ adds (fun o => phase o = 3%nat) st (snd (scanTree w config expectedFiles st)).
Proof.
  unfold scanTree, bind.
  pose proof (scan_quiet config st) as (Dk & Ck & Ad).
  destruct (scan config st) as [[allFiles | e | c] st1]; simpl in *; auto.
  destruct (0 <? _)%nat; simpl; auto.
Qed.


(** ** Runs that stop at a file, at the resolver, at the scan *)

Lemma validateBuild_at_file w config st pkg pre filePath rest st2 e st3 :
  reachesFile w config st pkg pre filePath rest st2 ->
  checkFile w config filePath st2 = (Throw e, st3) ->
  validateBuild w config st = [(Exit 1, say st3 (fileReport filePath e))].
Proof.
  intros (st1 & L & V) C. rewrite validateBuild_unfold, L.
  rewrite (validateFiles_app _ _ _ _ _ _ V), validateFiles_cons, C.
  reflexivity.
Qed.

Lemma validateBuild_at_resolver w config st pkg expectedFiles st2 :
  reachesResolver w config st pkg expectedFiles st2 ->
  validateBuild w config st =
    flat_map (afterResolver w config expectedFiles)
      (validatePackageJson config pkg st2).
Proof.
  intros (st1 & L & V). now rewrite validateBuild_unfold, L, V.
Qed.

Lemma validateBuild_at_scanner w config st pkg expectedFiles st3 :
  reachesScanner w config st pkg expectedFiles st3 ->
  In (scanTree w config expectedFiles st3) (validateBuild w config st).
Proof.
  intros (st2 & R & H). rewrite (validateBuild_at_resolver _ _ _ _ _ _ R).
  apply in_flat_map. exists (Val tt, st3). split; [exact H | now left].
Qed.

(** Every run has an outcome. *)
Lemma validateBuild_runs w config st : validateBuild w config st <> [].
Proof.
  rewrite validateBuild_unfold.
  destruct (loadManifest w config st) as [[[pkg expectedFiles] | e | c] st1];
    try discriminate.
  destruct (validateFiles w config expectedFiles st1) as [[a | e | c] st2];
    try discriminate.
  pose proof (validatePackageJson_runs config pkg st2) as H.
  destruct (validatePackageJson config pkg st2) as [| [[a' | e | c] st3] l];
    [congruence | | |]; discriminate.
Qed.

Lemma first_outcome w config st :
  In (hd (Val tt, st) (validateBuild w config st)) (validateBuild w config st).
Proof.
  pose proof (validateBuild_runs w config st) as H.
  destruct (validateBuild w config st); [congruence | now left].
Qed.

Lemma stopsWith_fails config d t report :
  stopsWith config d t report -> ~ Forall (passes config d) t.
Proof.
  intros (pre & path & post & -> & _ & F) H.
  rewrite Forall_forall in H. specialize (H path).
  unfold passes in H. rewrite F in H.
  assert (X : Some report = None) by (apply H, in_app_iff; right; now left).
  discriminate.
Qed.

Lemma allPass_no_exit config ts st o :
  allPass config (disk st) ts -> ~ exitsOn config ts st o.
Proof.
  intros All (_ & t & report & Hin & Hs & _).
  exact (stopsWith_fails _ _ _ _ Hs (All t Hin)).
Qed.

(** A call with [undefined] ends the process before anything is awaited. *)
Lemma startAll_undefined config ts : forall st rest,
  In (None :: rest) ts ->
  exists st', startAll config ts st = (Exit 1, st')
    /\ disk st' = disk st
    /\ console st'
       = (console st ++ pathReport config "undefined" undefinedPath)%list.
Proof.
  induction ts as [| t ts IH]; intros st rest Hin; [destruct Hin |].
  cbn [startAll]. destruct t as [| [p |] rest'].
  - destruct Hin as [Hin | Hin]; [discriminate |].
    destruct (IH st rest Hin) as (st' & E & Dk & Ck).
    exists st'. unfold start, bind at 1 2. simpl. unfold bind. rewrite E. auto.
  - destruct Hin as [Hin | Hin]; [discriminate |].
    destruct (IH (did st (Access (Path.join (pkgDir config) p))) rest Hin)
      as (st' & E & Dk & Ck).
    exists st'. unfold start, validatePath_call, bind at 1 2 3. simpl.
    fold (did st (Access (Path.join (pkgDir config) p))).
    unfold bind. rewrite E. auto.
  - exists (say st (pathReport config "undefined" undefinedPath)).
    unfold start, validatePath_call, bind at 1 2. rewrite pathError_eq. auto.
Qed.

Lemma promiseAll_undefined config ts st rest :
  In (None :: rest) ts ->
  exists st', promiseAll config ts st = [(Exit 1, st')]
    /\ disk st' = disk st
    /\ console st'
       = (console st ++ pathReport config "undefined" undefinedPath)%list.
Proof.
  intros Hin. destruct (startAll_undefined config ts st rest Hin)
    as (st' & E & Dk & Ck).
  exists st'. unfold promiseAll, bindN, lift. cbn [flat_map]. rewrite E. auto.
Qed.

Lemma absent_entry_task pkg :
  main pkg = None \/ module pkg = None \/ types pkg = None ->
  In [None] (entryTasks pkg).
Proof.
  unfold entryTasks. intros [E | [E | E]]; rewrite E; simpl; auto.
Qed.

(** ** What [getFiles] collects *)

Lemma filesOf_fileUnder n : forall dir p,
  In p (filesOf dir n) <-> fileUnder dir n p.
Proof.
  induction n as [c | | es IH] using node_induction; intros dir p.
  - simpl. split; [intros [] | intros H; inversion H].
  - simpl. split; [intros [] | intros H; inversion H].
  - cbn [filesOf]. split.
    + intros H.
      assert (G : exists f s, In (f, s) es
                 /\ In p match s with
                         | File _ => [Path.join dir f]
                         | Dir _ => filesOf (Path.join dir f) s
                         | Special => []
                         end).
      { clear IH. induction es as [| [f s] es' IHes]; [destruct H |].
        apply in_app_iff in H. destruct H as [H | H].
        - exists f, s. split; [now left | exact H].
        - destruct (IHes H) as (f' & s' & Hin & Hp).
          exists f', s'. split; [now right | exact Hp]. }
      destruct G as (f & s & Hin & Hp).
      rewrite Forall_forall in IH. specialize (IH _ Hin). simpl in IH.
      destruct s as [c | sub |].
      * destruct Hp as [<- | []]. eapply fileHere; eauto.
      * eapply fileBelow; eauto. now apply IH.
      * destruct Hp.
    + intros H.
      assert (G : exists f s, In (f, s) es
                 /\ In p match s with
                         | File _ => [Path.join dir f]
                         | Dir _ => filesOf (Path.join dir f) s
                         | Special => []
                         end).
      { inversion H; subst.
        - exists f, (File c). split; [assumption | now left].
        - exists f, (Dir sub). split; [assumption |].
          rewrite Forall_forall in IH.
          match goal with Hin : In (f, Dir sub) es |- _ =>
            specialize (IH _ Hin) end.
          simpl in IH. now apply IH. }
      clear IH H. destruct G as (f & s & Hin & Hp).
      induction es as [| [f' s'] es' IHes]; [destruct Hin |].
      apply in_app_iff. destruct Hin as [E | Hin].
      * inversion E; subst. now left.
      * right. now apply IHes.
Qed.

Lemma getFiles_Dir dir es allFiles :
  getFiles dir (Dir es) allFiles
  = (perform (ReadDirSync dir) ;; forEach dir es allFiles).
Proof. reflexivity. Qed.

Lemma filesOf_Dir dir es : filesOf dir (Dir es) = filesEach dir es.
Proof. reflexivity. Qed.

Lemma regular_Dir es : regular (Dir es) = regularEach es.
Proof. reflexivity. Qed.

Lemma forEach_cons dir f s es' allFiles st :
  forEach dir ((f, s) :: es') allFiles st =
    let st1 := did st (StatSync (Path.join dir f)) in
    match s with
    | Dir _ =>
        bind (getFiles (Path.join dir f) s allFiles) (forEach dir es') st1
    | File _ => forEach dir es' (allFiles ++ [Path.join dir f])%list st1
    | Special => (Throw (Error ("unexpected " ++ Path.join dir f)), st1)
    end.
Proof. destruct s; reflexivity. Qed.

(** What [getFiles] returns depends on the tree only: the files of a tree of
    directories and regular files, after those already collected, and
    otherwise the error "unexpected" on an entry that is neither. *)
Lemma getFiles_outcome n : forall dir allFiles st,
  match n with
  | Dir _ =>
      (regular n = true
       /\ fst (getFiles dir n allFiles st)
          = Val (allFiles ++ filesOf dir n)%list)
      \/ (regular n = false
          /\ exists p, specialUnder dir n p
               /\ fst (getFiles dir n allFiles st)
                  = Throw (Error ("unexpected " ++ p)))
  | _ => fst (getFiles dir n allFiles st) = Throw (ENOTDIR dir)
  end.
Proof.
  induction n as [c | | es IH] using node_induction; intros dir allFiles st;
    [reflexivity | reflexivity |].
  rewrite getFiles_Dir, filesOf_Dir, regular_Dir.
  unfold bind at 1 2. cbn [perform].
  generalize (mkState (disk st) (console st) (ops st ++ [ReadDirSync dir])).
  clear st. intros st.
  assert (G : (regularEach es = true
               /\ fst (forEach dir es allFiles st)
                  = Val (allFiles ++ filesEach dir es)%list)
              \/ (regularEach es = false
                  /\ exists p,
                    ((exists f, In (f, Special) es /\ p = Path.join dir f)
                     \/ (exists f sub, In (f, Dir sub) es
                           /\ specialUnder (Path.join dir f) (Dir sub) p))
                    /\ fst (forEach dir es allFiles st)
                       = Throw (Error ("unexpected " ++ p)))).
  { revert allFiles st.
    induction IH as [| [f s] es' Hs _ IHes]; intros allFiles st.
    - left. split; [reflexivity |]. simpl. now rewrite app_nil_r.
    - rewrite forEach_cons. cbn [filesEach regularEach]. cbv zeta.
      generalize (did st (StatSync (Path.join dir f))). intros st1.
      cbn [snd] in Hs. destruct s as [c | sub |].
      + destruct (IHes (allFiles ++ [Path.join dir f])%list st1)
          as [(R & E) | (R & p & Sp & E)].
        * left. split; [exact R |]. rewrite E. now rewrite <- app_assoc.
        * right. split; [exact R |]. exists p. split; [| exact E].
          destruct Sp as [(f' & Hin & ->) | (f' & sub' & Hin & Sp)].
          -- left. exists f'. split; [now right | reflexivity].
          -- right. exists f', sub'. split; [now right | exact Sp].
      + specialize (Hs (Path.join dir f) allFiles st1).
        unfold bind.
        destruct (getFiles (Path.join dir f) (Dir sub) allFiles st1)
          as [[l | e | c] st2]; cbn [fst] in Hs; cbn beta iota.
        * destruct Hs as [(R1 & E1) | (_ & p & _ & E1)]; [| discriminate].
          injection E1 as ->.
          destruct (IHes (allFiles ++ filesOf (Path.join dir f) (Dir sub))%list st2)
            as [(R & E) | (R & p & Sp & E)].
          -- left. split; [now rewrite R1, R |].
             rewrite <- app_assoc in E. exact E.
          -- right. split; [now rewrite R1, R |].
             exists p. split; [| exact E].
             destruct Sp as [(f' & Hin & ->) | (f' & sub' & Hin & Sp)].
             ++ left. exists f'. split; [now right | reflexivity].
             ++ right. exists f', sub'. split; [now right | exact Sp].
        * destruct Hs as [(_ & E1) | (R1 & p & Sp & E1)]; [discriminate |].
          right. split; [now rewrite R1 |]. exists p. split; [| exact E1].
          right. exists f, sub. split; [now left | exact Sp].
        * destruct Hs as [(_ & E1) | (_ & p & _ & E1)]; discriminate.
      + right. split; [reflexivity |].
        exists (Path.join dir f). split; [| reflexivity].
        left. exists f. split; [now left | reflexivity]. }
  destruct G as [G | (R & p & Sp & E)]; [now left |].
  right. split; [exact R |]. exists p. split; [| exact E].
  destruct Sp as [(f & Hin & ->) | (f & sub & Hin & Sp)].
  - now apply specialHere.
  - eapply specialBelow; eauto.
Qed.

Lemma scan_at config st n :
  lookup (disk st) (pkgDir config) = Some n ->
  scan config st = getFiles (pkgDir config) n [] st.
Proof. intros L. unfold scan, bind, getDisk. now rewrite L. Qed.

(** ** Which failure the resolver reports *)

Lemma picks_complete {A} (l : list A) x :
  In x l -> exists pre post, In (pre, x, post) (picks l).
Proof.
  induction l as [| a l IH]; intros H; [destruct H |].
  destruct H as [-> | H].
  - exists [], l. now left.
  - destruct (IH H) as (pre & post & Hp). exists (a :: pre), post.
    right. apply in_map_iff. exists (pre, x, post). auto.
Qed.

(** A running task whose awaited path does not exist may be the next to
    settle. *)
Lemma eventLoop_may_report config fuel rs st r :
  In r rs ->
  exists_on (disk st) (Path.join (pkgDir config) (fst r)) = false ->
  In (Exit 1, say st (pathReport config (fst r)
                        (ENOENT (Path.join (pkgDir config) (fst r)))))
    (eventLoop config (S fuel) rs st).
Proof.
  intros Hin Miss. destruct rs as [| r0 rs0]; [destruct Hin |].
  destruct (picks_complete _ _ Hin) as (pre & post & Hp).
  cbn [eventLoop]. apply in_flat_map. exists (pre, r, post).
  split; [exact Hp |].
  unfold bindN, lift. cbn [flat_map]. rewrite app_nil_r, settle_eq, Miss.
  now left.
Qed.

Lemma pending_positive rs r : In r rs -> exists n, pending rs = S n.
Proof.
  intros H. destruct rs as [| r0 rs0]; [destruct H |].
  unfold pending. simpl. eauto.
Qed.

(** When no task is called with [undefined], every task that is not empty
    gets started. *)
Lemma startAll_starts config ts : forall st,
  (forall rest, ~ In (None :: rest) ts) ->
  exists rs st1,
    startAll config ts st = (Val rs, st1)
    /\ disk st1 = disk st /\ console st1 = console st
    /\ forall p rest, In (Some p :: rest) ts -> In (p, rest) rs.
Proof.
  induction ts as [| t ts IH]; intros st Hn.
  - exists [], st. repeat split. intros p rest [].
  - assert (Hn' : forall rest, ~ In (None :: rest) ts).
    { intros rest H. apply (Hn rest). now right. }
    cbn [startAll]. destruct t as [| [p |] rest].
    + destruct (IH st Hn') as (rs & st1 & E & Dk & Ck & All).
      exists rs, st1. unfold start, bind at 1 2. simpl. unfold bind.
      rewrite E. repeat split; auto.
      intros q rest' [H | H]; [discriminate | auto].
    + destruct (IH (did st (Access (Path.join (pkgDir config) p))) Hn')
        as (rs & st1 & E & Dk & Ck & All).
      exists ((p, rest) :: rs), st1.
      unfold start, validatePath_call, bind at 1 2 3. simpl.
      fold (did st (Access (Path.join (pkgDir config) p))).
      unfold bind. rewrite E. repeat split; auto.
      intros q rest' [H | H]; [inversion H; now left | right; auto].
    + exfalso. apply (Hn rest). now left.
Qed.

Lemma promiseAll_may_report config ts st p rest :
  (forall rest', ~ In (None :: rest') ts) ->
  In (Some p :: rest) ts ->
  exists_on (disk st) (Path.join (pkgDir config) p) = false ->
  exists st',
    In (Exit 1, st') (promiseAll config ts st)
    /\ console st'
       = (console st
          ++ pathReport config p (ENOENT (Path.join (pkgDir config) p)))%list.
Proof.
  intros Hn Hin Miss.
  destruct (startAll_starts config ts st Hn) as (rs & st1 & E & Dk & Ck & All).
  specialize (All p rest Hin).
  destruct (pending_positive rs _ All) as [n En].
  exists (say st1 (pathReport config p (ENOENT (Path.join (pkgDir config) p)))).
  split.
  - unfold promiseAll, bindN, lift. cbn [flat_map]. rewrite E, app_nil_r, En.
    apply (eventLoop_may_report config n rs st1 (p, rest) All).
    simpl. now rewrite Dk.
  - simpl. now rewrite Ck.
Qed.

Lemma afterResolver_In w config expectedFiles l o :
  In o (flat_map (afterResolver w config expectedFiles) l) ->
  exists r, In r l
    /\ ((exists st3, r = (Val tt, st3)
                     /\ o = scanTree w config expectedFiles st3)
        \/ (r = o /\ fst o <> Val tt)).
Proof.
  intros H. apply in_flat_map in H. destruct H as [[[[] | e | c] st3] [Hr H]];
    destruct H as [<- | []]; eexists; split; eauto; right; split; auto;
    discriminate.
Qed.

(** ** The loop over the declared files, check by check *)

Lemma checked_validateFiles w config l st st' :
  checked w config l st st' -> validateFiles w config l st = (Val tt, st').
Proof.
  induction 1 as [st | filePath rest st st1 st' C _ IH]; [reflexivity |].
  now rewrite validateFiles_cons, C.
Qed.




(** ** The accesses of the entry points are issued together *)




(** * The claims *)

(** ** C1: absent entry points *)

(** C1, as the code has it.  The resolver has no skip for an absent field.
    [validatePath] is called with [pkg.main], [pkg.module] and [pkg.types]
    unconditionally, and [Object.keys] with [pkg.exports].  When the run
    reaches the resolver and one of [main], [module], [types] is absent, the
    process exits with code 1 on the report of the path "undefined", under
    every schedule; when the three are given and exist and [exports] is
    absent, the TypeError of [Object.keys] is the outcome of the run, nothing
    being printed. *)
Theorem C1_absent_field_fails w config st pkg expectedFiles st2 :
  reachesResolver w config st pkg expectedFiles st2 ->
  (main pkg = None \/ module pkg = None \/ types pkg = None ->
   exists st',
     validateBuild w config st = [(Exit 1, st')]
     /\ console st'
        = (console st2 ++ pathReport config "undefined" undefinedPath)%list)
  /\ (allPass config (disk st2) (entryTasks pkg) -> exports pkg = None ->
      validateBuild w config st <> []
      /\ forall o, In o (validateBuild w config st) ->
           fst o = Throw (TypeError "Cannot convert undefined or null to object")
           /\ console (snd o) = console st2).
Proof.
  intros R. rewrite (validateBuild_at_resolver _ _ _ _ _ _ R). split.
  - intros Habs. apply absent_entry_task in Habs.
    destruct (promiseAll_undefined config _ st2 _ Habs) as (st' & E & _ & Ck).
    exists st'. split; [| exact Ck].
    unfold validatePackageJson, bindN at 1. rewrite E. reflexivity.
  - intros All Ex. split.
    + rewrite <- (validateBuild_at_resolver _ _ _ _ _ _ R).
      apply validateBuild_runs.
    + intros o H. apply in_flat_map in H. destruct H as [r [Hr H]].
      apply validatePackageJson_outcome in Hr.
      destruct Hr as (_ & _ & [X | (_ & [(_ & Ck & E) | (entries & E & _)])]).
      * exfalso. exact (allPass_no_exit _ _ _ _ All X).
      * destruct r as [[a | e | c] st3]; simpl in E; try discriminate.
        destruct H as [<- | []]. inversion E; subst. auto.
      * congruence.
Qed.

Lemma C1_absent_field_fails_witness :
  (exists st',
     validateBuild (Fixture.world Fixture.pkgWithoutMain [])
       (Fixture.config false)
       (initial (Fixture.build Fixture.pkgWithoutMain Fixture.dist))
     = [(Exit 1, st')]
     /\ console st'
        = pathReport (Fixture.config false) "undefined" undefinedPath)
  /\ (forall o,
        In o (validateBuild (Fixture.world Fixture.pkgWithoutExports [])
                (Fixture.config false)
                (initial (Fixture.build Fixture.pkgWithoutExports Fixture.dist))) ->
        fst o = Throw (TypeError "Cannot convert undefined or null to object")
        /\ console (snd o) = []).
Proof.
  pose (config := Fixture.config false).
  pose (expectedFiles :=
          map (fun f => Path.join (pkgDir config) f)
            ["core.cjs"; "core.mjs"; "core.d.ts"; "core.mjs.map"; "README.md";
             "package.json"]).
  split.
  - pose (w := Fixture.world Fixture.pkgWithoutMain []).
    pose (st := initial (Fixture.build Fixture.pkgWithoutMain Fixture.dist)).
    pose (st1 := snd (loadManifest w config st)).
    pose (st2 := snd (validateFiles w config expectedFiles st1)).
    assert (R : reachesResolver w config st Fixture.pkgWithoutMain
                  expectedFiles st2).
    { exists st1. split; vm_compute; reflexivity. }
    exact (proj1 (C1_absent_field_fails w config st Fixture.pkgWithoutMain
                    expectedFiles st2 R) (or_introl eq_refl)).
  - pose (w := Fixture.world Fixture.pkgWithoutExports []).
    pose (st := initial (Fixture.build Fixture.pkgWithoutExports Fixture.dist)).
    pose (st1 := snd (loadManifest w config st)).
    pose (st2 := snd (validateFiles w config expectedFiles st1)).
    assert (R : reachesResolver w config st Fixture.pkgWithoutExports
                  expectedFiles st2).
    { exists st1. split; vm_compute; reflexivity. }
    assert (All : allPass config (disk st2) (entryTasks Fixture.pkgWithoutExports)).
    { intros t Ht. simpl in Ht.
      repeat destruct Ht as [<- | Ht]; try destruct Ht;
        (constructor; [vm_compute; reflexivity | constructor]). }
    exact (proj2 (proj2 (C1_absent_field_fails w config st
                           Fixture.pkgWithoutExports expectedFiles st2 R)
                    All eq_refl)).
Defined.

(** C1 as the specification words it fails: a manifest without [main], all
    of whose given paths exist, does not get past the resolver. *)
Lemma C1_absent_main_counterexample :
  ~ spec_absent_is_skipped (Fixture.config false) Fixture.pkgWithoutMain
      (initial (Fixture.build Fixture.pkgWithoutMain Fixture.dist)).
Proof.
  intros H.
  assert (G : forallb
                (fun p => exists_on
                            (disk (initial (Fixture.build Fixture.pkgWithoutMain
                                              Fixture.dist)))
                            (Path.join (pkgDir (Fixture.config false)) p))
                (givenPaths Fixture.pkgWithoutMain) = true)
    by (vm_compute; reflexivity).
  specialize (H G).
  pose proof (validatePackageJson_runs (Fixture.config false)
                Fixture.pkgWithoutMain
                (initial (Fixture.build Fixture.pkgWithoutMain Fixture.dist)))
    as Hr.
  destruct (validatePackageJson _ _ _) as [| o l] eqn:E; [congruence |].
  specialize (H o (or_introl eq_refl)).
  vm_compute in E. inversion E; subst. discriminate H.
Qed.

(** ** C2: declared files that were not built *)

(** A declared file that is missing fails the run at its own check whenever
    the validator reads the file itself, that is for every extension but
    [.cjs], [.mjs] and [.ts]. *)
Lemma missing_file_read_fails w config st pkg pre filePath rest st2 :
  reachesFile w config st pkg pre filePath rest st2 ->
  delegated (Path.extname filePath) = false ->
  lookup (disk st2) filePath = None ->
  validateBuild w config st
  = [(Exit 1, say (did st2 (ReadFileSync filePath))
                (fileReport filePath (ENOENT filePath)))].
Proof.
  intros R Hd Hl. apply (validateBuild_at_file _ _ _ _ _ _ _ _ _ _ R).
  destruct (checkFile_reads w config filePath st2 Hd) as [k ->].
  apply bind_Throw. now rewrite readFileSync_eq, Hl.
Qed.

(** A module that is missing fails the run at its own check when the loader
    throws for it. *)
Lemma missing_module_load_fails w config st pkg pre filePath rest st2 e :
  reachesFile w config st pkg pre filePath rest st2 ->
  (Path.extname filePath = ".cjs"
   /\ outcome (node_require w filePath (disk st2)) = Throw e)
  \/ (Path.extname filePath = ".mjs" /\ esmNode config = true
      /\ outcome (node_import w filePath (disk st2)) = Throw e) ->
  exists st3,
    validateBuild w config st = [(Exit 1, say st3 (fileReport filePath e))].
Proof.
  intros R [(Ext & L) | (Ext & Esm & L)]; eexists;
    apply (validateBuild_at_file _ _ _ _ _ _ _ _ _ _ R);
    unfold checkFile; rewrite Ext; simpl; rewrite ?Esm.
  - rewrite require_eq, L. reflexivity.
  - rewrite import_eq, L. reflexivity.
Qed.

(** For a declaration file the validator asks the compiler only: a declared
    [.ts] file (and a [.mjs] file when [esmNode] is off) passes its check
    exactly when the compiler has no semantic and no syntactic diagnostic for
    the program of that root file, whether the file is on the disk or not. *)
Lemma declaration_check_ignores_disk w config filePath st :
  Path.extname filePath = ".ts"
  \/ (Path.extname filePath = ".mjs" /\ esmNode config = false) ->
  getSemanticDiagnostics w (rootDir config) filePath (disk st) = [] ->
  getSyntacticDiagnostics w (rootDir config) filePath (disk st) = [] ->
  checkFile w config filePath st = (Val tt, did st (TypeCheck filePath)).
Proof.
  intros [Ext | (Ext & Esm)] Sem Syn; unfold checkFile; rewrite Ext; simpl;
    rewrite ?Esm, validateTypeScriptFile_eq, Sem, Syn; reflexivity.
Qed.

Lemma validated_spec config o :
  validated config o = true ->
  fst o = Val tt
  /\ console (snd o) = [StdOut (medal ++ " validated build")]
  /\ In (ReadDirSync (pkgDir config)) (ops (snd o))
  /\ exitCode (fst o) = 0%Z.
Proof.
  unfold validated. destruct o as [[[] | e | c] st]; simpl; try discriminate.
  destruct (console st) as [| [s | v | s] [| l2 ls]]; try discriminate.
  intros H. apply andb_true_iff in H. destruct H as [Hs Hx].
  apply String.eqb_eq in Hs. subst s. repeat split.
  apply existsb_exists in Hx. destruct Hx as [x [Hin Hx]].
  destruct x; try discriminate. apply String.eqb_eq in Hx. now subst.
Qed.

(** C2, on a build that lacks a declared declaration file.  The manifest
    declares jsx-runtime.d.ts, the file is not on the disk, and the compiler
    reports no semantic or syntactic diagnostic (a root file that is not found
    is neither).  Every schedule of the run ends in success: the file check
    passes, the tree scan is reached, and the process ends with code 0. *)
Theorem C2_missing_declaration_file_passes :
  let w := Fixture.world Fixture.pkgJsx [] in
  let config := Fixture.config true in
  let d := Fixture.build Fixture.pkgJsx Fixture.dist in
  files Fixture.pkgJsx
  = Some ["core.cjs"; "core.mjs"; "core.d.ts"; "jsx-runtime.d.ts";
          "core.mjs.map"; "README.md"; "package.json"]
  /\ lookup d (Path.join (pkgDir config) "jsx-runtime.d.ts") = None
  /\ validateBuild w config (initial d) <> []
  /\ forall o, In o (validateBuild w config (initial d)) ->
       fst o = Val tt
       /\ console (snd o) = [StdOut (medal ++ " validated build")]
       /\ In (ReadDirSync (pkgDir config)) (ops (snd o))
       /\ exitCode (fst o) = 0%Z.
Proof.
  intros w config d. split; [reflexivity |].
  split; [vm_compute; reflexivity |].
  split; [apply validateBuild_runs |].
  intros o H. apply validated_spec.
  assert (All : forallb (validated config) (validateBuild w config (initial d))
                = true) by (vm_compute; reflexivity).
  rewrite forallb_forall in All. exact (All o H).
Qed.

(** ** C3: the order of the phases *)





(** ** C4: the [.mjs] case *)

(** C4.  A declared [.mjs] file is imported when [esmNode] is on: the import
    is the one operation of its check, and when the module throws at load
    time the run exits with code 1 on the report of that file and of what was
    thrown.  When [esmNode] is off the file is not loaded: its check is
    [validateTypeScriptFile], the check of a [.ts] file, whose one operation
    is the type check and which leaves the disk as it is. *)
Theorem C4_mjs_imported_or_type_checked w config filePath st :
  Path.extname filePath = ".mjs" ->
  (esmNode config = true ->
   checkFile w config filePath st = import_ w filePath st
   /\ ops (snd (checkFile w config filePath st))
      = (ops st ++ [Import filePath])%list
   /\ forall e rest,
        outcome (node_import w filePath (disk st)) = Throw e ->
        exists st',
          validateFiles w config (filePath :: rest) st
          = (Exit 1, say st' (fileReport filePath e)))
  /\ (esmNode config = false ->
      checkFile w config filePath st
      = validateTypeScriptFile w config filePath st
      /\ snd (checkFile w config filePath st) = did st (TypeCheck filePath))
  /\ (forall tsFilePath st0,
        Path.extname tsFilePath = ".ts" ->
        checkFile w config tsFilePath st0
        = validateTypeScriptFile w config tsFilePath st0).
Proof.
  intros Ext. split; [intros Esm | split; [intros Esm | intros q st0 Ets]].
  - assert (E : checkFile w config filePath st = import_ w filePath st)
      by (unfold checkFile; now rewrite Ext, Esm).
    split; [exact E |]. split.
    + rewrite E, import_eq. reflexivity.
    + intros e rest L. eexists. rewrite validateFiles_cons, E, import_eq, L.
      reflexivity.
  - assert (E : checkFile w config filePath st
                = validateTypeScriptFile w config filePath st)
      by (unfold checkFile; now rewrite Ext, Esm).
    split; [exact E |]. now rewrite E, validateTypeScriptFile_eq.
  - unfold checkFile. now rewrite Ets.
Qed.

Lemma C4_mjs_imported_or_type_checked_witness :
  ops (snd (checkFile (Fixture.world Fixture.pkg []) (Fixture.config true)
              "/repo/dist/core.mjs"
              (initial (Fixture.build Fixture.pkg Fixture.dist))))
  = [Import "/repo/dist/core.mjs"]
  /\ snd (checkFile (Fixture.world Fixture.pkg []) (Fixture.config false)
            "/repo/dist/core.mjs"
            (initial (Fixture.build Fixture.pkg Fixture.dist)))
     = did (initial (Fixture.build Fixture.pkg Fixture.dist))
         (TypeCheck "/repo/dist/core.mjs").
Proof.
  split.
  - exact (proj1 (proj2 (proj1
      (C4_mjs_imported_or_type_checked (Fixture.world Fixture.pkg [])
         (Fixture.config true) "/repo/dist/core.mjs"
         (initial (Fixture.build Fixture.pkg Fixture.dist)) eq_refl)
      eq_refl))).
  - exact (proj2 (proj1 (proj2
      (C4_mjs_imported_or_type_checked (Fixture.world Fixture.pkg [])
         (Fixture.config false) "/repo/dist/core.mjs"
         (initial (Fixture.build Fixture.pkg Fixture.dist)) eq_refl))
      eq_refl)).
Defined.

(** ** C5: conditional exports *)

Lemma exportTask_paths val path :
  In path (exportTask val) -> exists p, path = Some p.
Proof.
  destruct val as [target | import require]; simpl; intros H;
    repeat destruct H as [<- | H]; eauto; destruct H.
Qed.

Lemma in_exportTasks entries key val :
  In (key, val) entries -> In (exportTask val) (exportTasks entries).
Proof.
  intros H. unfold exportTasks. apply in_map_iff. exists (key, val). auto.
Qed.

Lemma conditions_pass config d entries key import require :
  In (key, ExportConditions import require) entries ->
  allPass config d (exportTasks entries) ->
  exists_on d (Path.join (pkgDir config) import) = true
  /\ exists_on d (Path.join (pkgDir config) require) = true.
Proof.
  intros Hin All. apply in_exportTasks in Hin. apply All in Hin. simpl in Hin.
  inversion Hin as [| ? ? Hi Hrest]; subst.
  inversion Hrest as [| ? ? Hr _]; subst.
  split; now apply passes_Some.
Qed.

(** C5.  When the run reaches the resolver and the manifest has an export
    whose value is a record, both the [import] and the [require] path of the
    record are checked: a run succeeds only if both exist under [pkgDir], and
    if one of them does not exist every schedule ends the process with code
    1.  When the [import] path is the one path of the manifest that does not
    exist, the report names the [import] path, under every schedule. *)
Theorem C5_conditional_export_paths_checked w config st pkg expectedFiles st2
  entries key import require :
  reachesResolver w config st pkg expectedFiles st2 ->
  exports pkg = Some entries ->
  NoDup (map fst entries) ->
  In (key, ExportConditions import require) entries ->
  let there p := exists_on (disk st2) (Path.join (pkgDir config) p) in
  validateBuild w config st <> []
  /\ (forall o, In o (validateBuild w config st) -> fst o = Val tt ->
        there import = true /\ there require = true)
  /\ (there import = false \/ there require = false ->
      forall o, In o (validateBuild w config st) -> fst o = Exit 1)
  /\ (there import = false ->
      allPass config (disk st2) (entryTasks pkg) ->
      (forall t p, In t (exportTasks entries) -> In (Some p) t ->
                   p <> import -> there p = true) ->
      forall o, In o (validateBuild w config st) ->
        fst o = Exit 1
        /\ console (snd o)
           = (console st2
              ++ pathReport config import
                   (ENOENT (Path.join (pkgDir config) import)))%list).
Proof.
  intros R Ex ND Hin there.
  split; [apply validateBuild_runs |].
  rewrite (validateBuild_at_resolver _ _ _ _ _ _ R).
  assert (Cases : forall r, In r (validatePackageJson config pkg st2) ->
            exitsOn config (entryTasks pkg) st2 r
            \/ (allPass config (disk st2) (entryTasks pkg)
                /\ (exitsOn config (exportTasks entries) st2 r
                    \/ (fst r = Val tt
                        /\ allPass config (disk st2) (exportTasks entries))))).
  { intros r Hr. apply validatePackageJson_outcome in Hr.
    destruct Hr as (_ & _ & [X | (All & [(E & _) | (entries' & E & C)])]);
      [now left | congruence |].
    rewrite Ex in E. inversion E; subst entries'.
    rewrite (keyTasks_entries _ _ Ex ND) in C. right. split; [exact All |].
    destruct C as [C | (C1 & _ & C2)]; auto. }
  split; [| split].
  - intros o H Hv. apply afterResolver_In in H.
    destruct H as (r & Hr & [(st3 & -> & _) | (-> & Hn)]); [| contradiction].
    destruct (Cases _ Hr) as [(X & _) | (_ & [(X & _) | (_ & All)])];
      try discriminate.
    exact (conditions_pass _ _ _ _ _ _ Hin All).
  - intros Miss o H. apply afterResolver_In in H.
    destruct H as (r & Hr & H).
    destruct (Cases _ Hr) as [(X & _) | (_ & [(X & _) | (Hv & All)])].
    + destruct H as [(st3 & -> & _) | (-> & _)]; [discriminate | exact X].
    + destruct H as [(st3 & -> & _) | (-> & _)]; [discriminate | exact X].
    + exfalso. destruct (conditions_pass _ _ _ _ _ _ Hin All) as [Hi Hq].
      fold (there import) in Hi. fold (there require) in Hq.
      destruct Miss; congruence.
  - intros Miss AllE Others o H. apply afterResolver_In in H.
    destruct H as (r & Hr & H).
    destruct (Cases _ Hr) as [X | (_ & [X | (Hv & All)])].
    + exfalso. exact (allPass_no_exit _ _ _ _ AllE X).
    + destruct X as (X & t & report & Ht & Hs & Ck).
      destruct H as [(st3 & -> & _) | (-> & _)]; [discriminate |].
      split; [exact X |]. rewrite Ck. f_equal.
      destruct Hs as (pre & path & post & Et & _ & F).
      assert (Hp : In path t) by (rewrite Et; apply in_app_iff; right; now left).
      unfold exportTasks in Ht. apply in_map_iff in Ht.
      destruct Ht as [[k v] [Ev Hkv]]. simpl in Ev.
      assert (Hp' := Hp). rewrite <- Ev in Hp'.
      apply exportTask_paths in Hp'. destruct Hp' as [p ->].
      destruct (String.eqb_spec p import) as [-> | Ne].
      * rewrite failure_missing in F by exact Miss. congruence.
      * assert (T : there p = true).
        { apply (Others t p); auto. unfold exportTasks. apply in_map_iff.
          exists (k, v). auto. }
        unfold failure in F. unfold there in T. rewrite T in F. discriminate.
    + exfalso. destruct (conditions_pass _ _ _ _ _ _ Hin All) as [Hi _].
      fold (there import) in Hi. congruence.
Qed.

Lemma C5_conditional_export_paths_checked_witness :
  validateBuild (Fixture.world Fixture.pkgSub []) (Fixture.config false)
    (initial (Fixture.build Fixture.pkgSub Fixture.distSub)) <> []
  /\ forall o,
       In o (validateBuild (Fixture.world Fixture.pkgSub [])
               (Fixture.config false)
               (initial (Fixture.build Fixture.pkgSub Fixture.distSub))) ->
       fst o = Exit 1
       /\ console (snd o)
          = pathReport (Fixture.config false) "./sub.mjs"
              (ENOENT "/repo/dist/sub.mjs").
Proof.
  pose (w := Fixture.world Fixture.pkgSub []).
  pose (config := Fixture.config false).
  pose (st := initial (Fixture.build Fixture.pkgSub Fixture.distSub)).
  pose (st1 := snd (loadManifest w config st)).
  pose (expectedFiles :=
          map (fun f => Path.join (pkgDir config) f)
            ["core.cjs"; "core.d.ts"; "sub.cjs"; "package.json"]).
  pose (st2 := snd (validateFiles w config expectedFiles st1)).
  assert (R : reachesResolver w config st Fixture.pkgSub expectedFiles st2).
  { exists st1. split; vm_compute; reflexivity. }
  assert (ND : NoDup (map fst [("./sub", ExportConditions "./sub.mjs" "./sub.cjs")])).
  { simpl. constructor; [intros [] | constructor]. }
  assert (All : allPass config (disk st2) (entryTasks Fixture.pkgSub)).
  { intros t Ht. simpl in Ht.
    repeat destruct Ht as [<- | Ht]; try destruct Ht;
      (constructor; [vm_compute; reflexivity | constructor]). }
  assert (Others : forall t p,
             In t (exportTasks [("./sub", ExportConditions "./sub.mjs" "./sub.cjs")]) ->
             In (Some p) t -> p <> "./sub.mjs" ->
             exists_on (disk st2) (Path.join (pkgDir config) p) = true).
  { intros t p Ht Hp Ne. simpl in Ht. destruct Ht as [<- | []].
    simpl in Hp. destruct Hp as [E | [E | []]]; inversion E; subst.
    - congruence.
    - vm_compute. reflexivity. }
  pose proof (C5_conditional_export_paths_checked w config st Fixture.pkgSub
                expectedFiles st2 _ "./sub" "./sub.mjs" "./sub.cjs"
                R eq_refl ND (or_introl eq_refl)) as (Runs & _ & _ & Named).
  split; [exact Runs |].
  exact (Named eq_refl All Others).
Defined.

(** ** C6: the tree scan *)

(** C6.  When the run reaches the tree scan and the scan lists [allFiles]:
    [pkgDir] is a directory of directories and regular files, the listed
    files are exactly the regular files below it, at any depth, and the
    expected files are the entries of [files] joined to [pkgDir]; so the
    unexpected files are exactly the regular files below [pkgDir] that are
    not declared.  Nothing is printed while scanning.  If there are
    unexpected files the run prints one message, in which every one of them
    occurs, and exits with code 1; if there is none it prints its line of
    success and returns, and the process ends with code 0. *)
Theorem C6_unexpected_files_reported_together w config st pkg expectedFiles
  st3 allFiles st4 :
  reachesScanner w config st pkg expectedFiles st3 ->
  scan config st3 = (Val allFiles, st4) ->
  let unexpectedFiles :=
    filter (fun f => negb (includes expectedFiles f)) allFiles in
  (exists es fs,
     lookup (disk st3) (pkgDir config) = Some (Dir es)
     /\ regular (Dir es) = true
     /\ files pkg = Some fs
     /\ expectedFiles = map (fun f => Path.join (pkgDir config) f) fs
     /\ (forall p, In p allFiles <-> fileUnder (pkgDir config) (Dir es) p)
     /\ (forall f, In f unexpectedFiles <->
                   fileUnder (pkgDir config) (Dir es) f
                   /\ ~ In f (map (fun g => Path.join (pkgDir config) g) fs)))
  /\ (forall f, In f unexpectedFiles <-> In f allFiles /\ ~ In f expectedFiles)
  /\ console st4 = console st3
  /\ (unexpectedFiles <> [] ->
      In (Exit 1, say st4 [StdErr (unexpectedMessage w unexpectedFiles)])
        (validateBuild w config st)
      /\ (forall f, In f unexpectedFiles ->
                    occurs f (unexpectedMessage w unexpectedFiles))
      /\ exitCode (@Exit unit 1) <> 0%Z)
  /\ (unexpectedFiles = [] ->
      In (Val tt, say st4 [StdOut (medal ++ " validated build")])
        (validateBuild w config st)
      /\ exitCode (Val tt) = 0%Z).
Proof.
  intros R S unexpectedFiles.
  pose proof (validateBuild_at_scanner _ _ _ _ _ _ R) as H.
  rewrite (scanTree_outcome w config expectedFiles st3 allFiles st4 S) in H.
  fold unexpectedFiles in H.
  split.
  { destruct R as (st2 & (st1 & L & _) & _).
    destruct (loadManifest_expected _ _ _ _ _ _ L) as (fs & F & Ee).
    destruct (lookup (disk st3) (pkgDir config)) as [n |] eqn:Lk.
    - rewrite (scan_at _ _ _ Lk) in S.
      pose proof (getFiles_outcome n (pkgDir config) [] st3) as O.
      rewrite S in O. cbn [fst] in O.
      destruct n as [c | es |]; try discriminate.
      destruct O as [(Rg & E) | (_ & p & _ & E)]; [| discriminate].
      injection E as E.
      change (allFiles = filesOf (pkgDir config) (Dir es)) in E.
      assert (All : forall p, In p allFiles
                              <-> fileUnder (pkgDir config) (Dir es) p)
        by (intros p; rewrite E; apply filesOf_fileUnder).
      exists es, fs.
      split; [reflexivity |]. split; [exact Rg |]. split; [exact F |].
      split; [exact Ee |]. split; [exact All |].
      intros f. unfold unexpectedFiles.
      rewrite unexpected_difference, All, Ee. reflexivity.
    - unfold scan, bind, getDisk in S. cbn beta iota in S. rewrite Lk in S.
      discriminate. }
  split; [apply unexpected_difference |].
  split.
  { pose proof (scan_quiet config st3) as (_ & Ck & _). now rewrite S in Ck. }
  split.
  - intros Hne. destruct unexpectedFiles as [| f l] eqn:E; [congruence |].
    repeat split; auto.
    + intros g Hg. now apply unexpectedMessage_lists.
    + discriminate.
  - intros He. rewrite He in H. auto.
Qed.

Lemma C6_unexpected_files_reported_together_witness :
  exists st4,
    In (Exit 1,
        say st4
          [StdErr (unexpectedMessage (Fixture.world Fixture.pkg [])
                     ["/repo/dist/tmp/chunk.js"; "/repo/dist/core.js"])])
      (validateBuild (Fixture.world Fixture.pkg []) (Fixture.config true)
         (initial (Fixture.build Fixture.pkg Fixture.distWithStray))).
Proof.
  pose (w := Fixture.world Fixture.pkg []).
  pose (config := Fixture.config true).
  pose (st := initial (Fixture.build Fixture.pkg Fixture.distWithStray)).
  pose (st1 := snd (loadManifest w config st)).
  pose (expectedFiles :=
          map (fun f => Path.join (pkgDir config) f)
            ["core.cjs"; "core.mjs"; "core.d.ts"; "core.mjs.map"; "README.md";
             "package.json"]).
  pose (st2 := snd (validateFiles w config expectedFiles st1)).
  pose (st3 := snd (hd (Val tt, st2) (validatePackageJson config Fixture.pkg st2))).
  pose (allFiles :=
          map (fun f => Path.join (pkgDir config) f)
            ["package.json"; "core.cjs"; "core.mjs"; "core.d.ts";
             "core.mjs.map"; "README.md"; "tmp/chunk.js"; "core.js"]).
  pose (st4 := snd (scan config st3)).
  assert (R : reachesScanner w config st Fixture.pkg expectedFiles st3).
  { exists st2. split.
    - exists st1. split; vm_compute; reflexivity.
    - vm_compute. left. reflexivity. }
  assert (S : scan config st3 = (Val allFiles, st4))
    by (vm_compute; reflexivity).
  exists st4.
  refine (proj1 (proj1 (proj2 (proj2 (proj2
    (C6_unexpected_files_reported_together w config st Fixture.pkg
       expectedFiles st3 allFiles st4 R S)))) _)).
  vm_compute. discriminate.
Defined.

(** ** C7: files of no recognised extension *)

(** C7.  When the loop is at a declared file whose extension is none of
    [.cjs], [.mjs], [.ts], [.json], [.map]: if all the characters of the
    file are white space (none, in an empty file) the run exits with code 1
    on the report of the path and of the error "empty file"; if one character
    is not white space the check of the file passes. *)
Theorem C7_blank_file_fails w config st pkg pre filePath rest st2 content :
  reachesFile w config st pkg pre filePath rest st2 ->
  recognised (Path.extname filePath) = false ->
  lookup (disk st2) filePath = Some (File content) ->
  (Forall (fun c => isWhiteSpace c = true) content ->
   validateBuild w config st
   = [(Exit 1, say (did st2 (ReadFileSync filePath))
                 (fileReport filePath (Error "empty file")))])
  /\ (Exists (fun c => isWhiteSpace c = false) content ->
      checkFile w config filePath st2
      = (Val tt, did st2 (ReadFileSync filePath))).
Proof.
  intros R Ext L. rewrite (checkFile_default w config filePath Ext).
  split; intros H.
  - apply (validateBuild_at_file _ _ _ _ _ _ _ _ _ _ R).
    rewrite (checkFile_default w config filePath Ext), nonblank_eq, L.
    apply trim_nil in H. now rewrite H.
  - rewrite nonblank_eq, L. apply trim_not_nil in H.
    destruct (trim content); [congruence | reflexivity].
Qed.

Lemma C7_blank_file_fails_witness :
  (exists st',
     validateBuild (Fixture.world Fixture.pkgNotes []) (Fixture.config false)
       (initial (Fixture.build Fixture.pkgNotes (Fixture.distNotes "   ")))
     = [(Exit 1, say st' (fileReport "/repo/dist/notes.xyz"
                            (Error "empty file")))])
  /\ fst (checkFile (Fixture.world Fixture.pkgNotes []) (Fixture.config false)
            "/repo/dist/notes.xyz"
            (snd (validateFiles (Fixture.world Fixture.pkgNotes [])
                    (Fixture.config false) ["/repo/dist/core.cjs"]
                    (snd (loadManifest (Fixture.world Fixture.pkgNotes [])
                            (Fixture.config false)
                            (initial (Fixture.build Fixture.pkgNotes
                                        (Fixture.distNotes "ok"))))))))
     = Val tt.
Proof.
  pose (w := Fixture.world Fixture.pkgNotes []).
  pose (config := Fixture.config false).
  split.
  - pose (st := initial (Fixture.build Fixture.pkgNotes (Fixture.distNotes "   "))).
    pose (st1 := snd (loadManifest w config st)).
    pose (st2 := snd (validateFiles w config ["/repo/dist/core.cjs"] st1)).
    assert (R : reachesFile w config st Fixture.pkgNotes ["/repo/dist/core.cjs"]
                  "/repo/dist/notes.xyz" ["/repo/dist/package.json"] st2).
    { exists st1. split; vm_compute; reflexivity. }
    eexists.
    refine (proj1 (C7_blank_file_fails w config st Fixture.pkgNotes _ _ _ st2
                     (utf16 "   ") R _ _) _).
    + vm_compute. reflexivity.
    + vm_compute. reflexivity.
    + repeat constructor.
  - pose (st := initial (Fixture.build Fixture.pkgNotes (Fixture.distNotes "ok"))).
    pose (st1 := snd (loadManifest w config st)).
    pose (st2 := snd (validateFiles w config ["/repo/dist/core.cjs"] st1)).
    assert (R : reachesFile w config st Fixture.pkgNotes ["/repo/dist/core.cjs"]
                  "/repo/dist/notes.xyz" ["/repo/dist/package.json"] st2).
    { exists st1. split; vm_compute; reflexivity. }
    assert (E : checkFile w config "/repo/dist/notes.xyz" st2
                = (Val tt, did st2 (ReadFileSync "/repo/dist/notes.xyz"))).
    { refine (proj2 (C7_blank_file_fails w config st Fixture.pkgNotes _ _ _ st2
                       (utf16 "ok") R _ _) _).
      - vm_compute. reflexivity.
      - vm_compute. reflexivity.
      - constructor. vm_compute. reflexivity. }
    change (fst (checkFile w config "/repo/dist/notes.xyz" st2) = Val tt).
    now rewrite E.
Defined.

(** ** C8: the manifest *)

(** C8.  When package.json is missing, or when its text is not valid JSON,
    the error of the read, or of [JSON.parse], is the outcome of
    [validateBuild] under every schedule: it is thrown out of the function as
    it is, nothing is printed, and reading the manifest is the only
    operation of the run. *)
Theorem C8_manifest_error_propagates w config st :
  let pkgPath := Path.join (pkgDir config) "package.json" in
  (lookup (disk st) pkgPath = None ->
   validateBuild w config st
   = [(Throw (ENOENT pkgPath), did st (ReadFile pkgPath))])
  /\ (forall raw,
        lookup (disk st) pkgPath = Some (File raw) ->
        JSON_parse w raw = None ->
        validateBuild w config st
        = [(Throw SyntaxError, did st (ReadFile pkgPath))]).
Proof.
  intros pkgPath. split.
  - intros L. rewrite validateBuild_unfold.
    unfold loadManifest, readFile, readAt, bind. simpl.
    fold pkgPath. rewrite L. reflexivity.
  - intros raw L P. rewrite validateBuild_unfold.
    unfold loadManifest, readFile, readAt, JSON_parse_, bind. simpl.
    fold pkgPath. rewrite L. simpl. rewrite P. reflexivity.
Qed.

Lemma C8_manifest_error_propagates_witness :
  validateBuild (Fixture.world Fixture.pkg []) (Fixture.config true)
    (initial (Dir [("repo", Dir [("dist", Dir [("core.cjs", Fixture.code)])])]))
  = [(Throw (ENOENT "/repo/dist/package.json"),
      mkState (Dir [("repo", Dir [("dist", Dir [("core.cjs", Fixture.code)])])])
        [] [ReadFile "/repo/dist/package.json"])]
  /\ validateBuild (Fixture.world Fixture.pkg []) (Fixture.config true)
       (initial (Dir [("repo", Dir [("dist",
                   Dir [("package.json", File (utf16 "{"))])])]))
     = [(Throw SyntaxError,
         mkState (Dir [("repo", Dir [("dist",
                     Dir [("package.json", File (utf16 "{"))])])])
           [] [ReadFile "/repo/dist/package.json"])].
Proof.
  split.
  - refine (proj1 (C8_manifest_error_propagates (Fixture.world Fixture.pkg [])
                     (Fixture.config true) _) _).
    vm_compute. reflexivity.
  - refine (proj2 (C8_manifest_error_propagates (Fixture.world Fixture.pkg [])
                     (Fixture.config true) _) (utf16 "{") _ _).
    + vm_compute. reflexivity.
    + vm_compute. reflexivity.
Defined.

(** ** C9: running twice *)

Lemma validateFiles_disk w config :
  (forall p d, diskAfter (node_require w p d) = d) ->
  (forall p d, diskAfter (node_import w p d) = d) ->
  forall expectedFiles st,
    disk (snd (validateFiles w config expectedFiles st)) = disk st.
Proof.
  intros Hr Hi. induction expectedFiles as [| p rest IH]; intros st.
  - reflexivity.
  - rewrite validateFiles_cons.
    pose proof (checkFile_disk w config p st Hr Hi) as Dk.
    destruct (checkFile w config p st) as [[a | e | c] st1]; simpl in *.
    + now rewrite IH.
    + exact Dk.
    + exact Dk.
Qed.

Lemma validateBuild_disk w config st o :
  (forall p d, diskAfter (node_require w p d) = d) ->
  (forall p d, diskAfter (node_import w p d) = d) ->
  In o (validateBuild w config st) -> disk (snd o) = disk st.
Proof.
  intros Hr Hi. rewrite validateBuild_unfold.
  destruct (loadManifest w config st) as [[[pkg expectedFiles] | e | c] st1] eqn:L;
    apply loadManifest_footprint in L.
  2,3: intros [<- | []]; subst st1; reflexivity.
  pose proof (validateFiles_disk w config Hr Hi expectedFiles st1) as Dk.
  destruct (validateFiles w config expectedFiles st1) as [[a | e | c] st2];
    simpl in Dk.
  2,3: intros [<- | []]; simpl; rewrite Dk; subst st1; reflexivity.
  intros H. apply afterResolver_In in H. destruct H as (r & Hrs & H).
  apply validatePackageJson_outcome in Hrs. destruct Hrs as (Dk2 & _).
  assert (D0 : disk (snd r) = disk st)
    by (rewrite Dk2, Dk; subst st1; reflexivity).
  destruct H as [(st3 & -> & ->) | (-> & _)]; [| exact D0].
  destruct (scanTree_footprint w config expectedFiles st3) as (Dk3 & _).
  now rewrite Dk3.
Qed.

(** C9.  Apart from what the loaded modules do themselves, the validator
    leaves the disk as it found it: when loading a module changes nothing on
    the disk, the disk after a run is the disk before it, under every
    schedule.  So a second run over the directory a successful run has left
    has an outcome, and every outcome of it is success again. *)
Theorem C9_read_only_and_repeatable w config d :
  (forall p d', diskAfter (node_require w p d') = d') ->
  (forall p d', diskAfter (node_import w p d') = d') ->
  (forall o, In o (validateBuild w config (initial d)) -> disk (snd o) = d)
  /\ ((forall o, In o (validateBuild w config (initial d)) ->
                 exitCode (fst o) = 0%Z) ->
      forall o1, In o1 (validateBuild w config (initial d)) ->
        validateBuild w config (initial (disk (snd o1))) <> []
        /\ forall o2,
             In o2 (validateBuild w config (initial (disk (snd o1)))) ->
             exitCode (fst o2) = 0%Z).
Proof.
  intros Hr Hi.
  assert (RO : forall o, In o (validateBuild w config (initial d)) ->
                         disk (snd o) = d).
  { intros o H. exact (validateBuild_disk w config (initial d) o Hr Hi H). }
  split; [exact RO |].
  intros Ok o1 H1. rewrite (RO o1 H1). split.
  - apply validateBuild_runs.
  - exact Ok.
Qed.

Lemma C9_read_only_and_repeatable_witness :
  validateBuild (Fixture.world Fixture.pkg []) (Fixture.config true)
    (initial (Fixture.build Fixture.pkg Fixture.dist)) <> []
  /\ (forall o,
        In o (validateBuild (Fixture.world Fixture.pkg []) (Fixture.config true)
                (initial (Fixture.build Fixture.pkg Fixture.dist))) ->
        disk (snd o) = Fixture.build Fixture.pkg Fixture.dist)
  /\ (forall o1,
        In o1 (validateBuild (Fixture.world Fixture.pkg []) (Fixture.config true)
                 (initial (Fixture.build Fixture.pkg Fixture.dist))) ->
        forall o2,
          In o2 (validateBuild (Fixture.world Fixture.pkg [])
                   (Fixture.config true) (initial (disk (snd o1)))) ->
          exitCode (fst o2) = 0%Z).
Proof.
  pose (w := Fixture.world Fixture.pkg []).
  pose (config := Fixture.config true).
  pose (d := Fixture.build Fixture.pkg Fixture.dist).
  destruct (C9_read_only_and_repeatable w config d
              (fun p d' => eq_refl) (fun p d' => eq_refl)) as (RO & Again).
  assert (Ok : forall o, In o (validateBuild w config (initial d)) ->
                         exitCode (fst o) = 0%Z).
  { assert (All : forallb (validated config) (validateBuild w config (initial d))
                  = true) by (vm_compute; reflexivity).
    rewrite forallb_forall in All. intros o H.
    exact (proj2 (proj2 (proj2 (validated_spec config o (All o H))))). }
  split; [apply validateBuild_runs |]. split; [exact RO |].
  intros o1 H1. exact (proj2 (Again Ok o1 H1)).
Defined.

(** ** C10: declared directories *)

(** C10, as the code has it.  When the loop is at a declared path that is a
    directory and whose extension is none of [.cjs], [.mjs], [.ts], the
    validator reads the path, the read throws EISDIR, and the handler of
    the loop prints the path and the error and ends the process with code
    1.  For [.cjs], [.mjs] and [.ts] the validator does not read the path:
    the outcome is that of the loader or of the compiler. *)
Theorem C10_declared_directory_read_fails w config st pkg pre filePath rest
  st2 es :
  reachesFile w config st pkg pre filePath rest st2 ->
  delegated (Path.extname filePath) = false ->
  lookup (disk st2) filePath = Some (Dir es) ->
  validateBuild w config st
  = [(Exit 1, say (did st2 (ReadFileSync filePath))
                (fileReport filePath (EISDIR filePath)))].
Proof.
  intros R Hd Hl. apply (validateBuild_at_file _ _ _ _ _ _ _ _ _ _ R).
  destruct (checkFile_reads w config filePath st2 Hd) as [k ->].
  apply bind_Throw. now rewrite readFileSync_eq, Hl.
Qed.

Lemma C10_declared_directory_read_fails_witness :
  exists st',
    validateBuild (Fixture.world Fixture.pkgAssets []) (Fixture.config false)
      (initial (Fixture.build Fixture.pkgAssets Fixture.distAssets))
    = [(Exit 1, say st' (fileReport "/repo/dist/assets"
                           (EISDIR "/repo/dist/assets")))].
Proof.
  pose (w := Fixture.world Fixture.pkgAssets []).
  pose (config := Fixture.config false).
  pose (st := initial (Fixture.build Fixture.pkgAssets Fixture.distAssets)).
  pose (st1 := snd (loadManifest w config st)).
  pose (st2 := snd (validateFiles w config ["/repo/dist/core.cjs"] st1)).
  assert (R : reachesFile w config st Fixture.pkgAssets ["/repo/dist/core.cjs"]
                "/repo/dist/assets" ["/repo/dist/package.json"] st2).
  { exists st1. split; vm_compute; reflexivity. }
  eexists.
  refine (C10_declared_directory_read_fails w config st Fixture.pkgAssets _ _ _
            st2 [("logo.svg", Fixture.code)] R _ _).
  - vm_compute. reflexivity.
  - vm_compute. reflexivity.
Defined.

(** C10 as stated fails: lib.cjs is declared and is a directory, [require]
    loads it, and every schedule of the run ends in success. *)
Lemma C10_required_directory_counterexample :
  ~ spec_declared_directory_rejected
      (Fixture.world Fixture.pkgFolder []) (Fixture.config false)
      (Fixture.build Fixture.pkgFolder Fixture.distFolder).
Proof.
  intros H.
  pose (w := Fixture.world Fixture.pkgFolder []).
  pose (config := Fixture.config false).
  pose (d := Fixture.build Fixture.pkgFolder Fixture.distFolder).
  pose (expectedFiles :=
          map (fun f => Path.join (pkgDir config) f)
            ["lib.cjs"; "lib.cjs/index.js"; "package.json"]).
  specialize (H Fixture.pkgFolder expectedFiles
                (snd (loadManifest w config (initial d)))
                "/repo/dist/lib.cjs" [("index.js", Fixture.code)]).
  assert (L : loadManifest w config (initial d)
              = (Val (Fixture.pkgFolder, expectedFiles),
                 snd (loadManifest w config (initial d))))
    by (vm_compute; reflexivity).
  assert (I : In "/repo/dist/lib.cjs" expectedFiles) by (left; reflexivity).
  assert (K : lookup d "/repo/dist/lib.cjs"
              = Some (Dir [("index.js", Fixture.code)]))
    by (vm_compute; reflexivity).
  specialize (H L I K).
  assert (All : forallb (validated config) (validateBuild w config (initial d))
                = true) by (vm_compute; reflexivity).
  rewrite forallb_forall in All.
  pose proof (first_outcome w config (initial d)) as Hin.
  destruct (H _ Hin) as (c & E & _).
  destruct (validated_spec config _ (All _ Hin)) as (V & _).
  congruence.
Qed.

(** * Further properties of the code *)

(** ** The tree scan: what [getFiles] collects *)

(** X1.  Over a directory that holds directories and regular files only,
    the scan returns, and the paths it returns are exactly the paths of the
    regular files below [pkgDir], at any depth; the scan prints nothing and
    leaves the disk as it is. *)
Theorem X1_scan_lists_the_regular_files config st es :
  lookup (disk st) (pkgDir config) = Some (Dir es) ->
  regular (Dir es) = true ->
  exists allFiles st',
    scan config st = (Val allFiles, st')
    /\ (forall p, In p allFiles <-> fileUnder (pkgDir config) (Dir es) p)
    /\ disk st' = disk st /\ console st' = console st.
Proof.
  intros L R. rewrite (scan_at _ _ _ L).
  pose proof (getFiles_outcome (Dir es) (pkgDir config) [] st) as O.
  pose proof (getFiles_quiet (Dir es) (pkgDir config) [] st) as (Dk & Ck & _).
  destruct (getFiles (pkgDir config) (Dir es) [] st) as [r st'].
  cbn [fst snd] in *.
  destruct O as [(_ & E) | (F & _)].
  - exists (filesOf (pkgDir config) (Dir es)), st'. subst r.
    repeat split; auto; now apply filesOf_fileUnder.
  - congruence.
Qed.

Lemma X1_scan_lists_the_regular_files_witness :
  exists st',
    scan (Fixture.config true)
      (initial (Fixture.build Fixture.pkg Fixture.distWithStray))
    = (Val (map (fun f => Path.join "/repo/dist" f)
              ["package.json"; "core.cjs"; "core.mjs"; "core.d.ts";
               "core.mjs.map"; "README.md"; "tmp/chunk.js"; "core.js"]), st').
Proof.
  destruct (X1_scan_lists_the_regular_files (Fixture.config true)
              (initial (Fixture.build Fixture.pkg Fixture.distWithStray))
              (("package.json", File (Fixture.manifestText Fixture.pkg))
                 :: Fixture.distWithStray))
    as (allFiles & st' & E & _).
  - vm_compute. reflexivity.
  - vm_compute. reflexivity.
  - exists (snd (scan (Fixture.config true)
                   (initial (Fixture.build Fixture.pkg Fixture.distWithStray)))).
    vm_compute. reflexivity.
Defined.

(** X2.  When the run reaches the tree scan and an entry below [pkgDir] is
    neither a file nor a directory, the scan throws the error "unexpected"
    with the path of such an entry; nothing catches it: [validateBuild] is
    rejected with that error, nothing is printed and [process.exit] is not
    called, whether or not there are undeclared files. *)
Theorem X2_special_entry_rejects_the_run w config st pkg expectedFiles st3 es :
  reachesScanner w config st pkg expectedFiles st3 ->
  lookup (disk st3) (pkgDir config) = Some (Dir es) ->
  regular (Dir es) = false ->
  exists p st4,
    specialUnder (pkgDir config) (Dir es) p
    /\ In (Throw (Error ("unexpected " ++ p)), st4) (validateBuild w config st)
    /\ console st4 = console st3.
Proof.
  intros R L Rg.
  pose proof (validateBuild_at_scanner _ _ _ _ _ _ R) as H.
  pose proof (getFiles_outcome (Dir es) (pkgDir config) [] st3) as O.
  pose proof (getFiles_quiet (Dir es) (pkgDir config) [] st3) as (_ & Ck & _).
  unfold scanTree, bind in H. rewrite (scan_at _ _ _ L) in H.
  destruct (getFiles (pkgDir config) (Dir es) [] st3) as [r st4].
  cbn [fst snd] in *.
  destruct O as [(T & _) | (_ & p & Sp & E)]; [congruence |].
  subst r. exists p, st4. auto.
Qed.

Lemma X2_special_entry_rejects_the_run_witness :
  exists p st4,
    specialUnder "/repo/dist"
      (Dir (("package.json", File (Fixture.manifestText Fixture.pkg))
              :: Fixture.distWithSocket)) p
    /\ In (Throw (Error ("unexpected " ++ p)), st4)
         (validateBuild (Fixture.world Fixture.pkg []) (Fixture.config true)
            (initial (Fixture.build Fixture.pkg Fixture.distWithSocket))).
Proof.
  pose (w := Fixture.world Fixture.pkg []).
  pose (config := Fixture.config true).
  pose (st := initial (Fixture.build Fixture.pkg Fixture.distWithSocket)).
  pose (st1 := snd (loadManifest w config st)).
  pose (expectedFiles :=
          map (fun f => Path.join (pkgDir config) f)
            ["core.cjs"; "core.mjs"; "core.d.ts"; "core.mjs.map"; "README.md";
             "package.json"]).
  pose (st2 := snd (validateFiles w config expectedFiles st1)).
  pose (st3 := snd (hd (Val tt, st2) (validatePackageJson config Fixture.pkg st2))).
  assert (R : reachesScanner w config st Fixture.pkg expectedFiles st3).
  { exists st2. split.
    - exists st1. split; vm_compute; reflexivity.
    - vm_compute. left. reflexivity. }
  destruct (X2_special_entry_rejects_the_run w config st Fixture.pkg
              expectedFiles st3
              (("package.json", File (Fixture.manifestText Fixture.pkg))
                 :: Fixture.distWithSocket) R)
    as (p & st4 & Sp & H & _).
  - vm_compute. reflexivity.
  - vm_compute. reflexivity.
  - exists p, st4. split; [exact Sp | exact H].
Defined.

(** ** The file validator *)

(** X3.  When the loop is at a declared [.json] or [.map] file: if
    [JSON.parse] rejects its text the run exits with code 1 on the report of
    the path and of the SyntaxError; if [JSON.parse] accepts it the check of
    the file passes, whatever the parsed value is. *)
Theorem X3_data_file_must_parse w config st pkg pre filePath rest st2 content :
  reachesFile w config st pkg pre filePath rest st2 ->
  Path.extname filePath = ".json" \/ Path.extname filePath = ".map" ->
  lookup (disk st2) filePath = Some (File content) ->
  (JSON_parse w content = None ->
   validateBuild w config st
   = [(Exit 1, say (did st2 (ReadFileSync filePath))
                 (fileReport filePath SyntaxError))])
  /\ (JSON_parse w content <> None ->
      checkFile w config filePath st2
      = (Val tt, did st2 (ReadFileSync filePath))).
Proof.
  intros R Ext L.
  assert (E : checkFile w config filePath st2
              = (match JSON_parse w content with
                 | Some _ => Val tt
                 | None => Throw SyntaxError
                 end, did st2 (ReadFileSync filePath))).
  { unfold checkFile. destruct Ext as [Ext | Ext]; rewrite Ext; simpl;
      now rewrite parsed_eq, L. }
  split; intros P.
  - apply (validateBuild_at_file _ _ _ _ _ _ _ _ _ _ R). now rewrite E, P.
  - rewrite E. destruct (JSON_parse w content); [reflexivity | congruence].
Qed.

Lemma X3_data_file_must_parse_witness :
  exists st',
    validateBuild (Fixture.world Fixture.pkg []) (Fixture.config true)
      (initial (Fixture.build Fixture.pkg
                  [("core.cjs", Fixture.code); ("core.mjs", Fixture.code);
                   ("core.d.ts", Fixture.code);
                   ("core.mjs.map", File (utf16 "{"))]))
    = [(Exit 1, say st' (fileReport "/repo/dist/core.mjs.map" SyntaxError))].
Proof.
  pose (w := Fixture.world Fixture.pkg []).
  pose (config := Fixture.config true).
  pose (st := initial (Fixture.build Fixture.pkg
                  [("core.cjs", Fixture.code); ("core.mjs", Fixture.code);
                   ("core.d.ts", Fixture.code);
                   ("core.mjs.map", File (utf16 "{"))])).
  pose (st1 := snd (loadManifest w config st)).
  pose (pre := ["/repo/dist/core.cjs"; "/repo/dist/core.mjs";
                "/repo/dist/core.d.ts"]).
  pose (st2 := snd (validateFiles w config pre st1)).
  assert (R : reachesFile w config st Fixture.pkg pre "/repo/dist/core.mjs.map"
                ["/repo/dist/README.md"; "/repo/dist/package.json"] st2).
  { exists st1. split; vm_compute; reflexivity. }
  eexists.
  refine (proj1 (X3_data_file_must_parse w config st Fixture.pkg _ _ _ st2
                   (utf16 "{") R _ _) _).
  - right. vm_compute. reflexivity.
  - vm_compute. reflexivity.
  - vm_compute. reflexivity.
Defined.

(** X4.  The loop fails fast.  When the check of a declared file throws,
    whatever the check and whatever it throws, the run is over: the handler
    prints its three lines and the process exits with code 1.  On the
    console the three lines come right after what the module of the file
    printed while it was loaded, if the check loads one, and right after the
    console of the files that passed otherwise.  The one operation after the
    files that passed is the check that failed: no later file is checked, no
    entry point is resolved, the tree is not scanned. *)
Theorem X4_first_failing_file_ends_the_run w config st pkg pre filePath rest
  st2 e st3 :
  reachesFile w config st pkg pre filePath rest st2 ->
  checkFile w config filePath st2 = (Throw e, st3) ->
  exists st' o,
    validateBuild w config st = [(Exit 1, st')]
    /\ console st'
       = (console st2 ++ moduleOutput w config filePath (disk st2)
          ++ fileReport filePath e)%list
    /\ (loadedBy w config filePath (disk st2) = None ->
        console st' = (console st2 ++ fileReport filePath e)%list)
    /\ ops st' = (ops st2 ++ [o])%list
    /\ phase o = 1%nat /\ target o = filePath.
Proof.
  intros R C. pose proof (checkFile_footprint _ _ _ _ _ _ C)
    as ((o & Eo & Ph & Tg) & Ck & _).
  exists (say st3 (fileReport filePath e)), o.
  split; [exact (validateBuild_at_file _ _ _ _ _ _ _ _ _ _ R C) |].
  cbn [say console ops]. rewrite Ck, <- app_assoc.
  repeat split; auto.
  intros N. unfold moduleOutput. now rewrite N.
Qed.

Lemma X4_first_failing_file_ends_the_run_witness :
  exists st' o,
    validateBuild (Fixture.world Fixture.pkg ["/repo/dist/core.cjs"])
      (Fixture.config true)
      (initial (Fixture.build Fixture.pkg Fixture.dist))
    = [(Exit 1, st')]
    /\ ops st' = [ReadFile "/repo/dist/package.json"; o]
    /\ target o = "/repo/dist/core.cjs".
Proof.
  pose (w := Fixture.world Fixture.pkg ["/repo/dist/core.cjs"]).
  pose (config := Fixture.config true).
  pose (st := initial (Fixture.build Fixture.pkg Fixture.dist)).
  pose (st1 := snd (loadManifest w config st)).
  assert (R : reachesFile w config st Fixture.pkg [] "/repo/dist/core.cjs"
                ["/repo/dist/core.mjs"; "/repo/dist/core.d.ts";
                 "/repo/dist/core.mjs.map"; "/repo/dist/README.md";
                 "/repo/dist/package.json"] st1).
  { exists st1. split; vm_compute; reflexivity. }
  destruct (X4_first_failing_file_ends_the_run w config st Fixture.pkg _ _ _
              st1 (Error "thrown at load time")
              (snd (checkFile w config "/repo/dist/core.cjs" st1)) R)
    as (st' & o & E & _ & _ & Eo & _ & Tg).
  - vm_compute. reflexivity.
  - exists st', o. split; [exact E |]. split; [exact Eo | exact Tg].
Defined.

Lemma occurs_after a s t : occurs s t -> occurs s (a ++ t).
Proof.
  intros [u [v E]]. exists (a ++ u), v. subst t.
  now rewrite !string_app_assoc.
Qed.

(** X5.  When the loop is at a declared [.ts] file, or at a [.mjs] file with
    [esmNode] off, and the compiler has a semantic or a syntactic diagnostic
    for it, the run exits with code 1 on the report of the path and of one
    error, in whose message every one of the diagnostics occurs. *)
Theorem X5_diagnostics_fail_the_run w config st pkg pre filePath rest st2 :
  reachesFile w config st pkg pre filePath rest st2 ->
  Path.extname filePath = ".ts"
  \/ (Path.extname filePath = ".mjs" /\ esmNode config = false) ->
  let tsDiagnostics :=
    (getSemanticDiagnostics w (rootDir config) filePath (disk st2)
     ++ getSyntacticDiagnostics w (rootDir config) filePath (disk st2))%list in
  tsDiagnostics <> [] ->
  exists message,
    validateBuild w config st
    = [(Exit 1, say (did st2 (TypeCheck filePath))
                  (fileReport filePath (Error message)))]
    /\ forall d, In d tsDiagnostics -> occurs d message.
Proof.
  intros R Ext ds Hne.
  exists (firecracker ++ "  " ++ formatDiagnostics ds). split.
  - apply (validateBuild_at_file _ _ _ _ _ _ _ _ _ _ R).
    assert (E : checkFile w config filePath st2
                = validateTypeScriptFile w config filePath st2).
    { unfold checkFile. destruct Ext as [Ext | (Ext & Esm)]; rewrite Ext;
        simpl; rewrite ?Esm; reflexivity. }
    rewrite E, validateTypeScriptFile_eq. fold ds.
    destruct ds; [congruence | reflexivity].
  - intros d Hd. apply occurs_after, occurs_after.
    unfold formatDiagnostics. now apply occurs_concat.
Qed.

Lemma X5_diagnostics_fail_the_run_witness :
  exists message,
    validateBuild Fixture.worldWithDiagnostics (Fixture.config true)
      (initial (Fixture.build Fixture.pkg Fixture.dist))
    = [(Exit 1,
        mkState (Fixture.build Fixture.pkg Fixture.dist)
          (fileReport "/repo/dist/core.d.ts" (Error message))
          [ReadFile "/repo/dist/package.json"; Require "/repo/dist/core.cjs";
           Import "/repo/dist/core.mjs"; TypeCheck "/repo/dist/core.d.ts"])]
    /\ occurs "core.d.ts(7,1): error TS1005: '}' expected." message.
Proof.
  pose (w := Fixture.worldWithDiagnostics).
  pose (config := Fixture.config true).
  pose (st := initial (Fixture.build Fixture.pkg Fixture.dist)).
  pose (st1 := snd (loadManifest w config st)).
  pose (pre := ["/repo/dist/core.cjs"; "/repo/dist/core.mjs"]).
  pose (st2 := snd (validateFiles w config pre st1)).
  assert (R : reachesFile w config st Fixture.pkg pre "/repo/dist/core.d.ts"
                ["/repo/dist/core.mjs.map"; "/repo/dist/README.md";
                 "/repo/dist/package.json"] st2).
  { exists st1. split; vm_compute; reflexivity. }
  destruct (X5_diagnostics_fail_the_run w config st Fixture.pkg _ _ _ st2 R)
    as (message & E & Occ).
  - left. vm_compute. reflexivity.
  - vm_compute. discriminate.
  - exists message. split; [exact E |].
    apply Occ. vm_compute. right. left. reflexivity.
Defined.

(** ** The manifest *)

(** X10.  When the manifest parses but has no [files], [pkg.files.map]
    throws: the TypeError is the outcome of [validateBuild] under every
    schedule, nothing is printed and nothing is checked. *)
Theorem X10_manifest_without_files_is_rejected w config st raw pkg :
  lookup (disk st) (Path.join (pkgDir config) "package.json") = Some (File raw) ->
  JSON_parse w raw = Some pkg ->
  files pkg = None ->
  validateBuild w config st
  = [(Throw (TypeError "Cannot read properties of undefined (reading 'map')"),
      did st (ReadFile (Path.join (pkgDir config) "package.json")))].
Proof.
  intros L P F. rewrite validateBuild_unfold.
  unfold loadManifest, readFile, readAt, JSON_parse_, bind. simpl.
  rewrite L. simpl. rewrite P. simpl. rewrite F. reflexivity.
Qed.

Lemma X10_manifest_without_files_is_rejected_witness :
  validateBuild (Fixture.world Fixture.pkg []) (Fixture.config true)
    (initial (Dir [("repo", Dir [("dist",
                Dir [("package.json", File (utf16 "{}"))])])]))
  = [(Throw (TypeError "Cannot read properties of undefined (reading 'map')"),
      mkState (Dir [("repo", Dir [("dist",
                  Dir [("package.json", File (utf16 "{}"))])])])
        [] [ReadFile "/repo/dist/package.json"])].
Proof.
  refine (X10_manifest_without_files_is_rejected (Fixture.world Fixture.pkg [])
            (Fixture.config true) _ (utf16 "{}") Fixture.noProperties _ _ _).
  - vm_compute. reflexivity.
  - vm_compute. reflexivity.
  - reflexivity.
Defined.

(** ** What a run prints and how it ends *)

Lemma validateFiles_console w config :
  (forall p d, silent (node_require w p d)) ->
  (forall p d, silent (node_import w p d)) ->
  forall expectedFiles st r st',
  validateFiles w config expectedFiles st = (r, st') ->
  (r = Val tt /\ console st' = console st)
  \/ (r = Exit 1 /\ exists filePath e,
        In filePath expectedFiles
        /\ console st' = (console st ++ fileReport filePath e)%list).
Proof.
  intros Sr Si.
  induction expectedFiles as [| p rest IH]; intros st r st' H.
  - inversion H; subst. now left.
  - rewrite validateFiles_cons in H.
    destruct (checkFile w config p st) as [[[] | e | c] st1] eqn:E;
      apply (checkFile_silent w config p st _ _ Sr Si) in E;
      destruct E as (Ck & Nx).
    + apply IH in H. rewrite Ck in H.
      destruct H as [H | (Er & q & e & Hq & Cq)]; [now left |].
      right. split; [exact Er |]. exists q, e. split; [now right | exact Cq].
    + inversion H; subst. right. split; [reflexivity |].
      exists p, e. split; [now left | simpl; now rewrite Ck].
    + exfalso. now apply (Nx c).
Qed.

Lemma failure_report config d path report :
  failure config d path = Some report ->
  exists shown e, report = pathReport config shown e.
Proof.
  unfold failure. destruct path as [p |].
  - destruct (exists_on d (Path.join (pkgDir config) p)); [discriminate |].
    intros H. inversion H. eauto.
  - intros H. inversion H. eauto.
Qed.

Lemma exitsOn_console config ts st o :
  exitsOn config ts st o ->
  fst o = Exit 1
  /\ exists shown e,
       console (snd o) = (console st ++ pathReport config shown e)%list.
Proof.
  intros (E & t & report & _ & (pre & path & post & _ & _ & F) & Ck).
  split; [exact E |]. apply failure_report in F.
  destruct F as (shown & e & ->). eauto.
Qed.

Lemma scan_never_exits config st c : fst (scan config st) <> Exit c.
Proof.
  unfold scan, bind, getDisk. cbn beta iota.
  destruct (lookup (disk st) (pkgDir config)) as [n |]; [| discriminate].
  pose proof (getFiles_outcome n (pkgDir config) [] st) as O.
  destruct n; [now rewrite O | | now rewrite O].
  destruct O as [(_ & E) | (_ & p & _ & E)]; rewrite E; discriminate.
Qed.

(** X6.  When the modules of the build are silent, that is when loading
    one prints nothing and does not end the process, what a run adds to the
    console tells how it ended, under every schedule.  A run that returns has
    printed one line, the line of success, on the output stream.  A run that
    is rejected with an error has printed nothing.  A run that ends the
    process has called [process.exit] with code 1 and has printed before, on
    the error stream only. *)
Theorem X6_console_tells_the_outcome w config st o :
  (forall p d, silent (node_require w p d)) ->
  (forall p d, silent (node_import w p d)) ->
  In o (validateBuild w config st) ->
  exists added,
    console (snd o) = (console st ++ added)%list
    /\ match fst o with
       | Val _ => added = [StdOut (medal ++ " validated build")]
       | Throw _ => added = []
       | Exit c => c = 1%Z /\ added <> [] /\ Forall isError added
       end.
Proof.
  intros Sr Si. rewrite validateBuild_unfold.
  destruct (loadManifest w config st) as [[[pkg expectedFiles] | e | c] st1] eqn:L;
    pose proof (loadManifest_footprint _ _ _ _ _ L) as E1.
  - destruct (validateFiles w config expectedFiles st1) as [r2 st2] eqn:V.
    apply (validateFiles_console w config Sr Si) in V. subst st1. simpl in V.
    destruct V as [(-> & Ck2) | (-> & q & e & _ & Ck2)].
    + intros H. apply afterResolver_In in H. destruct H as (r & Hr & H).
      apply validatePackageJson_outcome in Hr.
      destruct Hr as (_ & _ & Cases).
      assert (RC : (fst r = Val tt /\ console (snd r) = console st)
                   \/ (fst r = Exit 1 /\ exists shown e,
                         console (snd r)
                         = (console st ++ pathReport config shown e)%list)
                   \/ (exists e, fst r = Throw e
                                 /\ console (snd r) = console st)).
      { rewrite <- Ck2.
        destruct Cases as [X | (_ & [(_ & Ck & Et) | (entries & _ & [X | (Ev & Ck & _)])])].
        - right; left. now apply (exitsOn_console _ _ _ _ X).
        - right; right. eauto.
        - right; left. now apply (exitsOn_console _ _ _ _ X).
        - left. auto. }
      destruct H as [(st3 & -> & ->) | (-> & Nv)].
      * destruct RC as [(_ & Ck3) | [(X & _) | (e & X & _)]];
          try discriminate.
        simpl in Ck3. unfold scanTree, bind.
        pose proof (scan_quiet config st3) as (_ & Ck4 & _).
        pose proof (scan_never_exits config st3) as Nx.
        destruct (scan config st3) as [[allFiles | e | c] st4];
          simpl in Ck4, Nx.
        -- destruct (0 <? _)%nat; simpl.
           ++ eexists. split; [rewrite Ck4, Ck3; reflexivity |].
              repeat split; [discriminate | repeat constructor].
           ++ eexists. split; [rewrite Ck4, Ck3; reflexivity | reflexivity].
        -- simpl. exists []. rewrite app_nil_r. split; congruence.
        -- exfalso. now apply (Nx c).
      * destruct RC as [(X & _) | [(X & shown & e & Ck) | (e & X & Ck)]].
        -- contradiction.
        -- rewrite X. eexists. split; [exact Ck |].
           repeat split; [discriminate | repeat constructor].
        -- rewrite X. exists []. rewrite app_nil_r. auto.
    + intros [<- | []]. simpl. eexists. split; [exact Ck2 |].
      repeat split; [discriminate | repeat constructor].
  - intros [<- | []]. subst st1. simpl. exists []. now rewrite app_nil_r.
  - exfalso. unfold loadManifest, readFile, readAt, JSON_parse_, bind in L.
    simpl in L.
    destruct (lookup (disk st) _) as [[raw | es |] |]; simpl in L;
      try discriminate.
    destruct (JSON_parse w raw) as [pkg |]; simpl in L; try discriminate.
    destruct (files pkg); discriminate.
Qed.

Lemma X6_console_tells_the_outcome_witness :
  exists added,
    console (snd (hd (Val tt, initial (Fixture.build Fixture.pkgSub Fixture.distSub))
                    (validateBuild (Fixture.world Fixture.pkgSub [])
                       (Fixture.config false)
                       (initial (Fixture.build Fixture.pkgSub Fixture.distSub)))))
    = added
    /\ added <> [] /\ Forall isError added.
Proof.
  pose (w := Fixture.world Fixture.pkgSub []).
  pose (config := Fixture.config false).
  pose (st := initial (Fixture.build Fixture.pkgSub Fixture.distSub)).
  assert (Quiet : forall p d, silent (node_require w p d)).
  { intros p d. split; [reflexivity |]. intros c. simpl.
    destruct (includes [] p); discriminate. }
  destruct (X6_console_tells_the_outcome w config st
              (hd (Val tt, st) (validateBuild w config st))
              Quiet Quiet
              (first_outcome w config st)) as (added & E & M).
  exists added. split; [exact E |].
  assert (F : fst (hd (Val tt, st) (validateBuild w config st)) = Exit 1)
    by (vm_compute; reflexivity).
  rewrite F in M. tauto.
Defined.

(** ** The schedules of the resolver *)

(** X8.  The accesses of the entry points are in flight together and the
    first to fail ends the process: when [main], [module] and [types] are
    given, for each of them that does not exist there is a schedule in which
    the run of the resolver exits with code 1 on the report of that very
    path. *)
Theorem X8_any_missing_entry_point_may_be_reported config pkg st m mo ty p :
  main pkg = Some m -> module pkg = Some mo -> types pkg = Some ty ->
  In p [m; mo; ty] ->
  exists_on (disk st) (Path.join (pkgDir config) p) = false ->
  exists st',
    In (Exit 1, st') (validatePackageJson config pkg st)
    /\ console st'
       = (console st
          ++ pathReport config p (ENOENT (Path.join (pkgDir config) p)))%list.
Proof.
  intros Em Emo Ety Hp Miss.
  destruct (promiseAll_may_report config (entryTasks pkg) st p [])
    as (st' & H & Ck); auto.
  - unfold entryTasks. rewrite Em, Emo, Ety. intros rest H.
    simpl in H. repeat destruct H as [H | H]; try discriminate. destruct H.
  - unfold entryTasks. rewrite Em, Emo, Ety. simpl in *.
    destruct Hp as [<- | [<- | [<- | []]]]; auto.
  - exists st'. split; [| exact Ck].
    unfold validatePackageJson. apply bindN_In. right; right.
    exists 1%Z. split; [exact H | reflexivity].
Qed.

Lemma X8_any_missing_entry_point_may_be_reported_witness :
  (exists st',
     In (Exit 1, st')
       (validatePackageJson (Fixture.config false) Fixture.pkgTwoMissing
          (initial (Fixture.build Fixture.pkgTwoMissing Fixture.dist)))
     /\ console st'
        = pathReport (Fixture.config false) "./a.cjs"
            (ENOENT "/repo/dist/a.cjs"))
  /\ (exists st',
        In (Exit 1, st')
          (validatePackageJson (Fixture.config false) Fixture.pkgTwoMissing
             (initial (Fixture.build Fixture.pkgTwoMissing Fixture.dist)))
        /\ console st'
           = pathReport (Fixture.config false) "./b.mjs"
               (ENOENT "/repo/dist/b.mjs")).
Proof.
  split.
  - refine (X8_any_missing_entry_point_may_be_reported (Fixture.config false)
              Fixture.pkgTwoMissing _ "./a.cjs" "./b.mjs" "./core.d.ts"
              "./a.cjs" eq_refl eq_refl eq_refl _ _).
    + left. reflexivity.
    + vm_compute. reflexivity.
  - refine (X8_any_missing_entry_point_may_be_reported (Fixture.config false)
              Fixture.pkgTwoMissing _ "./a.cjs" "./b.mjs" "./core.d.ts"
              "./b.mjs" eq_refl eq_refl eq_refl _ _).
    + right. left. reflexivity.
    + vm_compute. reflexivity.
Defined.

Lemma getFiles_frame n : forall dir allFiles st st',
  fst (getFiles dir n allFiles st) = fst (getFiles dir n allFiles st').
Proof.
  induction n as [c | | es IH] using node_induction;
    intros dir allFiles st st'; [reflexivity | reflexivity |].
  rewrite !getFiles_Dir. unfold bind at 1 2. cbn [perform].
  generalize (mkState (disk st) (console st) (ops st ++ [ReadDirSync dir])).
  generalize (mkState (disk st') (console st') (ops st' ++ [ReadDirSync dir])).
  clear st st'. intros st' st. revert allFiles st st'.
  induction IH as [| [f s] es' Hs _ IHes]; intros allFiles st st';
    [reflexivity |].
  rewrite !forEach_cons. cbv zeta.
  generalize (did st (StatSync (Path.join dir f))).
  generalize (did st' (StatSync (Path.join dir f))).
  intros st1' st1. cbn [snd] in Hs. destruct s as [c | sub |].
  - apply IHes.
  - specialize (Hs (Path.join dir f) allFiles st1 st1'). unfold bind.
    destruct (getFiles (Path.join dir f) (Dir sub) allFiles st1)
      as [[l | e | c] st2];
      destruct (getFiles (Path.join dir f) (Dir sub) allFiles st1')
        as [[l' | e' | c'] st2'];
      cbn [fst] in Hs; try discriminate; cbn beta iota.
    + injection Hs as ->. apply IHes.
    + exact Hs.
    + exact Hs.
  - reflexivity.
Qed.

Lemma scanTree_frame w config expectedFiles st st' :
  disk st = disk st' ->
  fst (scanTree w config expectedFiles st)
  = fst (scanTree w config expectedFiles st').
Proof.
  intros Dk.
  assert (S : fst (scan config st) = fst (scan config st')).
  { unfold scan, bind, getDisk. cbn beta iota. rewrite Dk.
    destruct (lookup (disk st') (pkgDir config)); [| reflexivity].
    apply getFiles_frame. }
  unfold scanTree, bind.
  destruct (scan config st) as [[l | e | c] st1];
    destruct (scan config st') as [[l' | e' | c'] st1'];
    cbn [fst] in S; try discriminate; cbn beta iota.
  - injection S as ->. destruct (0 <? _)%nat; reflexivity.
  - injection S as ->. reflexivity.
  - injection S as ->. reflexivity.
Qed.

(** Whether the resolver passes, and how it fails, is the same under every
    schedule; only the path that is reported may differ. *)
Lemma resolver_verdict config pkg st r1 r2 :
  In r1 (validatePackageJson config pkg st) ->
  In r2 (validatePackageJson config pkg st) ->
  fst r1 = fst r2.
Proof.
  intros H1 H2.
  apply validatePackageJson_outcome in H1, H2.
  destruct H1 as (_ & _ & C1), H2 as (_ & _ & C2).
  destruct C1 as [X1 | (A1 & [(N1 & _ & T1) | (e1 & E1 & [X1 | (V1 & _ & K1)])])];
    destruct C2 as [X2 | (A2 & [(N2 & _ & T2) | (e2 & E2 & [X2 | (V2 & _ & K2)])])];
    try match goal with
        | Ea : exports pkg = Some ?a, Eb : exports pkg = Some ?b |- _ =>
            rewrite Ea in Eb; injection Eb as <-
        end;
    try match goal with
        | A : allPass config ?d ?ts, X : exitsOn config ?ts st ?r |- _ =>
            exfalso; exact (allPass_no_exit _ _ _ _ A X)
        end;
    try congruence;
    destruct X1 as (X1 & _); destruct X2 as (X2 & _); congruence.
Qed.

(** X9.  The verdict of a run does not depend on the schedule of the
    concurrent accesses: any two outcomes of a run over the same state
    return, throw the same error, or exit with the same code alike. *)
Theorem X9_verdict_independent_of_schedule w config st o1 o2 :
  In o1 (validateBuild w config st) ->
  In o2 (validateBuild w config st) ->
  fst o1 = fst o2.
Proof.
  rewrite validateBuild_unfold.
  destruct (loadManifest w config st) as [[[pkg expectedFiles] | e | c] st1].
  2,3: intros [<- | []] [<- | []]; reflexivity.
  destruct (validateFiles w config expectedFiles st1) as [[[] | e | c] st2].
  2,3: intros [<- | []] [<- | []]; reflexivity.
  intros H1 H2. apply afterResolver_In in H1, H2.
  destruct H1 as (r1 & Hr1 & H1), H2 as (r2 & Hr2 & H2).
  pose proof (resolver_verdict _ _ _ _ _ Hr1 Hr2) as V.
  pose proof (validatePackageJson_outcome _ _ _ _ Hr1) as (D1 & _).
  pose proof (validatePackageJson_outcome _ _ _ _ Hr2) as (D2 & _).
  destruct H1 as [(s1 & -> & ->) | (-> & N1)];
    destruct H2 as [(s2 & -> & ->) | (-> & N2)]; cbn [fst snd] in *.
  - apply scanTree_frame. congruence.
  - congruence.
  - congruence.
  - exact V.
Qed.

Lemma X9_verdict_independent_of_schedule_witness :
  fst (hd (Val tt, initial (Fixture.build Fixture.pkgTwoMissing Fixture.dist))
         (validateBuild (Fixture.world Fixture.pkgTwoMissing [])
            (Fixture.config false)
            (initial (Fixture.build Fixture.pkgTwoMissing Fixture.dist))))
  = fst (last (validateBuild (Fixture.world Fixture.pkgTwoMissing [])
                 (Fixture.config false)
                 (initial (Fixture.build Fixture.pkgTwoMissing Fixture.dist)))
           (Val tt, initial (Fixture.build Fixture.pkgTwoMissing Fixture.dist))).
Proof.
  apply (X9_verdict_independent_of_schedule
           (Fixture.world Fixture.pkgTwoMissing []) (Fixture.config false)
           (initial (Fixture.build Fixture.pkgTwoMissing Fixture.dist))).
  - apply first_outcome.
  - vm_compute. right. right. right. left. reflexivity.
Defined.

Lemma given_in_tasks pkg m mo ty entries q :
  main pkg = Some m -> module pkg = Some mo -> types pkg = Some ty ->
  exports pkg = Some entries ->
  In q (givenPaths pkg) <->
  exists t, (In t (entryTasks pkg) \/ In t (exportTasks entries))
            /\ In (Some q) t.
Proof.
  intros Em Emo Ety Ex. unfold givenPaths, entryTasks, exportTasks.
  rewrite Em, Emo, Ety, Ex. split.
  - intros H. simpl in H.
    destruct H as [<- | [<- | [<- | H]]].
    + exists [Some m]. split; [left; simpl; auto | now left].
    + exists [Some mo]. split; [left; simpl; auto | now left].
    + exists [Some ty]. split; [left; simpl; auto | now left].
    + apply in_flat_map in H. destruct H as [[k v] [Hin Hq]].
      exists (exportTask v). split.
      * right. apply in_map_iff. exists (k, v). auto.
      * destruct v as [target | import require]; simpl in *.
        -- destruct Hq as [<- | []]. auto.
        -- destruct Hq as [<- | [<- | []]]; auto.
  - intros (t & [Ht | Ht] & Hq).
    + simpl in Ht. destruct Ht as [<- | [<- | [<- | []]]];
        destruct Hq as [Hq | []]; injection Hq as <-; simpl; auto.
    + apply in_map_iff in Ht. destruct Ht as [[k v] [<- Hin]].
      simpl. right; right; right. apply in_flat_map. exists (k, v).
      split; [exact Hin |].
      destruct v as [target | import require]; simpl in *.
      * destruct Hq as [Hq | []]. injection Hq as <-. auto.
      * destruct Hq as [Hq | [Hq | []]]; injection Hq as <-; auto.
Qed.

(** X11.  When [main], [module], [types] and [exports] are given and exactly
    one of the paths they give does not exist, the resolver ends the process
    with code 1 and its report names that path, under every schedule:
    whether the path is an entry point, a string export, or the [import] or
    the [require] path of a record. *)
Theorem X11_the_missing_path_is_named config pkg st m mo ty entries p :
  main pkg = Some m -> module pkg = Some mo -> types pkg = Some ty ->
  exports pkg = Some entries -> NoDup (map fst entries) ->
  In p (givenPaths pkg) ->
  exists_on (disk st) (Path.join (pkgDir config) p) = false ->
  (forall q, In q (givenPaths pkg) -> q <> p ->
             exists_on (disk st) (Path.join (pkgDir config) q) = true) ->
  validatePackageJson config pkg st <> []
  /\ forall o, In o (validatePackageJson config pkg st) ->
       fst o = Exit 1
       /\ console (snd o)
          = (console st
             ++ pathReport config p
                  (ENOENT (Path.join (pkgDir config) p)))%list.
Proof.
  intros Em Emo Ety Ex ND Hp Miss Others.
  split; [apply validatePackageJson_runs |].
  pose proof (given_in_tasks pkg m mo ty entries) as G.
  assert (Named : forall ts o,
            (forall t, In t ts ->
                       In t (entryTasks pkg) \/ In t (exportTasks entries)) ->
            exitsOn config ts st o ->
            fst o = Exit 1
            /\ console (snd o)
               = (console st
                  ++ pathReport config p
                       (ENOENT (Path.join (pkgDir config) p)))%list).
  { intros ts o Sub (E & t & report & Ht & (pre & path & post & Et & _ & F) & Ck).
    split; [exact E |]. rewrite Ck. f_equal.
    assert (Hpath : In path t)
      by (rewrite Et; apply in_app_iff; right; now left).
    destruct path as [q |].
    - assert (Hq : In q (givenPaths pkg)).
      { apply (G q Em Emo Ety Ex). exists t. split; [now apply Sub | exact Hpath]. }
      destruct (String.eqb_spec q p) as [-> | Ne].
      + rewrite failure_missing in F by exact Miss. congruence.
      + unfold failure in F. rewrite (Others q Hq Ne) in F. discriminate.
    - exfalso. destruct (Sub t Ht) as [Hin | Hin].
      + unfold entryTasks in Hin. rewrite Em, Emo, Ety in Hin. simpl in Hin.
        destruct Hin as [<- | [<- | [<- | []]]];
          destruct Hpath as [Hx | []]; discriminate.
      + unfold exportTasks in Hin. apply in_map_iff in Hin.
        destruct Hin as [[k v] [<- _]].
        apply exportTask_paths in Hpath. destruct Hpath. discriminate. }
  assert (Fails : forall ts,
            (forall t, (In t (entryTasks pkg) \/ In t (exportTasks entries)) ->
                       In t ts) ->
            ~ allPass config (disk st) ts).
  { intros ts Sup All.
    destruct (proj1 (G p Em Emo Ety Ex) Hp) as (t & Ht & Hq).
    specialize (All t (Sup t Ht)). rewrite Forall_forall in All.
    apply All in Hq. apply passes_Some in Hq. congruence. }
  intros o H. apply validatePackageJson_outcome in H.
  destruct H as (_ & _ & [X | (A & [(N & _) | (entries' & E & C)])]).
  - apply (Named _ _ (fun t Ht => or_introl Ht) X).
  - congruence.
  - rewrite Ex in E. injection E as <-.
    rewrite (keyTasks_entries _ _ Ex ND) in C.
    destruct C as [X | (_ & _ & K)].
    + apply (Named _ _ (fun t Ht => or_intror Ht) X).
    + exfalso. apply (Fails (entryTasks pkg ++ exportTasks entries)%list).
      * intros t Ht. apply in_app_iff. exact Ht.
      * intros t Ht. apply in_app_iff in Ht. destruct Ht; auto.
Qed.

Lemma X11_the_missing_path_is_named_witness :
  validatePackageJson (Fixture.config false) Fixture.pkgSub
    (initial (Fixture.build Fixture.pkgSub
                [("core.cjs", Fixture.code); ("core.d.ts", Fixture.code);
                 ("sub.mjs", Fixture.code)])) <> []
  /\ forall o,
       In o (validatePackageJson (Fixture.config false) Fixture.pkgSub
               (initial (Fixture.build Fixture.pkgSub
                           [("core.cjs", Fixture.code);
                            ("core.d.ts", Fixture.code);
                            ("sub.mjs", Fixture.code)]))) ->
       fst o = Exit 1
       /\ console (snd o)
          = pathReport (Fixture.config false) "./sub.cjs"
              (ENOENT "/repo/dist/sub.cjs").
Proof.
  refine (X11_the_missing_path_is_named (Fixture.config false) Fixture.pkgSub
            _ "./core.cjs" "./core.cjs" "./core.d.ts"
            [("./sub", ExportConditions "./sub.mjs" "./sub.cjs")] "./sub.cjs"
            eq_refl eq_refl eq_refl eq_refl _ _ _ _).
  - simpl. constructor; [intros [] | constructor].
  - simpl. auto 10.
  - vm_compute. reflexivity.
  - intros q Hq Ne. simpl in Hq.
    repeat destruct Hq as [<- | Hq]; try destruct Hq;
      try congruence; vm_compute; reflexivity.
Defined.

(** ** What success guarantees *)

Lemma loadManifest_Val w config st pkg expectedFiles st1 :
  loadManifest w config st = (Val (pkg, expectedFiles), st1) ->
  exists raw fs,
    lookup (disk st) (Path.join (pkgDir config) "package.json")
    = Some (File raw)
    /\ JSON_parse w raw = Some pkg /\ files pkg = Some fs
    /\ expectedFiles = map (fun f => Path.join (pkgDir config) f) fs.
Proof.
  unfold loadManifest, readFile, readAt, JSON_parse_, bind. simpl.
  destruct (lookup (disk st) _) as [[raw | es |] |]; simpl; try discriminate.
  destruct (JSON_parse w raw) as [pkg' |] eqn:P; simpl; try discriminate.
  destruct (files pkg') as [fs |] eqn:F; simpl; try discriminate.
  intros H. inversion H; subst. exists raw, fs. auto.
Qed.

(** The verdict of a check depends on the disk only. *)
Lemma checkFile_frame w config filePath st st' :
  disk st = disk st' ->
  fst (checkFile w config filePath st) = fst (checkFile w config filePath st').
Proof.
  intros Dk. unfold checkFile.
  destruct (Path.extname filePath =? ".cjs");
    [| destruct (Path.extname filePath =? ".mjs");
       [destruct (esmNode config) |
        destruct (Path.extname filePath =? ".ts");
        [| destruct (Path.extname filePath =? ".json");
           [| destruct (Path.extname filePath =? ".map")]]]];
    rewrite ?require_eq, ?import_eq, ?validateTypeScriptFile_eq, ?parsed_eq,
      ?nonblank_eq; cbn [fst]; now rewrite Dk.
Qed.

Lemma validateFiles_passed w config :
  (forall p d, diskAfter (node_require w p d) = d) ->
  (forall p d, diskAfter (node_import w p d) = d) ->
  forall expectedFiles st st',
    validateFiles w config expectedFiles st = (Val tt, st') ->
    forall filePath, In filePath expectedFiles ->
      fst (checkFile w config filePath st) = Val tt.
Proof.
  intros Hr Hi. induction expectedFiles as [| p rest IH]; intros st st' V q Hq;
    [destruct Hq |].
  rewrite validateFiles_cons in V.
  pose proof (checkFile_disk w config p st Hr Hi) as Dk.
  destruct (checkFile w config p st) as [[[] | e | c] st1] eqn:C;
    try discriminate.
  destruct Hq as [<- | Hq].
  - now rewrite C.
  - rewrite (checkFile_frame w config q st st1) by (symmetry; exact Dk).
    exact (IH st1 st' V q Hq).
Qed.

(** A scan that passes: the directory exists, holds directories and regular
    files only, and every regular file below it is expected. *)
Lemma scanTree_passed w config expectedFiles st st' :
  scanTree w config expectedFiles st = (Val tt, st') ->
  exists es,
    lookup (disk st) (pkgDir config) = Some (Dir es)
    /\ regular (Dir es) = true
    /\ forall p, fileUnder (pkgDir config) (Dir es) p -> In p expectedFiles.
Proof.
  unfold scanTree, bind. intros H.
  destruct (lookup (disk st) (pkgDir config)) as [n |] eqn:L.
  - rewrite (scan_at _ _ _ L) in H.
    pose proof (getFiles_outcome n (pkgDir config) [] st) as O.
    destruct (getFiles (pkgDir config) n [] st) as [[allFiles | e | c] st1];
      try discriminate.
    destruct n as [c | es |]; cbn [fst] in O; try discriminate.
    destruct O as [(R & E) | (_ & p & _ & E)]; [| discriminate].
    injection E as E. exists es. repeat split; auto.
    intros p Hp. apply filesOf_fileUnder in Hp.
    assert (Hin : In p allFiles) by (rewrite E; exact Hp).
    destruct (filter _ allFiles) as [| x l] eqn:F; [| discriminate].
    destruct (includes expectedFiles p) eqn:I; [now apply includes_In |].
    assert (X : In p (filter (fun f => negb (includes expectedFiles f))
                        allFiles))
      by (apply filter_In; split; [exact Hin | now rewrite I]).
    rewrite F in X. destruct X.
  - unfold scan, bind, getDisk in H. cbn beta iota in H. rewrite L in H.
    discriminate.
Qed.

(** X7.  Success is sound.  When loading a module changes nothing on the
    disk and a run over the disk [d] returns, under whatever schedule, then:
    the manifest is a file that parses and has [files] and [exports]; the
    check of every declared file passes on [d]; [main], [module] and [types]
    are given and exist, and so does every path of every export; [pkgDir]
    holds directories and regular files only, and every regular file below
    it, at any depth, is declared in [files]. *)
Theorem X7_success_means_a_valid_build w config d o :
  (forall p d', diskAfter (node_require w p d') = d') ->
  (forall p d', diskAfter (node_import w p d') = d') ->
  In o (validateBuild w config (initial d)) ->
  fst o = Val tt ->
  exists raw pkg fs entries es,
    lookup d (Path.join (pkgDir config) "package.json") = Some (File raw)
    /\ JSON_parse w raw = Some pkg
    /\ files pkg = Some fs
    /\ exports pkg = Some entries
    /\ (forall f, In f fs ->
          fst (checkFile w config (Path.join (pkgDir config) f) (initial d))
          = Val tt)
    /\ allPass config d (entryTasks pkg)
    /\ allPass config d (keyTasks pkg (map fst entries))
    /\ lookup d (pkgDir config) = Some (Dir es)
    /\ regular (Dir es) = true
    /\ forall p, fileUnder (pkgDir config) (Dir es) p ->
                 In p (map (fun f => Path.join (pkgDir config) f) fs).
Proof.
  intros Hr Hi H Ok. rewrite validateBuild_unfold in H.
  destruct (loadManifest w config (initial d))
    as [[[pkg expectedFiles] | e | c] st1] eqn:L.
  2,3: destruct H as [<- | []]; discriminate.
  pose proof (loadManifest_footprint _ _ _ _ _ L) as E1.
  apply loadManifest_Val in L. destruct L as (raw & fs & Lk & P & F & Ee).
  pose proof (validateFiles_disk w config Hr Hi expectedFiles st1) as D2.
  destruct (validateFiles w config expectedFiles st1) as [[[] | e | c] st2] eqn:V.
  2,3: destruct H as [<- | []]; discriminate.
  cbn [snd] in D2.
  assert (Dst2 : disk st2 = d) by (rewrite D2; subst st1; reflexivity).
  apply afterResolver_In in H. destruct H as (r & Hrs & H).
  destruct H as [(st3 & -> & ->) | (-> & N)]; [| contradiction].
  apply validatePackageJson_outcome in Hrs. cbn [fst snd] in Hrs.
  rewrite Dst2 in Hrs.
  destruct Hrs as (D3 & _ & [X | (A & [(_ & _ & T) | (entries & Ex & [X | (_ & _ & K)])])]).
  - destruct X as (X & _). discriminate.
  - discriminate.
  - destruct X as (X & _). discriminate.
  - destruct (scanTree w config expectedFiles st3) as [r4 st4] eqn:S.
    cbn [fst] in Ok. subst r4.
    apply scanTree_passed in S. rewrite D3 in S.
    destruct S as (es & Lp & Rg & Sub).
    exists raw, pkg, fs, entries, es. subst expectedFiles.
    repeat split; auto.
    intros f Hf.
    rewrite (checkFile_frame w config _ (initial d) st1)
      by (subst st1; reflexivity).
    apply (validateFiles_passed w config Hr Hi _ _ _ V).
    apply in_map_iff. exists f. auto.
Qed.

Lemma X7_success_means_a_valid_build_witness :
  exists raw pkg fs entries es,
    lookup (Fixture.build Fixture.pkg Fixture.dist) "/repo/dist/package.json"
    = Some (File raw)
    /\ JSON_parse (Fixture.world Fixture.pkg []) raw = Some pkg
    /\ files pkg = Some fs
    /\ exports pkg = Some entries
    /\ lookup (Fixture.build Fixture.pkg Fixture.dist) "/repo/dist"
       = Some (Dir es)
    /\ forall p, fileUnder "/repo/dist" (Dir es) p ->
                 In p (map (fun f => Path.join "/repo/dist" f) fs).
Proof.
  pose (w := Fixture.world Fixture.pkg []).
  pose (config := Fixture.config true).
  pose (d := Fixture.build Fixture.pkg Fixture.dist).
  destruct (X7_success_means_a_valid_build w config d
              (hd (Val tt, initial d) (validateBuild w config (initial d)))
              (fun p d' => eq_refl) (fun p d' => eq_refl)
              (first_outcome w config (initial d)))
    as (raw & pkg & fs & entries & es & H1 & H2 & H3 & H4 & _ & _ & _ & H8 & _ & H10).
  - vm_compute. reflexivity.
  - exists raw, pkg, fs, entries, es. repeat split; assumption.
Defined.

Lemma validateFiles_all_pass w config :
  (forall p d, diskAfter (node_require w p d) = d) ->
  (forall p d, diskAfter (node_import w p d) = d) ->
  forall expectedFiles st,
    (forall filePath, In filePath expectedFiles ->
       fst (checkFile w config filePath st) = Val tt) ->
    exists st', validateFiles w config expectedFiles st = (Val tt, st')
                /\ disk st' = disk st.
Proof.
  intros Hr Hi. induction expectedFiles as [| p rest IH]; intros st All.
  - exists st. split; reflexivity.
  - rewrite validateFiles_cons.
    pose proof (checkFile_disk w config p st Hr Hi) as Dk.
    pose proof (All p (or_introl eq_refl)) as Hp.
    destruct (checkFile w config p st) as [r st1]. cbn [fst snd] in *.
    subst r. destruct (IH st1) as (st' & V & D').
    + intros q Hq.
      rewrite (checkFile_frame w config q st1 st) by exact Dk.
      apply All. now right.
    + exists st'. split; [exact V | congruence].
Qed.

Lemma scanTree_passes w config expectedFiles st es :
  lookup (disk st) (pkgDir config) = Some (Dir es) ->
  regular (Dir es) = true ->
  (forall p, fileUnder (pkgDir config) (Dir es) p -> In p expectedFiles) ->
  fst (scanTree w config expectedFiles st) = Val tt.
Proof.
  intros L R Sub. unfold scanTree, bind. rewrite (scan_at _ _ _ L).
  pose proof (getFiles_outcome (Dir es) (pkgDir config) [] st) as O.
  destruct (getFiles (pkgDir config) (Dir es) [] st) as [r st1].
  cbn [fst] in O. destruct O as [(_ & ->) | (F & _)]; [| congruence].
  destruct (filter _ _) as [| x l] eqn:F; [reflexivity |].
  exfalso. assert (X : In x (x :: l)) by now left.
  rewrite <- F in X. apply filter_In in X. destruct X as [Hx Nx].
  apply (filesOf_fileUnder (Dir es)) in Hx. apply Sub, includes_In in Hx.
  rewrite Hx in Nx. discriminate.
Qed.

(** X12.  Success is complete: the converse of X7.  When loading a module
    changes nothing on the disk, the manifest parses and has [files] and
    [exports], the check of every declared file passes, every entry point and
    every path of every export exists, [pkgDir] holds directories and regular
    files only and each regular file below it is declared, then every
    schedule of the run returns. *)
Theorem X12_a_valid_build_validates w config d raw pkg fs entries es :
  (forall p d', diskAfter (node_require w p d') = d') ->
  (forall p d', diskAfter (node_import w p d') = d') ->
  lookup d (Path.join (pkgDir config) "package.json") = Some (File raw) ->
  JSON_parse w raw = Some pkg ->
  files pkg = Some fs ->
  exports pkg = Some entries ->
  (forall f, In f fs ->
     fst (checkFile w config (Path.join (pkgDir config) f) (initial d))
     = Val tt) ->
  allPass config d (entryTasks pkg) ->
  allPass config d (keyTasks pkg (map fst entries)) ->
  lookup d (pkgDir config) = Some (Dir es) ->
  regular (Dir es) = true ->
  (forall p, fileUnder (pkgDir config) (Dir es) p ->
             In p (map (fun f => Path.join (pkgDir config) f) fs)) ->
  validateBuild w config (initial d) <> []
  /\ forall o, In o (validateBuild w config (initial d)) -> fst o = Val tt.
Proof.
  intros Hr Hi Lk P F Ex Checks AllE AllK Lp Rg Sub.
  split; [apply validateBuild_runs |].
  rewrite validateBuild_unfold.
  assert (L : loadManifest w config (initial d)
              = (Val (pkg, map (fun f => Path.join (pkgDir config) f) fs),
                 did (initial d)
                   (ReadFile (Path.join (pkgDir config) "package.json")))).
  { unfold loadManifest, readFile, readAt, JSON_parse_, bind. simpl.
    rewrite Lk. simpl. rewrite P. simpl. rewrite F. reflexivity. }
  rewrite L.
  destruct (validateFiles_all_pass w config Hr Hi
              (map (fun f => Path.join (pkgDir config) f) fs)
              (did (initial d)
                 (ReadFile (Path.join (pkgDir config) "package.json"))))
    as (st2 & V & D2).
  { intros q Hq. apply in_map_iff in Hq. destruct Hq as (f & <- & Hf).
    rewrite (checkFile_frame w config _ _ (initial d)) by reflexivity.
    now apply Checks. }
  rewrite V. simpl in D2.
  intros o H. apply afterResolver_In in H. destruct H as (r & Hrs & H).
  apply validatePackageJson_outcome in Hrs.
  destruct Hrs as (D3 & _ & Cases). rewrite D2 in D3.
  rewrite <- D2 in AllE, AllK.
  assert (Vr : fst r = Val tt).
  { destruct Cases as [X | (_ & [(N & _) | (entries' & E & [X | (Vr & _)])])].
    - exfalso. exact (allPass_no_exit _ _ _ _ AllE X).
    - congruence.
    - rewrite Ex in E. injection E as <-.
      exfalso. exact (allPass_no_exit _ _ _ _ AllK X).
    - exact Vr. }
  destruct H as [(st3 & -> & ->) | (-> & N)]; [| contradiction].
  cbn [snd] in D3. apply (scanTree_passes w config _ st3 es); auto.
  now rewrite D3.
Qed.

Lemma X12_a_valid_build_validates_witness :
  validateBuild (Fixture.world Fixture.pkg []) (Fixture.config true)
    (initial (Fixture.build Fixture.pkg Fixture.dist)) <> []
  /\ forall o,
       In o (validateBuild (Fixture.world Fixture.pkg []) (Fixture.config true)
               (initial (Fixture.build Fixture.pkg Fixture.dist))) ->
       fst o = Val tt.
Proof.
  pose (w := Fixture.world Fixture.pkg []).
  pose (config := Fixture.config true).
  pose (d := Fixture.build Fixture.pkg Fixture.dist).
  refine (X12_a_valid_build_validates w config d
            (Fixture.manifestText Fixture.pkg) Fixture.pkg
            ["core.cjs"; "core.mjs"; "core.d.ts"; "core.mjs.map"; "README.md";
             "package.json"]
            [(".", ExportConditions "./core.mjs" "./core.cjs");
             ("./package.json", ExportPath "./package.json")]
            (("package.json", File (Fixture.manifestText Fixture.pkg))
               :: Fixture.dist)
            (fun p d' => eq_refl) (fun p d' => eq_refl) _ _ _ _ _ _ _ _ _ _).
  - vm_compute. reflexivity.
  - vm_compute. reflexivity.
  - reflexivity.
  - reflexivity.
  - intros f Hf. simpl in Hf.
    repeat destruct Hf as [<- | Hf]; try destruct Hf; vm_compute; reflexivity.
  - intros t Ht. simpl in Ht.
    repeat destruct Ht as [<- | Ht]; try destruct Ht;
      (constructor; [vm_compute; reflexivity | constructor]).
  - intros t Ht. vm_compute in Ht.
    repeat destruct Ht as [<- | Ht]; try destruct Ht;
      repeat (constructor; [vm_compute; reflexivity |]); constructor.
  - vm_compute. reflexivity.
  - vm_compute. reflexivity.
  - intros p Hp. apply filesOf_fileUnder in Hp. vm_compute in Hp.
    repeat destruct Hp as [<- | Hp]; try destruct Hp; vm_compute; auto 10.
Defined.

(** ** Paths: joining a name to a directory *)

Lemma normalizeString_normalized f l : forall acc,
  Path.normalizeString f l acc = rev (normalized f l acc).
Proof.
  induction l as [| seg rest IH]; intros acc; [reflexivity |].
  simpl. destruct ((seg =? EmptyString) || (seg =? ".")); [apply IH |].
  destruct (seg =? ".."); [| apply IH].
  destruct acc as [| top acc']; [apply IH |].
  destruct (top =? ".."); apply IH.
Qed.

Lemma normalized_app f l m : forall acc,
  normalized f (l ++ m) acc = normalized f m (normalized f l acc).
Proof.
  induction l as [| seg rest IH]; intros acc; [reflexivity |].
  simpl. destruct ((seg =? EmptyString) || (seg =? ".")); [apply IH |].
  destruct (seg =? ".."); [| apply IH].
  destruct acc as [| top acc']; [apply IH |].
  destruct (top =? ".."); apply IH.
Qed.

Lemma plain_step f seg acc :
  plain seg = true -> normalized f [seg] acc = seg :: acc.
Proof.
  unfold plain. intros H. apply negb_true_iff in H.
  apply orb_false_iff in H. destruct H as [H H2]. simpl.
  now rewrite H, H2.
Qed.

Lemma dots_normalAcc acc : dots acc = true -> normalAcc true acc = true.
Proof.
  induction acc as [| x r IH]; [reflexivity |]. simpl. intros H.
  apply andb_true_iff in H. destruct H as [Hx Hr]. now rewrite Hx, Hr.
Qed.

Lemma normalAcc_tail f x r : normalAcc f (x :: r) = true -> normalAcc f r = true.
Proof.
  simpl. destruct (x =? "..").
  - intros H. apply andb_true_iff in H. destruct H as [-> Hr].
    now apply dots_normalAcc.
  - intros H. apply andb_true_iff in H. tauto.
Qed.

(** [normalizeString] keeps its accumulator in normal form. *)
Lemma normalized_normal f l : forall acc,
  normalAcc f acc = true -> normalAcc f (normalized f l acc) = true.
Proof.
  induction l as [| seg rest IH]; intros acc N; [exact N |].
  simpl. destruct ((seg =? EmptyString) || (seg =? ".")) eqn:E1; [now apply IH |].
  destruct (seg =? "..") eqn:E2.
  - destruct acc as [| top acc'].
    + apply IH. destruct f; reflexivity.
    + destruct (top =? "..") eqn:E3.
      * apply IH. destruct f; [| exact N].
        simpl in N. rewrite E3 in N. simpl in *. now rewrite E3, N.
      * apply IH. exact (normalAcc_tail _ _ _ N).
  - apply IH. simpl. rewrite E2. unfold plain. rewrite E2.
    apply orb_false_iff in E1. destruct E1 as [-> ->]. exact N.
Qed.

(** Normalising a normal form changes nothing. *)
Lemma normalized_fixed f A : forall B,
  normalAcc f (A ++ B) = true -> normalized f (rev A) B = (A ++ B)%list.
Proof.
  induction A as [| x A' IH]; intros B N; [reflexivity |].
  simpl rev. rewrite normalized_app.
  rewrite (IH B) by exact (normalAcc_tail _ _ _ N).
  simpl in N. destruct (x =? "..") eqn:E.
  - apply String.eqb_eq in E. subst x.
    apply andb_true_iff in N. destruct N as [-> D]. simpl.
    destruct (A' ++ B)%list as [| top r]; [reflexivity |].
    simpl in D. apply andb_true_iff in D. destruct D as [-> _]. reflexivity.
  - apply andb_true_iff in N. destruct N as [P _].
    now apply plain_step.
Qed.

Lemma normalizeString_idempotent f l :
  Path.normalizeString f (Path.normalizeString f l []) []
  = Path.normalizeString f l [].
Proof.
  rewrite !normalizeString_normalized. f_equal.
  rewrite <- (app_nil_r (normalized f l [])) at 2.
  apply normalized_fixed. rewrite app_nil_r.
  now apply normalized_normal.
Qed.

Lemma split_not_nil s : Path.split s <> [].
Proof.
  destruct s as [| c r]; simpl; [discriminate |].
  destruct (Ascii.eqb c "/"); [discriminate |].
  destruct (Path.split r); discriminate.
Qed.

Lemma split_app a b :
  Path.split (a ++ "/" ++ b) = (Path.split a ++ Path.split b)%list.
Proof.
  remember ("/" ++ b) as t eqn:Et.
  induction a as [| c r IH]; [subst t; reflexivity |].
  change (String c r ++ t) with (String c (r ++ t)).
  cbn [Path.split]. rewrite IH. destruct (Ascii.eqb c "/"); [reflexivity |].
  pose proof (split_not_nil r) as N.
  destruct (Path.split r) as [| seg segs]; [congruence | reflexivity].
Qed.

Lemma split_slashFree s : slashFree s = true -> Path.split s = [s].
Proof.
  induction s as [| c r IH]; [reflexivity |]. simpl. intros H.
  apply andb_true_iff in H. destruct H as [Hc Hr].
  apply negb_true_iff in Hc. rewrite Hc, (IH Hr). reflexivity.
Qed.

Lemma split_pieces_slashFree s : Forall (fun x => slashFree x = true) (Path.split s).
Proof.
  induction s as [| c r IH]; [repeat constructor |]. simpl.
  destruct (Ascii.eqb c "/") eqn:E.
  - constructor; [reflexivity | exact IH].
  - destruct (Path.split r) as [| seg segs]; [repeat constructor; simpl; now rewrite E |].
    inversion IH; subst. constructor; [simpl; now rewrite E | assumption].
Qed.

Lemma split_concat segs :
  segs <> [] -> Forall (fun x => slashFree x = true) segs ->
  Path.split (String.concat "/" segs) = segs.
Proof.
  induction segs as [| x [| y r] IH]; intros Hne F; [congruence | |].
  - simpl. inversion F; subst. now apply split_slashFree.
  - change (String.concat "/" (x :: y :: r))
      with (x ++ "/" ++ String.concat "/" (y :: r)).
    inversion F; subst. rewrite split_app, IH by (auto; discriminate).
    now rewrite split_slashFree.
Qed.

Lemma normalized_slashFree f l : forall acc,
  Forall (fun x => slashFree x = true) l ->
  Forall (fun x => slashFree x = true) acc ->
  Forall (fun x => slashFree x = true) (normalized f l acc).
Proof.
  induction l as [| seg rest IH]; intros acc Fl Fa; [exact Fa |].
  inversion Fl; subst. simpl.
  destruct ((seg =? EmptyString) || (seg =? ".")); [now apply IH |].
  destruct (seg =? "..") eqn:E; [| apply IH; auto].
  destruct acc as [| top acc'].
  - apply IH; auto. destruct f; repeat constructor.
  - inversion Fa; subst. destruct (top =? ".."); apply IH; auto.
    destruct f; auto.
Qed.

Lemma segments_slashFree p :
  Forall (fun x => slashFree x = true) (Path.segments p).
Proof.
  unfold Path.segments. rewrite normalizeString_normalized.
  apply Forall_rev. apply normalized_slashFree; [apply split_pieces_slashFree | constructor].
Qed.

(** The segments of a path are plain, but for [..] at their start. *)
Lemma normalAcc_no_empty f acc :
  normalAcc f acc = true -> Forall (fun x => x <> EmptyString) acc.
Proof.
  induction acc as [| x r IH]; intros N; [constructor |].
  constructor.
  - simpl in N. destruct (x =? "..") eqn:E.
    + apply String.eqb_eq in E. subst. discriminate.
    + apply andb_true_iff in N. destruct N as [P _]. unfold plain in P.
      intros ->. discriminate.
  - exact (IH (normalAcc_tail _ _ _ N)).
Qed.

Lemma isAbsolute_app a b :
  a <> EmptyString -> Path.isAbsolute (a ++ b) = Path.isAbsolute a.
Proof. destruct a; [congruence | reflexivity]. Qed.

Lemma isAbsolute_concat x r :
  x <> EmptyString -> slashFree x = true ->
  Path.isAbsolute (String.concat "/" (x :: r)) = false.
Proof.
  intros Hne F. destruct x as [| c x']; [congruence |].
  simpl in F. apply andb_true_iff in F. destruct F as [Hc _].
  apply negb_true_iff in Hc. destruct r; simpl; exact Hc.
Qed.

Lemma trailingSeparator_app a c r :
  Path.trailingSeparator (a ++ String c r) = Path.trailingSeparator (String c r).
Proof.
  induction a as [| x a' IH]; [reflexivity |].
  cbn [append]. cbn [Path.trailingSeparator]. rewrite IH.
  destruct (a' ++ String c r) eqn:E; [| reflexivity].
  destruct a'; discriminate.
Qed.

Lemma concat_not_empty x r :
  x <> EmptyString -> String.concat "/" (x :: r) <> EmptyString.
Proof.
  intros Hne. destruct x; [congruence |]. destruct r; simpl; discriminate.
Qed.

(** Joining a plain name to a directory appends the name to the segments of
    the directory. *)
Lemma segments_join dir name :
  plain name = true -> slashFree name = true ->
  Path.segments (Path.join dir name) = (Path.segments dir ++ [name])%list.
Proof.
  intros P F.
  assert (Nn : name <> EmptyString) by (intros ->; discriminate).
  assert (S0 : forall a, a <> EmptyString ->
             Path.segments (a ++ "/" ++ name)
             = (Path.segments a ++ [name])%list).
  { intros a Ha. unfold Path.segments.
    rewrite isAbsolute_app by exact Ha.
    rewrite split_app, (split_slashFree name F).
    rewrite !normalizeString_normalized, normalized_app.
    rewrite plain_step by exact P. reflexivity. }
  assert (Idem : forall s,
             s <> EmptyString -> Path.trailingSeparator s = false ->
             Path.segments s <> [] ->
             Path.segments (Path.normalize s) = Path.segments s).
  { intros s Hs Ts Hseg. unfold Path.normalize.
    destruct (s =? EmptyString) eqn:Es;
      [apply String.eqb_eq in Es; congruence |].
    rewrite Ts. cbv zeta.
    pose proof (segments_slashFree s) as SF.
    assert (NA : normalAcc (negb (Path.isAbsolute s))
                   (normalized (negb (Path.isAbsolute s)) (Path.split s) [])
                 = true) by (now apply normalized_normal).
    apply normalAcc_no_empty in NA. apply Forall_rev in NA.
    assert (Es' : Path.segments s
                  = rev (normalized (negb (Path.isAbsolute s)) (Path.split s) []))
      by (unfold Path.segments; apply normalizeString_normalized).
    rewrite <- Es' in NA.
    destruct (Path.segments s) as [| x r] eqn:Eseg; [congruence |].
    inversion NA; subst. inversion SF; subst.
    destruct (String.concat "/" (x :: r) =? EmptyString) eqn:Eb.
    { apply String.eqb_eq in Eb. exfalso. revert Eb. now apply concat_not_empty. }
    destruct (Path.isAbsolute s) eqn:Abs.
    - unfold Path.segments at 1.
      change (Path.isAbsolute ("/" ++ String.concat "/" (x :: r))) with true.
      change (Path.split ("/" ++ String.concat "/" (x :: r)))
        with (EmptyString :: Path.split (String.concat "/" (x :: r))).
      rewrite split_concat by (auto; discriminate).
      change (Path.normalizeString (negb true) (EmptyString :: x :: r) [])
        with (Path.normalizeString false (x :: r) []).
      rewrite <- Eseg. unfold Path.segments. rewrite Abs.
      apply normalizeString_idempotent.
    - unfold Path.segments at 1.
      rewrite isAbsolute_concat by assumption.
      rewrite split_concat by (auto; discriminate).
      rewrite <- Eseg. unfold Path.segments. rewrite Abs.
      apply normalizeString_idempotent. }
  unfold Path.join.
  destruct (dir =? EmptyString) eqn:Ed.
  - apply String.eqb_eq in Ed. subst dir.
    destruct (name =? EmptyString) eqn:En;
      [apply String.eqb_eq in En; congruence |].
    assert (Sn : Path.segments name = [name]).
    { unfold Path.segments. rewrite (split_slashFree name F).
      rewrite normalizeString_normalized, plain_step by exact P. reflexivity. }
    rewrite Idem; auto.
    + destruct name as [| c r]; [congruence |].
      change (String c r) with (EmptyString ++ String c r).
      rewrite trailingSeparator_app.
      clear - F. revert c F. induction r as [| c' r IH]; intros c F.
      * simpl in *. apply andb_true_iff in F. destruct F as [F _].
        now apply negb_true_iff in F.
      * cbn [Path.trailingSeparator]. apply IH. simpl in F.
        apply andb_true_iff in F. tauto.
    + rewrite Sn. discriminate.
  - assert (Hd : dir <> EmptyString).
    { intros ->. discriminate. }
    destruct (name =? EmptyString) eqn:En;
      [apply String.eqb_eq in En; congruence |].
    rewrite Idem.
    + now apply S0.
    + destruct dir; discriminate.
    + destruct name as [| c r]; [congruence |].
      change (dir ++ "/" ++ String c r) with (dir ++ ("/" ++ String c r)).
      rewrite <- string_app_assoc, trailingSeparator_app.
      clear - F. revert c F. induction r as [| c' r IH]; intros c F.
      * simpl in *. apply andb_true_iff in F. destruct F as [F _].
        now apply negb_true_iff in F.
      * cbn [Path.trailingSeparator]. apply IH. simpl in F.
        apply andb_true_iff in F. tauto.
    + rewrite S0 by exact Hd. intros E. apply app_eq_nil in E.
      destruct E; discriminate.
Qed.

(** ** The manifest is one of the files of the build *)

Lemma walk_app n a : forall b,
  walk n (a ++ b)
  = match walk n a with Some m => walk m b | None => None end.
Proof.
  revert n. induction a as [| s rest IH]; intros n b; [reflexivity |].
  cbn [app walk]. destruct n as [c | es |]; try reflexivity.
  destruct (child s es); [apply IH | reflexivity].
Qed.

Lemma child_In name es c : child name es = Some c -> In (name, c) es.
Proof.
  induction es as [| [n c'] rest IH]; [discriminate |]. simpl.
  destruct (n =? name) eqn:E.
  - apply String.eqb_eq in E. intros H. injection H as ->. subst. now left.
  - intros H. right. now apply IH.
Qed.

Lemma lookup_walk d p n : lookup d p = Some n -> walk d (Path.segments p) = Some n.
Proof.
  unfold lookup. destruct (walk d (Path.segments p)) as [[c | es |] |];
    try destruct (Path.trailingSeparator p); congruence.
Qed.

(** A file that sits in a directory under a plain name is one of the regular
    files below that directory. *)
Lemma lookup_fileUnder d dir name es raw :
  plain name = true -> slashFree name = true ->
  lookup d dir = Some (Dir es) ->
  lookup d (Path.join dir name) = Some (File raw) ->
  fileUnder dir (Dir es) (Path.join dir name).
Proof.
  intros P F Ld Lf. apply lookup_walk in Ld. apply lookup_walk in Lf.
  rewrite segments_join, walk_app, Ld in Lf by assumption.
  cbn [walk] in Lf. destruct (child name es) as [c |] eqn:C; [| discriminate].
  injection Lf as ->. apply child_In in C. exact (fileHere dir es name raw C).
Qed.

(** What a run that returns has read: the manifest, its [files], and the
    directory of the build with every regular file below it declared. *)
Lemma success_scanned w config d o :
  (forall p d', diskAfter (node_require w p d') = d') ->
  (forall p d', diskAfter (node_import w p d') = d') ->
  In o (validateBuild w config (initial d)) ->
  fst o = Val tt ->
  exists raw pkg fs es,
    lookup d (Path.join (pkgDir config) "package.json") = Some (File raw)
    /\ JSON_parse w raw = Some pkg
    /\ files pkg = Some fs
    /\ lookup d (pkgDir config) = Some (Dir es)
    /\ forall p, fileUnder (pkgDir config) (Dir es) p ->
                 In p (map (fun f => Path.join (pkgDir config) f) fs).
Proof.
  intros Hr Hi H Ok. rewrite validateBuild_unfold in H.
  destruct (loadManifest w config (initial d))
    as [[[pkg expectedFiles] | e | c] st1] eqn:L.
  2,3: destruct H as [<- | []]; discriminate.
  pose proof (loadManifest_footprint _ _ _ _ _ L) as E1.
  apply loadManifest_Val in L. destruct L as (raw & fs & Lk & P & F & Ee).
  pose proof (validateFiles_disk w config Hr Hi expectedFiles st1) as D2.
  destruct (validateFiles w config expectedFiles st1) as [[[] | e | c] st2] eqn:V.
  2,3: destruct H as [<- | []]; discriminate.
  cbn [snd] in D2.
  assert (Dst2 : disk st2 = d) by (rewrite D2; subst st1; reflexivity).
  apply afterResolver_In in H. destruct H as (r & Hrs & H).
  destruct H as [(st3 & -> & ->) | (-> & N)]; [| contradiction].
  apply validatePackageJson_outcome in Hrs. cbn [fst snd] in Hrs.
  rewrite Dst2 in Hrs. destruct Hrs as (D3 & _).
  destruct (scanTree w config expectedFiles st3) as [r4 st4] eqn:S.
  cbn [fst] in Ok. subst r4.
  apply scanTree_passed in S. rewrite D3 in S.
  destruct S as (es & Lp & _ & Sub).
  exists raw, pkg, fs, es. subst expectedFiles. repeat split; auto.
Qed.

(** X13.  A build whose manifest does not declare itself never validates.
    The manifest is read from [package.json] in [pkgDir], so it is one of the
    regular files the final scan finds there: when loading a module changes
    nothing on the disk and a run returns, under whatever schedule, the path
    of [package.json] is one of the declared paths, that is, some entry of
    [files] joins with [pkgDir] to it. *)
Theorem X13_manifest_must_declare_itself w config d o :
  (forall p d', diskAfter (node_require w p d') = d') ->
  (forall p d', diskAfter (node_import w p d') = d') ->
  In o (validateBuild w config (initial d)) ->
  fst o = Val tt ->
  exists raw pkg fs f,
    lookup d (Path.join (pkgDir config) "package.json") = Some (File raw)
    /\ JSON_parse w raw = Some pkg
    /\ files pkg = Some fs
    /\ In f fs
    /\ Path.join (pkgDir config) f = Path.join (pkgDir config) "package.json".
Proof.
  intros Hr Hi H Ok.
  destruct (success_scanned w config d o Hr Hi H Ok)
    as (raw & pkg & fs & es & Lk & P & F & Ld & Sub).
  assert (U : fileUnder (pkgDir config) (Dir es)
                (Path.join (pkgDir config) "package.json"))
    by (apply (lookup_fileUnder d _ _ es raw); auto).
  apply Sub, in_map_iff in U. destruct U as (f & E & Hf).
  exists raw, pkg, fs, f. auto.
Qed.

Lemma X13_manifest_must_declare_itself_witness :
  exists raw pkg fs f,
    lookup (Fixture.build Fixture.pkg Fixture.dist) "/repo/dist/package.json"
    = Some (File raw)
    /\ JSON_parse (Fixture.world Fixture.pkg []) raw = Some pkg
    /\ files pkg = Some fs
    /\ In f fs
    /\ Path.join "/repo/dist" f = "/repo/dist/package.json".
Proof.
  pose (w := Fixture.world Fixture.pkg []).
  pose (config := Fixture.config true).
  pose (d := Fixture.build Fixture.pkg Fixture.dist).
  destruct (X13_manifest_must_declare_itself w config d
              (hd (Val tt, initial d) (validateBuild w config (initial d)))
              (fun p d' => eq_refl) (fun p d' => eq_refl)
              (first_outcome w config (initial d)))
    as (raw & pkg & fs & f & H1 & H2 & H3 & H4 & H5).
  - vm_compute. reflexivity.
  - exists raw, pkg, fs, f. repeat split; assumption.
Defined.

(** ** Modules that end the process *)

(** X14.  The modules of the build run inside the validator.  When the loop
    is at a declared file whose check loads a module, and the top-level code
    of that module calls [process.exit], the run ends there with the code
    the module gave, whatever it is: the handler of the loop does not run,
    the validator prints nothing of its own, and no later file, entry point
    or tree scan is looked at. *)
Theorem X14_module_exit_ends_the_run w config st pkg pre filePath rest st2
  m c :
  reachesFile w config st pkg pre filePath rest st2 ->
  loadedBy w config filePath (disk st2) = Some m ->
  outcome m = Exit c ->
  exists o,
    validateBuild w config st
    = [(Exit c,
        mkState (diskAfter m) (console st2 ++ output m)%list
          (ops st2 ++ [o])%list)]
    /\ (o = Require filePath \/ o = Import filePath).
Proof.
  intros (st1 & L & V) Lb X.
  assert (C : exists o,
            checkFile w config filePath st2
            = (Exit c,
               mkState (diskAfter m) (console st2 ++ output m)%list
                 (ops st2 ++ [o])%list)
            /\ (o = Require filePath \/ o = Import filePath)).
  { unfold loadedBy in Lb. unfold checkFile.
    destruct (Path.extname filePath =? ".cjs").
    - injection Lb as <-. exists (Require filePath).
      rewrite require_eq, X. auto.
    - destruct (Path.extname filePath =? ".mjs"); [| discriminate].
      destruct (esmNode config); [| discriminate].
      injection Lb as <-. exists (Import filePath).
      rewrite import_eq, X. auto. }
  destruct C as (o & C & Ho). exists o. split; [| exact Ho].
  rewrite validateBuild_unfold, L.
  rewrite (validateFiles_app _ _ _ _ _ _ V), validateFiles_cons, C.
  reflexivity.
Qed.

Lemma X14_module_exit_ends_the_run_witness :
  exists o,
    validateBuild Fixture.worldWithExit (Fixture.config true)
      (initial (Fixture.build Fixture.pkg Fixture.dist))
    = [(Exit 0,
        mkState (Fixture.build Fixture.pkg Fixture.dist) [StdOut "done"]
          [ReadFile "/repo/dist/package.json"; o])]
    /\ (o = Require "/repo/dist/core.cjs" \/ o = Import "/repo/dist/core.cjs").
Proof.
  pose (w := Fixture.worldWithExit).
  pose (config := Fixture.config true).
  pose (st := initial (Fixture.build Fixture.pkg Fixture.dist)).
  pose (st1 := snd (loadManifest w config st)).
  assert (R : reachesFile w config st Fixture.pkg [] "/repo/dist/core.cjs"
                ["/repo/dist/core.mjs"; "/repo/dist/core.d.ts";
                 "/repo/dist/core.mjs.map"; "/repo/dist/README.md";
                 "/repo/dist/package.json"] st1).
  { exists st1. split; vm_compute; reflexivity. }
  exact (X14_module_exit_ends_the_run w config st Fixture.pkg _ _ _ st1
           (node_require w "/repo/dist/core.cjs" (disk st1)) 0%Z
           R eq_refl eq_refl).
Defined.
